(** * Banking ledger: the transaction service, its journal schema and the
      public account-number validator

    A shallow embedding of
      - the class [TransactionService] of the service layer,
      - [models/transaction.model.ts]      (the [entries] validators),
      - [utils/validators.ts]              ([validateAccountNumber]),
      - [utils/crypto.ts], [utils/errors.ts] (identifiers, error classes),
      - the class [AccountService] of the service layer (opening, lookup
        and maintenance of accounts),
    with the MongoDB collections as explicit state.

    Conventions.
      - A [Decimal] is the exact value of a decimal.js / Decimal128 number.
        The service only adds, subtracts and compares decimals, and every
        stored amount is written from the canonical rendering of its value,
        so two stored amounts are the same document field exactly when their
        values are equal.  [new Decimal(v)] and the comparisons are exact;
        every sum and difference is rounded to the 20 significant digits of
        decimal.js ([plus], [minus] below).  Such a result, like the
        rendering of a JavaScript number, fits the 34 digits of Decimal128;
        the range of its exponent is not modelled.
      - A transaction document in memory is an [ITransaction]; what [save]
        stores of it are the paths of [TransactionSchema]
        ([Transaction.schemaPaths]).
      - A JavaScript [number] is a binary64 float ([spec_float] with
        [prec = 53], [emax = 1024]); [parseFloat] rounds to nearest, ties to
        even.
      - A mongoose session is a unit of work: the writes made under it are
        kept on [commitTransaction] and dropped on [abortTransaction].
        Writes made without the session (the lazily created system accounts
        and the in-process cache) stay.
      - Values minted at run time (random hex, object ids, the clock) come
        from an explicit environment [Env].
      - User and object ids are taken to be well-formed, so that
        [new ObjectId(id)] does not throw. *)

From Stdlib Require Import ZArith QArith Qcanon Ascii String.
From Stdlib Require Import Floats.SpecFloat.
From Stdlib Require Strings.Byte.
From stdpp Require Import gmap strings list pretty.

Local Open Scope string_scope.
Local Open Scope list_scope.

(** ** Decimals *)

Abbreviation Decimal := Qc (only parsing).

(** [dec n d] is the decimal [n / d]; [dec 3 10] is 0.3. *)
Definition dec (n : Z) (d : positive) : Decimal := Q2Qc (n # d).

(** decimal.js computes with [Decimal.precision] significant digits and
    rounds as [Decimal.rounding] says.  The repository sets neither, which
    leaves them at 20 digits and at ROUND_HALF_UP: to the nearest, and away
    from zero when two are as near. *)
Definition precision : Z := 20.

(** The number of decimal digits of a whole number [n >= 1]; [fuel] bounds
    it. *)
Fixpoint digitsOf (fuel : nat) (n : Z) : Z :=
  match fuel with
  | O => 1
  | S fuel => if (n <? 10)%Z then 1%Z else (1 + digitsOf fuel (n / 10))%Z
  end.

Definition numberOfDigits (n : Z) : Z := digitsOf (Z.to_nat (Z.log2 n)) n.

(** Powers of ten with a whole exponent of either sign: [10^z] is
    [pow10 z / pow10 (- z)], one of the two being 1. *)
Definition pow10 (z : Z) : Z := (10 ^ Z.max 0 z)%Z.

(** The exponent of [n / d] for whole numbers [n, d >= 1]: the [e] with
    [10^e <= n / d < 10^(e + 1)]. *)
Definition exponentOf (n d : Z) : Z :=
  let e := (numberOfDigits n - numberOfDigits d)%Z in
  if (d * pow10 e <=? n * pow10 (- e))%Z then e else (e - 1)%Z.

(** [finalise(x, Decimal.precision, Decimal.rounding)], by which decimal.js
    closes every arithmetic operation: [x] to 20 significant digits. *)
Definition finalise (x : Q) : Decimal :=
  let n := Z.abs (Qnum x) in
  let d := Zpos (Qden x) in
  if (n =? 0)%Z then 0%Qc
  else
    (* [|x| * 10^k] has 20 digits before the point *)
    let k := (precision - 1 - exponentOf n d)%Z in
    let units := ((2 * n * pow10 k + d * pow10 (- k)) / (2 * d * pow10 (- k)))%Z in
    Q2Qc (Z.sgn (Qnum x) * units * pow10 (- k) # Z.to_pos (pow10 k)).

Definition plus (x y : Decimal) : Decimal := finalise (x + y)%Qc.
Definition minus (x y : Decimal) : Decimal := finalise (x - y)%Qc.
Definition lessThan (x y : Decimal) : bool := bool_decide (x < y)%Qc.
Definition isNegative (x : Decimal) : bool := bool_decide (x < 0)%Qc.

(** ** JavaScript numbers *)

Abbreviation number := spec_float (only parsing).

Definition num_add : number -> number -> number := SFadd 53 1024.
Definition num_neg : number -> number := SFopp.
Definition num_zero : number := S754_zero false.
(** [x === y] on numbers. *)
Definition num_eq : number -> number -> bool := SFeqb.

Definition num_isFinite (x : number) : bool :=
  match x with
  | S754_zero _ | S754_finite _ _ _ => true
  | S754_infinity _ | S754_nan => false
  end.

(** [parseFloat(d.toString())]: the binary64 number nearest to the decimal
    [d], computed as the correctly rounded quotient of its numerator by its
    denominator. *)
Definition parseFloat (d : Decimal) : number :=
  let round (sign : bool) (p : positive) :=
    let '(mz, ez, lz) :=
      SFdiv_core_binary 53 1024 (Zpos p) 0 (Zpos (Qden d)) 0 in
    binary_round_aux 53 1024 sign mz ez lz in
  match Qnum d with
  | Z0 => num_zero
  | Zpos p => round false p
  | Zneg p => round true p
  end.

(** ** Enumerations (interfaces/*.interface.ts) *)

Inductive EntryType := DEBIT | CREDIT.

Inductive TransactionType :=
  | DEPOSIT | WITHDRAWAL | TRANSFER | PAYMENT | FEE
  | INTEREST | ADJUSTMENT | REVERSAL | REFUND.

Inductive TransactionStatus :=
  | PENDING | PROCESSING | COMPLETED | FAILED | CANCELLED.

Module AccountType.
Inductive t := SAVINGS | INVESTMENT | CREDIT | SYSTEM.
End AccountType.

Inductive CurrencyCode :=
  | USD | EUR | GBP | JPY | CAD | CHF | AUD | CNY | INR | NGN.

#[global] Instance EntryType_eq_dec : EqDecision EntryType.
Proof. solve_decision. Defined.
#[global] Instance TransactionType_eq_dec : EqDecision TransactionType.
Proof. solve_decision. Defined.
#[global] Instance TransactionStatus_eq_dec : EqDecision TransactionStatus.
Proof. solve_decision. Defined.
#[global] Instance AccountType_eq_dec : EqDecision AccountType.t.
Proof. solve_decision. Defined.
#[global] Instance CurrencyCode_eq_dec : EqDecision CurrencyCode.
Proof. solve_decision. Defined.

(** The string value of a currency code, as interpolated in messages and
    cache keys. *)
Definition currencyString (c : CurrencyCode) : string :=
  match c with
  | USD => "USD" | EUR => "EUR" | GBP => "GBP" | JPY => "JPY" | CAD => "CAD"
  | CHF => "CHF" | AUD => "AUD" | CNY => "CNY" | INR => "INR" | NGN => "NGN"
  end.

(** Mongo object ids, by their 24 character hexadecimal rendering. *)
Abbreviation ObjectId := string (only parsing).
(** Dates, in milliseconds since the epoch. *)
Abbreviation Date := Z (only parsing).

(** ** Documents *)

Module Entry.
Record t := mk {
  accountId : ObjectId;
  entryType : EntryType;
  amount : Decimal;
}.
End Entry.

Module Account.
Record t := mk {
  _id : ObjectId;
  userId : ObjectId;
  accountNumber : string;
  accountType : AccountType.t;
  currency : CurrencyCode;
  isActive : bool;
  metadata : gmap string string;
}.
End Account.

(** A balance row.  Its [accountId], under which the collection is uniquely
    indexed, is the key of the row in [accountBalances] below. *)
Module AccountBalance.
Record t := mk {
  currency : CurrencyCode;
  balance : Decimal;
  lastUpdated : Date;
}.
End AccountBalance.

(** The transaction document as the service sees it ([ITransaction]). *)
Module Transaction.
Record t := mk {
  transactionId : string;
  transactionType : TransactionType;
  userId : ObjectId;
  entries : list Entry.t;
  amount : Decimal;
  currency : CurrencyCode;
  fromAccount : option string;
  toAccount : option string;
  status : TransactionStatus;
  description : string;
  reference : option string;
  metadata : gmap string string;
  failureReason : option string;
  processedAt : option Date;
  createdAt : Date;
}.

Definition set_status (st : TransactionStatus) (x : t) : t :=
  mk (transactionId x) (transactionType x) (userId x) (entries x) (amount x)
     (currency x) (fromAccount x) (toAccount x) st (description x)
     (reference x) (metadata x) (failureReason x) (processedAt x)
     (createdAt x).

Definition set_processedAt (d : Date) (x : t) : t :=
  mk (transactionId x) (transactionType x) (userId x) (entries x) (amount x)
     (currency x) (fromAccount x) (toAccount x) (status x) (description x)
     (reference x) (metadata x) (failureReason x) (Some d) (createdAt x).

Definition set_failureReason (msg : string) (x : t) : t :=
  mk (transactionId x) (transactionType x) (userId x) (entries x) (amount x)
     (currency x) (fromAccount x) (toAccount x) (status x) (description x)
     (reference x) (metadata x) (Some msg) (processedAt x) (createdAt x).

(** The document without the fields of [ITransaction] that are no paths of
    [TransactionSchema]: [fromAccount], [toAccount], [reference] and
    [processedAt]. *)
Definition schemaPaths (x : t) : t :=
  mk (transactionId x) (transactionType x) (userId x) (entries x) (amount x)
     (currency x) None None (status x) (description x)
     None (metadata x) (failureReason x) None (createdAt x).
End Transaction.

(** ** Errors (utils/errors.ts) *)

Inductive ErrorName :=
  | NotFoundError
  | BadRequestError
  | InsufficientFundsError
  | MongoServerError.   (* E11000, a unique index refused the write *)

Inductive ErrorDetails :=
  | NoDetails
  | FundsDetails (available requested : Decimal)
  | EntryFundsDetails (accountId : ObjectId) (available required : Decimal)
  | ReversalDetails (reversalId : string)
  | ValidationDetails (validatorMessage : string)
  | DuplicateKeyDetails (index : string).

Record ApiError := mkError {
  name : ErrorName;
  message : string;
  details : ErrorDetails;
}.

Inductive Result (A : Type) :=
  | Ok (a : A)
  | Err (e : ApiError).
Arguments Ok {A} a.
Arguments Err {A} e.

(** ** The journal schema (models/transaction.model.ts) *)

(** First validator of [entries]. *)
Definition entriesLengthValidator (entries : list Entry.t) : bool :=
  bool_decide (2 ≤ length entries)%nat.

(** The [reduce] of the second validator: a running sum of JavaScript
    numbers, debits added and credits subtracted. *)
Definition entriesSum (entries : list Entry.t) : number :=
  fold_left
    (fun acc entry =>
       let amount := parseFloat (Entry.amount entry) in
       num_add acc
         (if bool_decide (Entry.entryType entry = DEBIT)
          then amount else num_neg amount))
    entries num_zero.

(** Second validator of [entries]: [sum === 0]. *)
Definition entriesBalanceValidator (entries : list Entry.t) : bool :=
  num_eq (entriesSum entries) num_zero.

(** What [save] can raise. *)
Inductive SaveError :=
  | ValidationError (validatorMessage : string)
  | DuplicateKey (index : string).

(** The ledger operations wrap a mongoose [ValidationError] and rethrow
    anything else. *)
Definition rethrow (e : SaveError) : ApiError :=
  match e with
  | ValidationError msg =>
      mkError BadRequestError "Invalid transaction data" (ValidationDetails msg)
  | DuplicateKey index =>
      mkError MongoServerError "E11000 duplicate key error" (DuplicateKeyDetails index)
  end.

(** Schema validation of a transaction document: only [entries] carries
    validators. *)
Definition validateTransaction (tx : Transaction.t) : option string :=
  if negb (entriesLengthValidator (Transaction.entries tx)) then
    Some "A transaction must have at least two entries for double-entry accounting."
  else if negb (entriesBalanceValidator (Transaction.entries tx)) then
    Some "Debits and credits must balance exactly (Σ debits = Σ credits)."
  else None.

(** [new Transaction(obj)]: the schema is strict, and a field of [obj] that
    is no path of it is not taken over. *)
Definition newTransaction (obj : Transaction.t) : Transaction.t :=
  Transaction.schemaPaths obj.

(** [save] of a new transaction document, as [new Transaction] made it:
    validation, then the insert under the unique index on [transactionId]. *)
Definition insertTransaction (tx : Transaction.t) (txs : list Transaction.t)
  : SaveError + list Transaction.t :=
  match validateTransaction tx with
  | Some msg => inl (ValidationError msg)
  | None =>
      if bool_decide (Transaction.transactionId tx ∈ Transaction.transactionId <$> txs)
      then inl (DuplicateKey "transactionId")
      else inr (txs ++ [tx])
  end.

(** [save] of a transaction document that is already stored: the paths of
    the schema are written.  A property that was set on the document and is
    no path ([processedAt]) stays on the document in memory only. *)
Definition updateTransaction (tx : Transaction.t) (txs : list Transaction.t)
  : list Transaction.t :=
  (fun t => if bool_decide (Transaction.transactionId t = Transaction.transactionId tx)
            then Transaction.schemaPaths tx else t) <$> txs.

(** ** Requests (interfaces/transaction.interface.ts)

    The [amount] of a request is a JavaScript number; the service only uses
    it through [amount.toString()] and [new Decimal(amount)], which both
    denote the decimal that the number prints as.  That decimal is the
    [amount] of the records below. *)

Module DepositTransactionDTO.
Record t := mk {
  userId : string;
  accountNumber : string;
  amount : Decimal;
  currency : CurrencyCode;
  description : option string;
  reference : option string;
  metadata : option (gmap string string);
}.
End DepositTransactionDTO.
Module WithdrawalTransactionDTO := DepositTransactionDTO.
Module FeeTransactionDTO := DepositTransactionDTO.

Module TransferTransactionDTO.
Record t := mk {
  userId : string;
  fromAccountNumber : string;
  toAccountNumber : string;
  amount : Decimal;
  currency : CurrencyCode;
  description : option string;
  reference : option string;
  metadata : option (gmap string string);
}.
End TransferTransactionDTO.

Module ReversalTransactionDTO.
Record t := mk {
  userId : string;
  originalTransactionId : string;
  reason : string;
  metadata : option (gmap string string);
}.
End ReversalTransactionDTO.

(** [x || d] on an optional string: absent and empty are both falsy. *)
Definition orElse (x : option string) (d : string) : string :=
  match x with
  | Some s => if bool_decide (s = "") then d else s
  | None => d
  end.

(** [m ? new Map(Object.entries(m)) : new Map()]. *)
Definition metadataMap (m : option (gmap string string)) : gmap string string :=
  default ∅ m.

(** ** State and environment *)

Record State := mkState {
  accounts : list Account.t;                    (* collection Account *)
  accountBalances : gmap string AccountBalance.t;  (* AccountBalance, by its unique accountId *)
  transactions : list Transaction.t;            (* collection Transaction *)
  systemAccounts : gmap string string;          (* TransactionService.systemAccounts *)
}.

Record Env := mkEnv {
  timestamp : string;            (* Date.now().toString(36).toUpperCase() *)
  random : string -> string;     (* the random hex drawn for a given prefix *)
  objectId : string;             (* the _id given to a document created here *)
  now : Z;                       (* new Date() *)
  nowISO : string;               (* new Date().toISOString() *)
}.

(** utils/crypto.ts *)
Definition generateTransactionId (env : Env) (prefix : string) : string :=
  prefix +:+ "-" +:+ timestamp env +:+ "-" +:+ random env prefix.

Definition set_accounts (x : list Account.t) (s : State) : State :=
  mkState x (accountBalances s) (transactions s) (systemAccounts s).
Definition set_accountBalances (x : gmap string AccountBalance.t) (s : State) : State :=
  mkState (accounts s) x (transactions s) (systemAccounts s).
Definition set_transactions (x : list Transaction.t) (s : State) : State :=
  mkState (accounts s) (accountBalances s) x (systemAccounts s).
Definition set_systemAccounts (x : gmap string string) (s : State) : State :=
  mkState (accounts s) (accountBalances s) (transactions s) x.

(** [accountBalance.balance = ...; accountBalance.lastUpdated = new Date();
    accountBalance.save()], for the row [accountBalance] that was read under
    [accountId]. *)
Definition saveBalance (env : Env) (accountId : string) (accountBalance : AccountBalance.t)
    (newBalance : Decimal) (bals : gmap string AccountBalance.t)
  : gmap string AccountBalance.t :=
  <[accountId :=
      AccountBalance.mk (AccountBalance.currency accountBalance) newBalance (now env)]> bals.

(** [Account.findOne({ accountNumber, isActive: true })]. *)
Definition findActiveAccount (accountNumber : string) (s : State) : option Account.t :=
  List.find
    (fun a => bool_decide (Account.accountNumber a = accountNumber) && Account.isActive a)
    (accounts s).

(** ** TransactionService *)

Definition getSystemUserId : string := "000000000000000000000001".

(** [save] of a new account: unique [_id] and unique [accountNumber]. *)
Definition insertAccount (a : Account.t) (accs : list Account.t)
  : SaveError + list Account.t :=
  if bool_decide (Account._id a ∈ Account._id <$> accs) then inl (DuplicateKey "_id")
  else if bool_decide (Account.accountNumber a ∈ Account.accountNumber <$> accs)
  then inl (DuplicateKey "accountNumber")
  else inr (accs ++ [a]).

(** [save] of a new balance row: unique [accountId]. *)
Definition insertBalance (accountId : string) (row : AccountBalance.t)
    (bals : gmap string AccountBalance.t)
  : SaveError + gmap string AccountBalance.t :=
  match bals !! accountId with
  | Some _ => inl (DuplicateKey "accountId")
  | None => inr (<[accountId := row]> bals)
  end.

(** The system account of a purpose and currency, created on first use.
    None of its writes is made under the caller's session. *)
Definition getSystemAccount (env : Env) (accountType : string) (currency : CurrencyCode)
    (s : State) : State * Result string :=
  let cacheKey := accountType +:+ "_" +:+ currencyString currency in
  match systemAccounts s !! cacheKey with
  | Some id => (s, Ok id)
  | None =>
    match List.find
            (fun a => bool_decide (Account.accountType a = AccountType.SYSTEM)
                      && bool_decide (Account.currency a = currency)
                      && bool_decide (Account.metadata a !! "purpose" = Some accountType))
            (accounts s) with
    | Some systemAccount =>
        (set_systemAccounts (<[cacheKey := Account._id systemAccount]> (systemAccounts s)) s,
         Ok (Account._id systemAccount))
    | None =>
        let systemUserId := getSystemUserId in
        let newSystemAccount :=
          Account.mk (objectId env) systemUserId (generateTransactionId env "SYS")
            AccountType.SYSTEM currency true
            (<["createdAt" := nowISO env]>
               (<["description" :=
                    "System " +:+ accountType +:+ " Account for " +:+ currencyString currency]>
                  (<["purpose" := accountType]> ∅))) in
        match insertAccount newSystemAccount (accounts s) with
        | inl e => (s, Err (rethrow e))
        | inr accs =>
            let s1 := set_accounts accs s in
            let systemBalance := AccountBalance.mk currency 0%Qc (now env) in
            match insertBalance (Account._id newSystemAccount) systemBalance
                    (accountBalances s1) with
            | inl e => (s1, Err (rethrow e))
            | inr bals =>
                (set_systemAccounts
                   (<[cacheKey := Account._id newSystemAccount]> (systemAccounts s1))
                   (set_accountBalances bals s1),
                 Ok (Account._id newSystemAccount))
            end
        end
    end
  end.

(** The session's work is committed: the journal and the balances written
    under it replace the stored ones. *)
Definition commitTransaction (txs : list Transaction.t)
    (bals : gmap string AccountBalance.t) (s : State) : State :=
  set_accountBalances bals (set_transactions txs s).

(** [transaction.status = COMPLETED; transaction.processedAt = new Date()]. *)
Definition complete (env : Env) (tx : Transaction.t) : Transaction.t :=
  Transaction.set_processedAt (now env) (Transaction.set_status COMPLETED tx).

Definition createDeposit (env : Env) (depositData : DepositTransactionDTO.t) (s : State)
  : State * Result Transaction.t :=
  match findActiveAccount (DepositTransactionDTO.accountNumber depositData) s with
  | None => (s, Err (mkError NotFoundError "Account not found or inactive" NoDetails))
  | Some account =>
    if negb (bool_decide (Account.currency account = DepositTransactionDTO.currency depositData))
    then (s, Err (mkError BadRequestError
                    ("Currency mismatch. Account is in " +:+ currencyString (Account.currency account)
                     +:+ ", but deposit is in "
                     +:+ currencyString (DepositTransactionDTO.currency depositData))
                    NoDetails))
    else
    match accountBalances s !! Account._id account with
    | None => (s, Err (mkError NotFoundError "Account balance not found" NoDetails))
    | Some accountBalance =>
      let transactionId := generateTransactionId env "DEP" in
      let '(s1, r) := getSystemAccount env "DEPOSITS" (DepositTransactionDTO.currency depositData) s in
      match r with
      | Err e => (s1, Err e)
      | Ok depositsAccountId =>
        let entries :=
          [ Entry.mk (Account._id account) CREDIT (DepositTransactionDTO.amount depositData);
            Entry.mk depositsAccountId DEBIT (DepositTransactionDTO.amount depositData) ] in
        let transaction :=
          newTransaction
            (Transaction.mk transactionId DEPOSIT (DepositTransactionDTO.userId depositData)
              entries (DepositTransactionDTO.amount depositData)
              (DepositTransactionDTO.currency depositData)
              None (Some (Account.accountNumber account))
              PROCESSING
              (orElse (DepositTransactionDTO.description depositData) "Deposit transaction")
              (Some (orElse (DepositTransactionDTO.reference depositData) transactionId))
              (metadataMap (DepositTransactionDTO.metadata depositData))
              None None (now env)) in
        match insertTransaction transaction (transactions s1) with
        | inl e => (s1, Err (rethrow e))
        | inr txs =>
          let currentBalance := AccountBalance.balance accountBalance in
          let newBalance := plus currentBalance (DepositTransactionDTO.amount depositData) in
          let bals := saveBalance env (Account._id account) accountBalance newBalance (accountBalances s1) in
          let transaction := complete env transaction in
          (commitTransaction (updateTransaction transaction txs) bals s1, Ok transaction)
        end
      end
    end
  end.

Definition createWithdrawal (env : Env) (withdrawalData : WithdrawalTransactionDTO.t) (s : State)
  : State * Result Transaction.t :=
  match findActiveAccount (WithdrawalTransactionDTO.accountNumber withdrawalData) s with
  | None => (s, Err (mkError NotFoundError "Account not found or inactive" NoDetails))
  | Some account =>
    if negb (bool_decide (Account.currency account = WithdrawalTransactionDTO.currency withdrawalData))
    then (s, Err (mkError BadRequestError
                    ("Currency mismatch. Account is in " +:+ currencyString (Account.currency account)
                     +:+ ", but withdrawal is in "
                     +:+ currencyString (WithdrawalTransactionDTO.currency withdrawalData))
                    NoDetails))
    else
    match accountBalances s !! Account._id account with
    | None => (s, Err (mkError NotFoundError "Account balance not found" NoDetails))
    | Some accountBalance =>
      let currentBalance := AccountBalance.balance accountBalance in
      if lessThan currentBalance (WithdrawalTransactionDTO.amount withdrawalData)
      then (s, Err (mkError InsufficientFundsError "Insufficient funds for withdrawal"
                      (FundsDetails currentBalance (WithdrawalTransactionDTO.amount withdrawalData))))
      else
      let transactionId := generateTransactionId env "WDR" in
      let '(s1, r) := getSystemAccount env "WITHDRAWALS" (WithdrawalTransactionDTO.currency withdrawalData) s in
      match r with
      | Err e => (s1, Err e)
      | Ok withdrawalsAccountId =>
        let entries :=
          [ Entry.mk (Account._id account) DEBIT (WithdrawalTransactionDTO.amount withdrawalData);
            Entry.mk withdrawalsAccountId CREDIT (WithdrawalTransactionDTO.amount withdrawalData) ] in
        let transaction :=
          newTransaction
            (Transaction.mk transactionId WITHDRAWAL (WithdrawalTransactionDTO.userId withdrawalData)
              entries (WithdrawalTransactionDTO.amount withdrawalData)
              (WithdrawalTransactionDTO.currency withdrawalData)
              (Some (Account.accountNumber account)) None
              PROCESSING
              (orElse (WithdrawalTransactionDTO.description withdrawalData) "Withdrawal transaction")
              (Some (orElse (WithdrawalTransactionDTO.reference withdrawalData) transactionId))
              (metadataMap (WithdrawalTransactionDTO.metadata withdrawalData))
              None None (now env)) in
        match insertTransaction transaction (transactions s1) with
        | inl e => (s1, Err (rethrow e))
        | inr txs =>
          let newBalance := minus currentBalance (WithdrawalTransactionDTO.amount withdrawalData) in
          let bals := saveBalance env (Account._id account) accountBalance newBalance (accountBalances s1) in
          let transaction := complete env transaction in
          (commitTransaction (updateTransaction transaction txs) bals s1, Ok transaction)
        end
      end
    end
  end.

Definition createTransfer (env : Env) (transferData : TransferTransactionDTO.t) (s : State)
  : State * Result Transaction.t :=
  if bool_decide (TransferTransactionDTO.fromAccountNumber transferData
                  = TransferTransactionDTO.toAccountNumber transferData)
  then (s, Err (mkError BadRequestError "Source and destination accounts cannot be the same" NoDetails))
  else
  match findActiveAccount (TransferTransactionDTO.fromAccountNumber transferData) s with
  | None => (s, Err (mkError NotFoundError "Source account not found or inactive" NoDetails))
  | Some sourceAccount =>
  match findActiveAccount (TransferTransactionDTO.toAccountNumber transferData) s with
  | None => (s, Err (mkError NotFoundError "Destination account not found or inactive" NoDetails))
  | Some destinationAccount =>
    if negb (bool_decide (Account.currency sourceAccount = TransferTransactionDTO.currency transferData))
    then (s, Err (mkError BadRequestError
                    ("Currency mismatch. Source account is in "
                     +:+ currencyString (Account.currency sourceAccount)
                     +:+ ", but transfer is in "
                     +:+ currencyString (TransferTransactionDTO.currency transferData))
                    NoDetails))
    else
    if negb (bool_decide (Account.currency destinationAccount = TransferTransactionDTO.currency transferData))
    then (s, Err (mkError BadRequestError
                    ("Currency mismatch. Destination account is in "
                     +:+ currencyString (Account.currency destinationAccount)
                     +:+ ", but transfer is in "
                     +:+ currencyString (TransferTransactionDTO.currency transferData))
                    NoDetails))
    else
    if negb (bool_decide (Account.userId sourceAccount = TransferTransactionDTO.userId transferData))
    then (s, Err (mkError BadRequestError "You can only transfer from your own accounts" NoDetails))
    else
    match accountBalances s !! Account._id sourceAccount with
    | None => (s, Err (mkError NotFoundError "Source account balance not found" NoDetails))
    | Some sourceBalance =>
    match accountBalances s !! Account._id destinationAccount with
    | None => (s, Err (mkError NotFoundError "Destination account balance not found" NoDetails))
    | Some destinationBalance =>
      let currentSourceBalance := AccountBalance.balance sourceBalance in
      if lessThan currentSourceBalance (TransferTransactionDTO.amount transferData)
      then (s, Err (mkError InsufficientFundsError "Insufficient funds for transfer"
                      (FundsDetails currentSourceBalance (TransferTransactionDTO.amount transferData))))
      else
      let transactionId := generateTransactionId env "TRF" in
      let entries :=
        [ Entry.mk (Account._id sourceAccount) DEBIT (TransferTransactionDTO.amount transferData);
          Entry.mk (Account._id destinationAccount) CREDIT (TransferTransactionDTO.amount transferData) ] in
      let transaction :=
        newTransaction
          (Transaction.mk transactionId TRANSFER (TransferTransactionDTO.userId transferData)
            entries (TransferTransactionDTO.amount transferData)
            (TransferTransactionDTO.currency transferData)
            (Some (Account.accountNumber sourceAccount))
            (Some (Account.accountNumber destinationAccount))
            PROCESSING
            (orElse (TransferTransactionDTO.description transferData) "Transfer transaction")
            (Some (orElse (TransferTransactionDTO.reference transferData) transactionId))
            (metadataMap (TransferTransactionDTO.metadata transferData))
            None None (now env)) in
      match insertTransaction transaction (transactions s) with
      | inl e => (s, Err (rethrow e))
      | inr txs =>
        let newSourceBalance := minus currentSourceBalance (TransferTransactionDTO.amount transferData) in
        let bals := saveBalance env (Account._id sourceAccount) sourceBalance newSourceBalance (accountBalances s) in
        let currentDestBalance := AccountBalance.balance destinationBalance in
        let newDestBalance := plus currentDestBalance (TransferTransactionDTO.amount transferData) in
        let bals := saveBalance env (Account._id destinationAccount) destinationBalance newDestBalance bals in
        let transaction := complete env transaction in
        (commitTransaction (updateTransaction transaction txs) bals s, Ok transaction)
      end
    end
    end
  end
  end.

Definition createFee (env : Env) (feeData : FeeTransactionDTO.t) (s : State)
  : State * Result Transaction.t :=
  match findActiveAccount (FeeTransactionDTO.accountNumber feeData) s with
  | None => (s, Err (mkError NotFoundError "Account not found or inactive" NoDetails))
  | Some account =>
    if negb (bool_decide (Account.currency account = FeeTransactionDTO.currency feeData))
    then (s, Err (mkError BadRequestError
                    ("Currency mismatch. Account is in " +:+ currencyString (Account.currency account)
                     +:+ ", but fee is in "
                     +:+ currencyString (FeeTransactionDTO.currency feeData))
                    NoDetails))
    else
    match accountBalances s !! Account._id account with
    | None => (s, Err (mkError NotFoundError "Account balance not found" NoDetails))
    | Some accountBalance =>
      let currentBalance := AccountBalance.balance accountBalance in
      if lessThan currentBalance (FeeTransactionDTO.amount feeData)
      then (s, Err (mkError InsufficientFundsError "Insufficient funds for fee deduction"
                      (FundsDetails currentBalance (FeeTransactionDTO.amount feeData))))
      else
      let transactionId := generateTransactionId env "FEE" in
      let '(s1, r) := getSystemAccount env "FEES" (FeeTransactionDTO.currency feeData) s in
      match r with
      | Err e => (s1, Err e)
      | Ok feesAccountId =>
        let entries :=
          [ Entry.mk (Account._id account) DEBIT (FeeTransactionDTO.amount feeData);
            Entry.mk feesAccountId CREDIT (FeeTransactionDTO.amount feeData) ] in
        let transaction :=
          newTransaction
            (Transaction.mk transactionId FEE (FeeTransactionDTO.userId feeData)
              entries (FeeTransactionDTO.amount feeData)
              (FeeTransactionDTO.currency feeData)
              (Some (Account.accountNumber account)) None
              PROCESSING
              (orElse (FeeTransactionDTO.description feeData) "Fee transaction")
              (Some (orElse (FeeTransactionDTO.reference feeData) transactionId))
              (metadataMap (FeeTransactionDTO.metadata feeData))
              None None (now env)) in
        match insertTransaction transaction (transactions s1) with
        | inl e => (s1, Err (rethrow e))
        | inr txs =>
          let newBalance := minus currentBalance (FeeTransactionDTO.amount feeData) in
          let bals := saveBalance env (Account._id account) accountBalance newBalance (accountBalances s1) in
          let transaction := complete env transaction in
          (commitTransaction (updateTransaction transaction txs) bals s1, Ok transaction)
        end
      end
    end
  end.

(** The loop [for (const entry of entries)] shared by [reverseTransaction]
    and [processPendingTransactions]: each entry's balance row is read,
    credited or debited, and saved before the next entry is looked at.  A
    missing row or a debit that leaves a negative balance throws; the rows
    saved so far are returned with the error.  [what] is the text of the
    insufficient-funds message, the only difference between the two loops. *)
Fixpoint applyEntries (env : Env) (what : string) (entries : list Entry.t)
    (bals : gmap string AccountBalance.t)
  : gmap string AccountBalance.t * option ApiError :=
  match entries with
  | [] => (bals, None)
  | entry :: rest =>
    match bals !! Entry.accountId entry with
    | None =>
        (bals, Some (mkError NotFoundError
                       ("Account balance not found for account ID: " +:+ Entry.accountId entry)
                       NoDetails))
    | Some accountBalance =>
      let currentBalance := AccountBalance.balance accountBalance in
      let entryAmount := Entry.amount entry in
      if bool_decide (Entry.entryType entry = CREDIT) then
        let newBalance := plus currentBalance entryAmount in
        applyEntries env what rest
          (saveBalance env (Entry.accountId entry) accountBalance newBalance bals)
      else
        let newBalance := minus currentBalance entryAmount in
        if isNegative newBalance then
          (bals, Some (mkError InsufficientFundsError what
                         (EntryFundsDetails (Entry.accountId entry) currentBalance entryAmount)))
        else
          applyEntries env what rest
          (saveBalance env (Entry.accountId entry) accountBalance newBalance bals)
    end
  end.

(** The entry with its side flipped. *)
Definition reverseEntry (entry : Entry.t) : Entry.t :=
  Entry.mk (Entry.accountId entry)
    (if bool_decide (Entry.entryType entry = DEBIT) then CREDIT else DEBIT)
    (Entry.amount entry).

(** [Transaction.findOne({ transactionId, status: COMPLETED })]. *)
Definition findCompleted (transactionId : string) (s : State) : option Transaction.t :=
  List.find
    (fun t => bool_decide (Transaction.transactionId t = transactionId)
              && bool_decide (Transaction.status t = COMPLETED))
    (transactions s).

(** [Transaction.findOne({ 'metadata.originalTransactionId': transactionId,
    transactionType: REVERSAL })]: the status is not part of the query. *)
Definition findReversalOf (transactionId : string) (s : State) : option Transaction.t :=
  List.find
    (fun t => bool_decide (Transaction.metadata t !! "originalTransactionId" = Some transactionId)
              && bool_decide (Transaction.transactionType t = REVERSAL))
    (transactions s).

(** The document [reversalTransaction] built by [reverseTransaction]. *)
Definition newReversal (env : Env) (reversalData : ReversalTransactionDTO.t)
    (originalTransaction : Transaction.t) : Transaction.t :=
  let transactionId := generateTransactionId env "REV" in
  let reversedEntries := reverseEntry <$> Transaction.entries originalTransaction in
  newTransaction
    (Transaction.mk transactionId REVERSAL (ReversalTransactionDTO.userId reversalData)
       reversedEntries (Transaction.amount originalTransaction)
       (Transaction.currency originalTransaction)
       (Transaction.toAccount originalTransaction)
       (Transaction.fromAccount originalTransaction)
       PROCESSING
       ("Reversal: " +:+ ReversalTransactionDTO.reason reversalData
        +:+ " (Original: " +:+ Transaction.transactionId originalTransaction +:+ ")")
       (Some (ReversalTransactionDTO.originalTransactionId reversalData))
       (<["reversalReason" := ReversalTransactionDTO.reason reversalData]>
          (<["originalTransactionId" := Transaction.transactionId originalTransaction]>
             (metadataMap (ReversalTransactionDTO.metadata reversalData))))
       None None (now env)).

Definition reverseTransaction (env : Env) (reversalData : ReversalTransactionDTO.t) (s : State)
  : State * Result Transaction.t :=
  match findCompleted (ReversalTransactionDTO.originalTransactionId reversalData) s with
  | None => (s, Err (mkError NotFoundError
                       "Original transaction not found or not in completed state" NoDetails))
  | Some originalTransaction =>
    match findReversalOf (ReversalTransactionDTO.originalTransactionId reversalData) s with
    | Some existingReversal =>
        (s, Err (mkError BadRequestError "Transaction has already been reversed"
                   (ReversalDetails (Transaction.transactionId existingReversal))))
    | None =>
      let reversalTransaction := newReversal env reversalData originalTransaction in
      match insertTransaction reversalTransaction (transactions s) with
      | inl e => (s, Err (rethrow e))
      | inr txs =>
        match applyEntries env "Insufficient funds for reversal"
                (Transaction.entries reversalTransaction) (accountBalances s) with
        | (_, Some e) => (s, Err e)
        | (bals, None) =>
          let reversalTransaction := complete env reversalTransaction in
          (commitTransaction (updateTransaction reversalTransaction txs) bals s,
           Ok reversalTransaction)
        end
      end
    end
  end.

Record SweepResult := mkSweepResult {
  processed : nat;
  failed : nat;
  failedIds : list string;
}.

(** One turn of the loop over [pendingTransactions]; the accumulator holds
    the journal and balances as written so far under the one session, and
    the [processed] and [failed] arrays. *)
Definition processOne (env : Env)
    (acc : list Transaction.t * gmap string AccountBalance.t * list string * list string)
    (transaction : Transaction.t)
  : list Transaction.t * gmap string AccountBalance.t * list string * list string :=
  let '(txs, bals, processed, failed) := acc in
  let transaction := Transaction.set_status PROCESSING transaction in
  let txs := updateTransaction transaction txs in
  match applyEntries env "Insufficient funds for transaction"
          (Transaction.entries transaction) bals with
  | (bals, None) =>
      let transaction := complete env transaction in
      (updateTransaction transaction txs, bals,
       processed ++ [Transaction.transactionId transaction], failed)
  | (bals, Some error) =>
      let transaction :=
        Transaction.set_failureReason (message error)
          (Transaction.set_status FAILED transaction) in
      (updateTransaction transaction txs, bals,
       processed, failed ++ [Transaction.transactionId transaction])
  end.

Definition processPendingTransactions (env : Env) (s : State) : State * SweepResult :=
  let pendingTransactions :=
    filter (fun t => Transaction.status t = PENDING
                     ∧ (Transaction.createdAt t ≤ now env - 60000)%Z)
           (transactions s) in
  let '(txs, bals, processed, failed) :=
    fold_left (processOne env) pendingTransactions
      (transactions s, accountBalances s, [], []) in
  (commitTransaction txs bals s,
   mkSweepResult (length processed) (length failed) failed).

(** ** Statistics *)

Record Stat := mkStat {
  stat_transactionType : TransactionType;   (* _id.transactionType *)
  stat_currency : CurrencyCode;             (* _id.currency *)
  stat_count : Z;
  stat_totalAmount : Decimal;
}.

(** [!x] on a number. *)
Definition num_falsy (x : number) : bool :=
  match x with
  | S754_zero _ | S754_nan => true
  | _ => false
  end.

(** [summary.totalAmountByCurrency] as the [forEach] of
    [calculateTransactionSummary] leaves it, one JavaScript number per
    currency.  The closing loop, which renders each total with
    [new Decimal(total).toFixed(2)], is not part of this definition. *)
Definition totalAmountByCurrency (stats : list Stat) : gmap string number :=
  fold_left
    (fun (totals : gmap string number) stat =>
       let currency := currencyString (stat_currency stat) in
       let current :=
         match totals !! currency with
         | Some x => if num_falsy x then num_zero else x
         | None => num_zero
         end in
       <[currency := num_add current (parseFloat (stat_totalAmount stat))]> totals)
    stats ∅.

(** ** The account-number validator (utils/validators.ts) *)

(** One position of an anchored pattern without repetition operators. *)
Inductive CharClass :=
  | Lit (c : ascii)
  | Class (p : ascii -> bool).

Definition classMatches (k : CharClass) (c : ascii) : bool :=
  match k with
  | Lit c' => bool_decide (c = c')
  | Class p => p c
  end.

(** [/^...$/.test(value)] for a pattern that is a fixed sequence of
    single-character positions. *)
Fixpoint test (pattern : list CharClass) (value : string) : bool :=
  match pattern, value with
  | [], EmptyString => true
  | k :: pattern', String c value' => classMatches k c && test pattern' value'
  | _, _ => false
  end.

Definition inRange (lo hi c : ascii) : bool :=
  (nat_of_ascii lo <=? nat_of_ascii c)%nat && (nat_of_ascii c <=? nat_of_ascii hi)%nat.

(** [[0-9A-Za-z]] *)
Definition alphanumeric (c : ascii) : bool :=
  inRange "0" "9" c || inRange "A" "Z" c || inRange "a" "z" c.

(** [[0-9A-Fa-f]] *)
Definition hexadecimal (c : ascii) : bool :=
  inRange "0" "9" c || inRange "A" "F" c || inRange "a" "f" c.

Definition literal (s : string) : list CharClass :=
  Lit <$> list_ascii_of_string s.

(** [ACCT-g{4}-g{4}-g{4}] for a character class [g]. *)
Definition accountNumberPattern (g : ascii -> bool) : list CharClass :=
  literal "ACCT-" ++ replicate 4 (Class g) ++ literal "-"
  ++ replicate 4 (Class g) ++ literal "-" ++ replicate 4 (Class g).

(** [/^ACCT-[0-9A-Za-z]{4}-[0-9A-Za-z]{4}-[0-9A-Za-z]{4}$/] *)
Definition accountNumberRegex : list CharClass := accountNumberPattern alphanumeric.

Definition validateAccountNumber (value : string) : bool :=
  test accountNumberRegex value.

(** The pattern of the specification,
    [^ACCT-[0-9A-Fa-f]{4}-[0-9A-Fa-f]{4}-[0-9A-Fa-f]{4}$]. *)
Definition specAccountNumberRegex : list CharClass := accountNumberPattern hexadecimal.

(** ** Vocabulary of the specification *)

(** A group of four characters of the class [g]. *)
Definition group (g : ascii -> bool) (v : string) : Prop :=
  String.length v = 4%nat ∧ forallb g (list_ascii_of_string v) = true.

(** The balance held for an account, if it has a row. *)
Definition balanceOf (s : State) (accountId : string) : option Decimal :=
  AccountBalance.balance <$> accountBalances s !! accountId.

(** Exact sum of the amounts entered on one side. *)
Definition sumSide (side : EntryType) (entries : list Entry.t) : Decimal :=
  foldr (fun entry acc =>
           if bool_decide (Entry.entryType entry = side)
           then (Entry.amount entry + acc)%Qc else acc)
        0%Qc entries.

(** T1, double entry. *)
Definition T1 (tx : Transaction.t) : Prop :=
  (2 ≤ length (Transaction.entries tx))%nat.
(** T2, balance. *)
Definition T2 (tx : Transaction.t) : Prop :=
  sumSide DEBIT (Transaction.entries tx) = sumSide CREDIT (Transaction.entries tx).
(** T3, single currency: every entry is on an account of the declared
    currency. *)
Definition T3 (s : State) (tx : Transaction.t) : Prop :=
  ∀ entry, entry ∈ Transaction.entries tx →
    ∃ a, a ∈ accounts s ∧ Account._id a = Entry.accountId entry
         ∧ Account.currency a = Transaction.currency tx.
(** T4, declared amount. *)
Definition T4 (tx : Transaction.t) : Prop :=
  Transaction.amount tx = sumSide DEBIT (Transaction.entries tx)
  ∧ Transaction.amount tx = sumSide CREDIT (Transaction.entries tx).

(** The transaction with another declared amount and currency. *)
Definition redeclare (amount : Decimal) (currency : CurrencyCode) (x : Transaction.t)
  : Transaction.t :=
  Transaction.mk (Transaction.transactionId x) (Transaction.transactionType x)
    (Transaction.userId x) (Transaction.entries x) amount currency
    (Transaction.fromAccount x) (Transaction.toAccount x) (Transaction.status x)
    (Transaction.description x) (Transaction.reference x) (Transaction.metadata x)
    (Transaction.failureReason x) (Transaction.processedAt x) (Transaction.createdAt x).

Definition accepted {E A} (r : E + A) : bool :=
  match r with inr _ => true | inl _ => false end.

(** [m] times [10^k]. *)
Definition timesPow10 (m k : Z) : Decimal :=
  Q2Qc (m * pow10 k # Z.to_pos (pow10 (- k))).

(** The decimal has at most 20 significant digits, the precision of
    decimal.js. *)
Definition withinPrecision (x : Decimal) : Prop :=
  ∃ m k, (Z.abs m < 10 ^ precision)%Z ∧ x = timesPow10 m k.

(** The balance an entry leaves on an account that held [b]. *)
Definition posted (entry : Entry.t) (b : Decimal) : Decimal :=
  if bool_decide (Entry.entryType entry = CREDIT)
  then plus b (Entry.amount entry) else minus b (Entry.amount entry).

(** The amount of an entry, counted positive for a credit and negative for
    a debit. *)
Definition signed (entry : Entry.t) : Decimal :=
  if bool_decide (Entry.entryType entry = CREDIT)
  then Entry.amount entry else (- Entry.amount entry)%Qc.

(** Entered on the balances [bals], no entry of the list loses anything to
    rounding: the sum or difference it makes has at most 20 significant
    digits. *)
Definition entersExactly (bals : gmap string AccountBalance.t) (entries : list Entry.t)
  : Prop :=
  ∀ entry row, entry ∈ entries →
    bals !! Entry.accountId entry = Some row →
    withinPrecision (AccountBalance.balance row + signed entry)%Qc.

(** The entry of the list on an account, the first if several are. *)
Definition entryOn (entries : list Entry.t) (accountId : string) : option Entry.t :=
  List.find (fun entry => bool_decide (Entry.accountId entry = accountId)) entries.

(** The balance the entries leave on an account that held [b], entered one
    after the other, every sum and difference rounded to the precision. *)
Definition postedAll (entries : list Entry.t) (accountId : string) (b : Decimal) : Decimal :=
  fold_left (fun b entry =>
               if bool_decide (Entry.accountId entry = accountId) then posted entry b else b)
            entries b.

(** What the entries add up to on one account. *)
Definition delta (entries : list Entry.t) (accountId : string) : Decimal :=
  foldr (fun entry acc =>
           if bool_decide (Entry.accountId entry = accountId)
           then (signed entry + acc)%Qc else acc)
        0%Qc entries.

(** Entered one after the other on the balances [bals], the entries reach
    a debit that leaves the balance of its account negative, the accounts in
    [exempt] not counted. *)
Inductive drivesNegative (exempt : string -> bool)
  : gmap string Decimal -> list Entry.t -> Prop :=
  | drives_here bals entry rest b :
      Entry.entryType entry = DEBIT ->
      bals !! Entry.accountId entry = Some b ->
      exempt (Entry.accountId entry) = false ->
      (minus b (Entry.amount entry) < 0)%Qc ->
      drivesNegative exempt bals (entry :: rest)
  | drives_later bals entry rest b :
      bals !! Entry.accountId entry = Some b ->
      drivesNegative exempt (<[Entry.accountId entry := posted entry b]> bals) rest ->
      drivesNegative exempt bals (entry :: rest).

(** The account is of type SYSTEM. *)
Definition isSystemAccount (s : State) (accountId : string) : bool :=
  existsb (fun a => bool_decide (Account._id a = accountId)
                    && bool_decide (Account.accountType a = AccountType.SYSTEM))
          (accounts s).

Definition noExemption (accountId : string) : bool := false.

(** The four operations that post a transaction directly. *)
Inductive Operation :=
  | Deposit (depositData : DepositTransactionDTO.t)
  | Withdrawal (withdrawalData : WithdrawalTransactionDTO.t)
  | Transfer (transferData : TransferTransactionDTO.t)
  | Fee (feeData : FeeTransactionDTO.t).

Definition perform (env : Env) (op : Operation) (s : State) : State * Result Transaction.t :=
  match op with
  | Deposit d => createDeposit env d s
  | Withdrawal d => createWithdrawal env d s
  | Transfer d => createTransfer env d s
  | Fee d => createFee env d s
  end.

(** Sum of all balances, customer and system accounts alike. *)
Definition total (bals : gmap string AccountBalance.t) : Decimal :=
  map_fold (fun _ row acc => (AccountBalance.balance row + acc)%Qc) 0%Qc bals.
Definition totalBalance (s : State) : Decimal := total (accountBalances s).

(** The preconditions of a transfer. *)
Definition transferPreconditions (transferData : TransferTransactionDTO.t) (s : State) : Prop :=
  TransferTransactionDTO.fromAccountNumber transferData
    ≠ TransferTransactionDTO.toAccountNumber transferData
  ∧ ∃ sourceAccount destinationAccount sourceBalance,
      findActiveAccount (TransferTransactionDTO.fromAccountNumber transferData) s
        = Some sourceAccount
      ∧ findActiveAccount (TransferTransactionDTO.toAccountNumber transferData) s
        = Some destinationAccount
      ∧ Account.currency sourceAccount = TransferTransactionDTO.currency transferData
      ∧ Account.currency destinationAccount = TransferTransactionDTO.currency transferData
      ∧ Account.userId sourceAccount = TransferTransactionDTO.userId transferData
      ∧ accountBalances s !! Account._id sourceAccount = Some sourceBalance
      ∧ (TransferTransactionDTO.amount transferData ≤ AccountBalance.balance sourceBalance)%Qc.

(** What a successful call of [getSystemAccount] leaves behind. *)
Record systemAccountReady (env : Env) (accountType : string) (currency : CurrencyCode)
    (s s1 : State) (id : string) : Prop := {
  ready_transactions : transactions s1 = transactions s;
  ready_cached :
    systemAccounts s1 !! (accountType +:+ "_" +:+ currencyString currency) = Some id;
  ready_balances :
    accountBalances s1 = accountBalances s
    ∨ (accountBalances s !! id = None
       ∧ id = objectId env
       ∧ accountBalances s1
         = <[id := AccountBalance.mk currency 0%Qc (now env)]> (accountBalances s));
}.

(** What an operation that enters only its first entry [e1] leaves: the row
    of [e1] moved by that entry, the row of [e2] untouched or newly created
    at zero. *)
Definition oneSided (s s1 : State) (e1 e2 : Entry.t) : Prop :=
  ∃ row1 bals,
    accountBalances s !! Entry.accountId e1 = Some row1
    ∧ (bals = accountBalances s
       ∨ (accountBalances s !! Entry.accountId e2 = None
          ∧ ∃ currency now,
              bals = <[Entry.accountId e2 := AccountBalance.mk currency 0%Qc now]>
                       (accountBalances s)))
    ∧ ∃ row1', AccountBalance.balance row1' = posted e1 (AccountBalance.balance row1)
               ∧ accountBalances s1 = <[Entry.accountId e1 := row1']> bals.

(** What an operation that enters both entries leaves: both rows moved. *)
Definition twoSided (s s1 : State) (e1 e2 : Entry.t) : Prop :=
  ∃ row1 row2 row1' row2',
    accountBalances s !! Entry.accountId e1 = Some row1
    ∧ accountBalances s !! Entry.accountId e2 = Some row2
    ∧ AccountBalance.balance row1' = posted e1 (AccountBalance.balance row1)
    ∧ AccountBalance.balance row2' = posted e2 (AccountBalance.balance row2)
    ∧ accountBalances s1
      = <[Entry.accountId e2 := row2']> (<[Entry.accountId e1 := row1']> (accountBalances s)).

(** The invariants of the account and balance collections: object ids are
    unique, and every account has its balance row (balance is 1:1 with
    account). *)
Definition wellFormed (s : State) : Prop :=
  NoDup (Account._id <$> accounts s)
  ∧ ∀ a, a ∈ accounts s → is_Some (accountBalances s !! Account._id a).

(** The invariants that the service keeps beyond those: balance rows
    exist for accounts only, and every cached system account is an account of
    type SYSTEM. *)
Definition consistent (s : State) : Prop :=
  wellFormed s
  ∧ (∀ id, is_Some (accountBalances s !! id) → id ∈ (Account._id <$> accounts s))
  ∧ (∀ key id, systemAccounts s !! key = Some id →
       ∃ a, a ∈ accounts s ∧ Account._id a = id
            ∧ Account.accountType a = AccountType.SYSTEM).

(** The account number a direct operation is asked to act on (the source,
    for a transfer). *)
Definition requestedAccountNumber (op : Operation) : string :=
  match op with
  | Deposit d => DepositTransactionDTO.accountNumber d
  | Withdrawal d => WithdrawalTransactionDTO.accountNumber d
  | Transfer d => TransferTransactionDTO.fromAccountNumber d
  | Fee d => FeeTransactionDTO.accountNumber d
  end.

(** One call of an operation of the service, whatever its outcome. *)
Inductive Step : State -> State -> Prop :=
  | step_perform env op s : Step s (fst (perform env op s))
  | step_reverse env reversalData s : Step s (fst (reverseTransaction env reversalData s))
  | step_sweep env s : Step s (fst (processPendingTransactions env s)).

(** Two versions of one journal record: same transaction id, type and
    metadata. *)
Definition sameRecord (t t' : Transaction.t) : Prop :=
  Transaction.transactionId t' = Transaction.transactionId t
  ∧ Transaction.transactionType t' = Transaction.transactionType t
  ∧ Transaction.metadata t' = Transaction.metadata t.

(** The journal holds a reversal, of whatever status, of the transaction
    [transactionId]. *)
Definition reversalOnRecord (transactionId : string) (s : State) : Prop :=
  ∃ existing, existing ∈ transactions s
    ∧ Transaction.transactionType existing = REVERSAL
    ∧ Transaction.metadata existing !! "originalTransactionId" = Some transactionId.

(** Transaction ids are unique in the journal. *)
Definition uniqueTransactionIds (s : State) : Prop :=
  NoDup (Transaction.transactionId <$> transactions s).

(** The identifiers minted in [env] collide with nothing stored in [s]. *)
Definition freshIn (env : Env) (prefix : string) (s : State) : Prop :=
  (generateTransactionId env prefix ∉ (Transaction.transactionId <$> transactions s))
  ∧ (generateTransactionId env "SYS" ∉ (Account.accountNumber <$> accounts s))
  ∧ (objectId env ∉ (Account._id <$> accounts s))
  ∧ accountBalances s !! objectId env = None.

(** ** Sample data *)

Module Sample.

Definition alice : Account.t :=
  Account.mk "65f000000000000000000a11" "65f0000000000000000000a1"
    "ACCT-0000-0000-000A" AccountType.SAVINGS USD true ∅.
Definition bob : Account.t :=
  Account.mk "65f000000000000000000b11" "65f0000000000000000000b1"
    "ACCT-0000-0000-000B" AccountType.SAVINGS USD true ∅.
Definition eve : Account.t :=
  Account.mk "65f000000000000000000e11" "65f0000000000000000000e1"
    "ACCT-0000-0000-000E" AccountType.SAVINGS EUR true ∅.

(** Alice holds 100, Bob 30, Eve 0; nothing in the journal. *)
Definition ledger : State :=
  mkState [alice; bob; eve]
    (<[Account._id alice := AccountBalance.mk USD (dec 100 1) 0]>
       (<[Account._id bob := AccountBalance.mk USD (dec 30 1) 0]>
          (<[Account._id eve := AccountBalance.mk EUR (dec 0 1) 0]> ∅)))
    [] ∅.

Definition env1 : Env :=
  mkEnv "LQ1Z5K00" (fun prefix => "0A1B2C3D") "65f000000000000000000511" 1700000000000
    "2023-11-14T22:13:20.000Z".
Definition env2 : Env :=
  mkEnv "LQ1Z5K99" (fun prefix => "4E5F6A7B") "65f000000000000000000522" 1700000100000
    "2023-11-14T22:15:00.000Z".
Definition env3 : Env :=
  mkEnv "LQ1Z5KZZ" (fun prefix => "8C9D0E1F") "65f000000000000000000533" 1700000200000
    "2023-11-14T22:16:40.000Z".

Definition deposit50 : DepositTransactionDTO.t :=
  DepositTransactionDTO.mk (Account.userId alice) (Account.accountNumber alice)
    (dec 50 1) USD None None None.
Definition withdraw30 : WithdrawalTransactionDTO.t :=
  WithdrawalTransactionDTO.mk (Account.userId alice) (Account.accountNumber alice)
    (dec 30 1) USD None None None.
Definition withdraw100 : WithdrawalTransactionDTO.t :=
  WithdrawalTransactionDTO.mk (Account.userId alice) (Account.accountNumber alice)
    (dec 100 1) USD None None None.
Definition withdraw175 : WithdrawalTransactionDTO.t :=
  WithdrawalTransactionDTO.mk (Account.userId alice) (Account.accountNumber alice)
    (dec 175 1) USD None None None.
Definition transfer40 : TransferTransactionDTO.t :=
  TransferTransactionDTO.mk (Account.userId alice) (Account.accountNumber alice)
    (Account.accountNumber bob) (dec 40 1) USD None None None.

Definition reversalOf (transactionId : string) : ReversalTransactionDTO.t :=
  ReversalTransactionDTO.mk "65f0000000000000000000ad" transactionId "customer dispute" None.

(** The ledger after Alice deposited 50, the deposit's id, and the ledger
    after that deposit was reversed. *)
Definition afterDeposit : State := fst (createDeposit env1 deposit50 ledger).
Definition depositId : string := generateTransactionId env1 "DEP".
Definition afterDepositReversal : State :=
  fst (reverseTransaction env2 (reversalOf depositId) afterDeposit).

(** The ledger after Alice withdrew 30, and the withdrawal's id. *)
Definition afterWithdrawal : State := fst (createWithdrawal env1 withdraw30 ledger).
Definition withdrawalId : string := generateTransactionId env1 "WDR".

(** A deferred transfer of 100 from Bob, who holds 30, to Alice, created
    well over a minute before [env1]'s clock. *)
Definition deferred : Transaction.t :=
  Transaction.mk "TRF-LQ1Z0000-AAAA0001" TRANSFER (Account.userId bob)
    [ Entry.mk (Account._id alice) CREDIT (dec 100 1);
      Entry.mk (Account._id bob) DEBIT (dec 100 1) ]
    (dec 100 1) USD None None
    PENDING "Deferred transfer" None ∅ None None 1699999000000.

(** A deferred transfer of 5 from Bob to Alice, older still. *)
Definition deferredSmall : Transaction.t :=
  Transaction.mk "TRF-LQ1Z0000-AAAA0000" TRANSFER (Account.userId bob)
    [ Entry.mk (Account._id bob) DEBIT (dec 5 1);
      Entry.mk (Account._id alice) CREDIT (dec 5 1) ]
    (dec 5 1) USD None None
    PENDING "Deferred transfer" None ∅ None None 1699998000000.

Definition ledgerWithDeferred : State :=
  set_transactions [deferredSmall; deferred] ledger.
Definition afterSweep : State := fst (processPendingTransactions env1 ledgerWithDeferred).

(** Declared as 999 USD; enters 5 on Alice (USD) against 5 on Eve (EUR). *)
Definition misdeclared : Transaction.t :=
  Transaction.mk "ADJ-LQ1Z0000-BBBB0001" ADJUSTMENT (Account.userId alice)
    [ Entry.mk (Account._id alice) DEBIT (dec 5 1);
      Entry.mk (Account._id eve) CREDIT (dec 5 1) ]
    (dec 999 1) USD None None PROCESSING "" None ∅ None None 1700000000000.

(** 0.30 debited against credits of 0.10 and 0.20. *)
Definition threeTenths : list Entry.t :=
  [ Entry.mk (Account._id alice) DEBIT (dec 3 10);
    Entry.mk (Account._id bob) CREDIT (dec 1 10);
    Entry.mk (Account._id eve) CREDIT (dec 2 10) ].

(** 9007199254740993 debited against 9007199254740992 credited. *)
Definition offByOne : list Entry.t :=
  [ Entry.mk (Account._id alice) DEBIT (dec 9007199254740993 1);
    Entry.mk (Account._id bob) CREDIT (dec 9007199254740992 1) ].

(** A FAILED reversal of [original] left in the journal. *)
Definition failedReversal (original : string) : Transaction.t :=
  Transaction.mk "REV-LQ1Z0000-CCCC0001" REVERSAL "65f0000000000000000000ad"
    [ Entry.mk (Account._id alice) DEBIT (dec 5 1);
      Entry.mk (Account._id bob) CREDIT (dec 5 1) ]
    (dec 5 1) USD None None FAILED "Reversal" None
    (<["originalTransactionId" := original]> ∅)
    (Some "Insufficient funds for transaction") None 1700000000000.

(** A ledger of large balances: Alice holds 10^20, as [createAccount]
    stores it for an initial balance of 1e20, Bob 10^20 - 1, as a withdrawal
    of 1 leaves such an account; Eve holds 0. *)
Definition vault : State :=
  mkState [alice; bob; eve]
    (<[Account._id alice := AccountBalance.mk USD (dec 100000000000000000000 1) 0]>
       (<[Account._id bob := AccountBalance.mk USD (dec 99999999999999999999 1) 0]>
          (<[Account._id eve := AccountBalance.mk EUR (dec 0 1) 0]> ∅)))
    [] ∅.

(** Alice withdraws 0.01, Alice sends 0.01 to Bob, Bob deposits 0.50. *)
Definition withdrawCent : WithdrawalTransactionDTO.t :=
  WithdrawalTransactionDTO.mk (Account.userId alice) (Account.accountNumber alice)
    (dec 1 100) USD None None None.
Definition transferCent : TransferTransactionDTO.t :=
  TransferTransactionDTO.mk (Account.userId alice) (Account.accountNumber alice)
    (Account.accountNumber bob) (dec 1 100) USD None None None.
Definition depositHalf : DepositTransactionDTO.t :=
  DepositTransactionDTO.mk (Account.userId bob) (Account.accountNumber bob)
    (dec 1 2) USD None None None.

(** A deposit of 50 under the account number of the DEPOSITS system account
    that [env1] created. *)
Definition depositToSystem : DepositTransactionDTO.t :=
  DepositTransactionDTO.mk (Account.userId alice) (generateTransactionId env1 "SYS")
    (dec 50 1) USD None None None.

(** The ledger after Alice's withdrawal, with a FAILED reversal of it on
    record. *)
Definition ledgerWithFailedReversal : State :=
  set_transactions (transactions afterWithdrawal ++ [failedReversal withdrawalId])
    afterWithdrawal.

End Sample.

(** ** Lookups of the service (TransactionService, read side)

    As the ledger operations above are modelled up to the document they
    hand to [mapTransactionToDTO], so are the lookups. *)

(** [getTransactionByTransactionId]: [Transaction.findOne({ transactionId })],
    or the not-found error. *)
Definition getTransactionByTransactionId (transactionId : string) (s : State)
  : Result Transaction.t :=
  match List.find (fun t => bool_decide (Transaction.transactionId t = transactionId))
          (transactions s) with
  | Some transaction => Ok transaction
  | None => Err (mkError NotFoundError "Transaction not found" NoDetails)
  end.

(** ** More statistics *)

(** The string value of a transaction type, the key of [countByType]. *)
Definition transactionTypeString (ty : TransactionType) : string :=
  match ty with
  | DEPOSIT => "DEPOSIT" | WITHDRAWAL => "WITHDRAWAL" | TRANSFER => "TRANSFER"
  | PAYMENT => "PAYMENT" | FEE => "FEE" | INTEREST => "INTEREST"
  | ADJUSTMENT => "ADJUSTMENT" | REVERSAL => "REVERSAL" | REFUND => "REFUND"
  end.

(** [summary.totalCount] and [summary.countByType] as the [forEach] of
    [calculateTransactionSummary] leaves them.  The counts are whole numbers
    far below 2^53, on which the addition of JavaScript numbers is exact. *)
Definition totalCount (stats : list Stat) : Z :=
  fold_left (fun count stat => (count + stat_count stat)%Z) stats 0%Z.

Definition countByType (stats : list Stat) : gmap string Z :=
  fold_left
    (fun (counts : gmap string Z) stat =>
       let transactionType := transactionTypeString (stat_transactionType stat) in
       <[transactionType := (default 0 (counts !! transactionType) + stat_count stat)%Z]>
         counts)
    stats ∅.

(** [direction], as the [$cond] of the account pipeline sets it. *)
Inductive Direction := INCOMING | OUTGOING.

#[global] Instance Direction_eq_dec : EqDecision Direction.
Proof. solve_decision. Defined.

(** One group of [getAccountTransactionStats]. *)
Record AccountStat := mkAccountStat {
  astat_transactionType : TransactionType;  (* _id.transactionType *)
  astat_direction : Direction;              (* _id.direction *)
  astat_currency : CurrencyCode;            (* _id.currency *)
  astat_count : Z;
  astat_totalAmount : Decimal;
  astat_avgAmount : Decimal;
}.

(** [incomingTotals] and [outgoingTotals] as the [forEach] of
    [calculateNetFlow] leaves them. *)
Definition flowTotals (stats : list AccountStat)
  : gmap string Decimal * gmap string Decimal :=
  fold_left
    (fun (totals : gmap string Decimal * gmap string Decimal) stat =>
       let '(incomingTotals, outgoingTotals) := totals in
       let currency := currencyString (astat_currency stat) in
       let amount := astat_totalAmount stat in
       if bool_decide (astat_direction stat = INCOMING)
       then (<[currency := plus (default 0%Qc (incomingTotals !! currency)) amount]>
               incomingTotals,
             outgoingTotals)
       else (incomingTotals,
             <[currency := plus (default 0%Qc (outgoingTotals !! currency)) amount]>
               outgoingTotals))
    stats (∅, ∅).

(** [x.toFixed(dp)], as the decimal that the string denotes: the decimal
    of [dp] places nearest to [x], and of the two nearest ones the one away
    from zero (decimal.js rounds half up unless configured otherwise, and the
    service does not configure it). *)
Definition toFixed (dp : nat) (x : Decimal) : Decimal :=
  let scale := (10 ^ Z.of_nat dp)%Z in
  let numerator := Qnum (this x) in
  let denominator := Zpos (Qden (this x)) in
  let units := ((2 * Z.abs numerator * scale + denominator) / (2 * denominator))%Z in
  dec (Z.sgn numerator * units) (Z.to_pos scale).

(** [calculateNetFlow]: for every currency that has an incoming or an
    outgoing total, the incoming total (or zero) less the outgoing total (or
    zero), to two places. *)
Definition calculateNetFlow (stats : list AccountStat) : gmap string Decimal :=
  let '(incomingTotals, outgoingTotals) := flowTotals stats in
  merge
    (fun incoming outgoing =>
       match incoming, outgoing with
       | None, None => None
       | _, _ => Some (toFixed 2 (minus (default 0%Qc incoming) (default 0%Qc outgoing)))
       end)
    incomingTotals outgoingTotals.

(** ** Identifiers (utils/crypto.ts)

    A [Buffer] is a list of bytes; [crypto.randomBytes(n)] is a buffer of
    [n] bytes that the caller is handed. *)

(** The digits of [Buffer.toString('hex')] and of [Number.toString(36)]. *)
Definition digits : list ascii :=
  list_ascii_of_string "0123456789abcdefghijklmnopqrstuvwxyz".

Definition digit (n : N) : ascii := default "0"%char (digits !! N.to_nat n).

(** [buffer.toString('hex')]: two lower-case digits for every byte. *)
Definition toHex (buffer : list Byte.byte) : string :=
  foldr (fun b rest =>
           String (digit (Byte.to_N b / 16)) (String (digit (Byte.to_N b mod 16)) rest))
        "" buffer.

(** [toUpperCase] of one character, on digits and ASCII letters. *)
Definition upper (c : ascii) : ascii :=
  if inRange "a" "z" c then ascii_of_nat (nat_of_ascii c - 32) else c.

(** [s.toUpperCase()], for the strings of digits it is used on in this
    module. *)
Fixpoint toUpperCase (s : string) : string :=
  match s with
  | EmptyString => EmptyString
  | String c rest => String (upper c) (toUpperCase rest)
  end.

(** [s.slice(start, stop)] for [0 <= start <= stop]. *)
Definition slice (start stop : nat) (s : string) : string :=
  substring start (stop - start) s.

(** [generateAccountNumber], with [randomBytes] for [crypto.randomBytes(6)]. *)
Definition generateAccountNumber (randomBytes : list Byte.byte) : string :=
  let randomPart := toUpperCase (toHex randomBytes) in
  "ACCT-" +:+ slice 0 4 randomPart +:+ "-" +:+ slice 4 8 randomPart
  +:+ "-" +:+ slice 8 12 randomPart.

(** The digits of a natural number in base 36, least significant first.
    [fuel] bounds their number. *)
Fixpoint digits36 (fuel : nat) (n : N) : list N :=
  match fuel with
  | O => []
  | S fuel =>
      (n mod 36)%N :: (if (n / 36 =? 0)%N then [] else digits36 fuel (n / 36)%N)
  end.

(** [n.toString(36)] for a whole number [n >= 0], such as [Date.now()]. *)
Definition toString36 (n : N) : string :=
  string_of_list_ascii (digit <$> reverse (digits36 (N.to_nat (N.size n) `max` 1) n)).

(** The [timestamp] and [random] parts of a transaction id minted when the
    clock reads [ms] and [crypto.randomBytes(4)] returns [randomBytes]. *)
Definition timestampAt (ms : N) : string := toUpperCase (toString36 ms).
Definition randomOf (randomBytes : list Byte.byte) : string :=
  toUpperCase (toHex randomBytes).

(** [s.split(separator)] for a separator of one character. *)
Fixpoint split (separator : ascii) (s : string) : list string :=
  match s with
  | EmptyString => [EmptyString]
  | String c rest =>
      if bool_decide (c = separator) then EmptyString :: split separator rest
      else match split separator rest with
           | part :: parts => String c part :: parts
           | [] => [String c EmptyString]
           end
  end.

(** [hashPassword], with [saltBytes] for [crypto.randomBytes(16)] and
    [scrypt password salt keylen] for the key that [crypto.scrypt] derives. *)
Definition hashPassword (scrypt : string -> string -> nat -> list Byte.byte)
    (saltBytes : list Byte.byte) (password : string) : string :=
  let salt := toHex saltBytes in
  let derivedKey := scrypt password salt 64%nat in
  salt +:+ ":" +:+ toHex derivedKey.

(** [verifyPassword]: [const [salt, key] = hash.split(':')], where [key]
    is [undefined], and equal to no string, when [hash] holds no colon. *)
Definition verifyPassword (scrypt : string -> string -> nat -> list Byte.byte)
    (password hash : string) : bool :=
  match split ":" hash with
  | salt :: parts =>
      let derivedKey := scrypt password salt 64%nat in
      match parts with
      | key :: _ => bool_decide (key = toHex derivedKey)
      | [] => false
      end
  | [] => false
  end.

(** ** More validators (utils/validators.ts) *)

(** [\d] *)
Definition decimalDigit (c : ascii) : bool := inRange "0" "9" c.

(** [/^ACCT-\d{4}-\d{4}-\d{4}$/], the pattern of
    [financialSchemas.accountNumber] and of the deposit, withdrawal and
    transfer schemas. *)
Definition financialAccountNumberRegex : list CharClass :=
  accountNumberPattern decimalDigit.

(** [x.decimalPlaces()]: the number of digits after the decimal point, that
    is the least [k] for which [x * 10^k] is whole, or for which the
    denominator of [x] in lowest terms divides [10^k].  The search starts at
    [k] and gives up after [fuel] steps; a decimal has fewer decimal places
    than its denominator has binary digits. *)
Fixpoint decimalPlaces_from (fuel k : nat) (denominator : positive) : nat :=
  match fuel with
  | O => k
  | S fuel =>
      if (10 ^ Z.of_nat k mod Zpos denominator =? 0)%Z then k
      else decimalPlaces_from fuel (S k) denominator
  end.

Definition decimalPlaces (x : Decimal) : nat :=
  decimalPlaces_from (Pos.size_nat (Qden x) + 2) 0 (Qden x).

(** [validateAmount].  [value] is the decimal that [new Decimal(value)]
    denotes; [None] stands for [undefined], [null] and for a value that
    [new Decimal] rejects. *)
Definition validateAmount (value : option Decimal) : bool :=
  match value with
  | None => false
  | Some amount =>
      if isNegative amount || bool_decide (amount = 0%Qc) then false
      else if bool_decide (2 < decimalPlaces amount)%nat then false
      else if bool_decide (dec 100000000000 1 < amount)%Qc then false
      else true
  end.

(** ** Error codes (utils/errors.ts) *)

(** [toLowerCase] of one character of the Latin-1 range. *)
Definition lower (c : ascii) : ascii :=
  if inRange "A" "Z" c
     || (inRange (ascii_of_nat 192) (ascii_of_nat 222) c
         && negb (bool_decide (c = ascii_of_nat 215)))
  then ascii_of_nat (nat_of_ascii c + 32) else c.

Fixpoint toLowerCase (s : string) : string :=
  match s with
  | EmptyString => EmptyString
  | String c rest => String (lower c) (toLowerCase rest)
  end.

(** [[a-z0-9]] *)
Definition slugCharacter (c : ascii) : bool :=
  inRange "a" "z" c || inRange "0" "9" c.

(** [s.replace(/[^a-z0-9]+/g, '_')]: every maximal run of characters
    outside [[a-z0-9]] becomes one underscore.  [inRun] tells that the
    character before was part of such a run. *)
Fixpoint replaceRuns (inRun : bool) (s : string) : string :=
  match s with
  | EmptyString => EmptyString
  | String c rest =>
      if slugCharacter c then String c (replaceRuns false rest)
      else if inRun then replaceRuns true rest
      else String "_" (replaceRuns true rest)
  end.

(** The [slug] of [ApiError.generateErrorCode]. *)
Definition slugOf (message : string) : string :=
  substring 0 20 (replaceRuns false (toLowerCase message)).

(** [ApiError.generateErrorCode], for a whole status code. *)
Definition generateErrorCode (statusCode : Z) (message : string) : string :=
  let prefix := pretty statusCode in
  let slug := slugOf message in
  "ERR_" +:+ prefix +:+ "_" +:+ slug.

(** The [code] of a new [ApiError]: [code || this.generateErrorCode(...)]. *)
Definition errorCode (statusCode : Z) (message : string) (code : option string) : string :=
  orElse code (generateErrorCode statusCode message).

(** ** AccountService (the service layer, accounts)

    As the ledger operations, the operations on accounts are modelled up to
    the documents that they hand to [mapAccountToResponseDTO].  Their errors
    are the objects that the classes of utils/errors.ts build, the [details]
    apart.  Identifiers are the strings of 24 hexadecimal digits that cast to
    an [ObjectId], the values of the enumerations are those of their types,
    and amounts are finite decimals. *)

Module HttpError.
Record t := mk {
  statusCode : Z;
  message : string;
  code : string;
  isOperational : bool;
}.
End HttpError.

(** [new ApiError(statusCode, message, details, code, isOperational)] *)
Definition newApiError (statusCode : Z) (message : string) (code : option string)
    (isOperational : bool) : HttpError.t :=
  HttpError.mk statusCode message (errorCode statusCode message code) isOperational.

Module Errors.
Definition NotFoundError (message : string) : HttpError.t :=
  newApiError 404 message (Some "ERR_NOT_FOUND") true.
Definition BadRequestError (message : string) : HttpError.t :=
  newApiError 400 message (Some "ERR_BAD_REQUEST") true.
Definition ConflictError (message : string) : HttpError.t :=
  newApiError 409 message (Some "ERR_CONFLICT") true.
End Errors.

Module IAccountCreate.
Record t := mk {
  userId : string;
  accountType : AccountType.t;
  currency : CurrencyCode;
  initialBalance : option Decimal;
  metadata : option (gmap string string);
}.
End IAccountCreate.

Module IAccountUpdate.
Record t := mk {
  accountType : option AccountType.t;
  isActive : option bool;
  metadata : option (gmap string string);
}.
End IAccountUpdate.

(** What [createAccount] makes of an error of [save]. *)
Definition rethrowAccount (e : SaveError) : HttpError.t :=
  match e with
  | ValidationError _ => Errors.BadRequestError "Invalid account data"
  | DuplicateKey _ => Errors.ConflictError "Account with this number already exists"
  end.

(** [createAccount], with [randomBytes] for the [crypto.randomBytes(6)] of
    [generateAccountNumber].  The account and its balance row are saved under
    one session: both are kept, or neither. *)
Definition createAccount (env : Env) (randomBytes : list Byte.byte)
    (accountData : IAccountCreate.t) (s : State)
  : State * (HttpError.t + Account.t * AccountBalance.t) :=
  let accountNumber := generateAccountNumber randomBytes in
  let account :=
    Account.mk (objectId env) (IAccountCreate.userId accountData) accountNumber
      (IAccountCreate.accountType accountData) (IAccountCreate.currency accountData)
      true (metadataMap (IAccountCreate.metadata accountData)) in
  match insertAccount account (accounts s) with
  | inl e => (s, inl (rethrowAccount e))
  | inr accs =>
    let initialBalance := default 0%Qc (IAccountCreate.initialBalance accountData) in
    let accountBalance :=
      AccountBalance.mk (IAccountCreate.currency accountData) initialBalance (now env) in
    match insertBalance (Account._id account) accountBalance (accountBalances s) with
    | inl e => (s, inl (rethrowAccount e))
    | inr bals => (set_accountBalances bals (set_accounts accs s), inr (account, accountBalance))
    end
  end.

(** [Account.findById(accountId)] *)
Definition findAccountById (accountId : string) (s : State) : option Account.t :=
  List.find (fun a => bool_decide (Account._id a = accountId)) (accounts s).

Definition getAccountById (accountId : string) (s : State)
  : HttpError.t + Account.t * AccountBalance.t :=
  match findAccountById accountId s with
  | None => inl (Errors.NotFoundError "Account not found")
  | Some account =>
    match accountBalances s !! Account._id account with
    | None => inl (Errors.NotFoundError "Account balance not found")
    | Some accountBalance => inr (account, accountBalance)
    end
  end.

(** [getAccountByNumber]: the account is looked up whether it is active or
    not. *)
Definition getAccountByNumber (accountNumber : string) (s : State)
  : HttpError.t + Account.t * AccountBalance.t :=
  match List.find (fun a => bool_decide (Account.accountNumber a = accountNumber))
          (accounts s) with
  | None => inl (Errors.NotFoundError "Account not found")
  | Some account =>
    match accountBalances s !! Account._id account with
    | None => inl (Errors.NotFoundError "Account balance not found")
    | Some accountBalance => inr (account, accountBalance)
    end
  end.

(** [save] of an account document that is already stored. *)
Definition saveAccount (account : Account.t) (accs : list Account.t) : list Account.t :=
  (fun a => if bool_decide (Account._id a = Account._id account) then account else a)
    <$> accs.

(** [updateAccount]: the account is saved before its balance row is looked
    up. *)
Definition updateAccount (accountId : string) (updateData : IAccountUpdate.t) (s : State)
  : State * (HttpError.t + Account.t * AccountBalance.t) :=
  match findAccountById accountId s with
  | None => (s, inl (Errors.NotFoundError "Account not found"))
  | Some account =>
    let account :=
      Account.mk (Account._id account) (Account.userId account)
        (Account.accountNumber account)
        (default (Account.accountType account) (IAccountUpdate.accountType updateData))
        (Account.currency account)
        (default (Account.isActive account) (IAccountUpdate.isActive updateData))
        (match IAccountUpdate.metadata updateData with
         | Some metadata => metadata ∪ Account.metadata account
         | None => Account.metadata account
         end) in
    let s1 := set_accounts (saveAccount account (accounts s)) s in
    match accountBalances s1 !! Account._id account with
    | None => (s1, inl (Errors.NotFoundError "Account balance not found"))
    | Some accountBalance => (s1, inr (account, accountBalance))
    end
  end.

(** [updateBalance]: the row is saved before the account is looked up. *)
Definition updateBalance (env : Env) (accountId : string) (amount : Decimal) (s : State)
  : State * (HttpError.t + Account.t * AccountBalance.t) :=
  match accountBalances s !! accountId with
  | None => (s, inl (Errors.NotFoundError "Account balance not found"))
  | Some accountBalance =>
    let s1 :=
      set_accountBalances
        (saveBalance env accountId accountBalance amount (accountBalances s)) s in
    match findAccountById accountId s1 with
    | None => (s1, inl (Errors.NotFoundError "Account not found"))
    | Some account =>
        (s1, inr (account,
                  AccountBalance.mk (AccountBalance.currency accountBalance) amount (now env)))
    end
  end.

(** ** More vocabulary *)

(** The amount a direct operation is asked to move. *)
Definition requestedAmount (op : Operation) : Decimal :=
  match op with
  | Deposit d => DepositTransactionDTO.amount d
  | Withdrawal d => WithdrawalTransactionDTO.amount d
  | Transfer d => TransferTransactionDTO.amount d
  | Fee d => FeeTransactionDTO.amount d
  end.

(** No balance row is below zero. *)
Definition solvent (bals : gmap string AccountBalance.t) : Prop :=
  map_Forall (fun _ row => (0 ≤ AccountBalance.balance row)%Qc) bals.

(** No entry of the journal carries a negative amount. *)
Definition unsignedEntries (txs : list Transaction.t) : Prop :=
  Forall (fun t => Forall (fun entry => (0 ≤ Entry.amount entry)%Qc) (Transaction.entries t))
         txs.

(** The transactions that the sweep picks up at the clock of [env]. *)
Definition due (env : Env) (t : Transaction.t) : Prop :=
  Transaction.status t = PENDING ∧ (Transaction.createdAt t ≤ now env - 60000)%Z.

#[global] Instance due_dec env t : Decision (due env t).
Proof. unfold due. apply _. Defined.

(** What the sweep makes of a transaction [t] that it picked up: the same
    transaction, COMPLETED, with no time of processing on record
    ([processedAt] is no path of the schema), or FAILED with a reason and
    listed in [failedIds]. *)
Definition settled (env : Env) (failedIds : list string) (t t' : Transaction.t) : Prop :=
  Transaction.transactionId t' = Transaction.transactionId t
  ∧ Transaction.entries t' = Transaction.entries t
  ∧ Transaction.amount t' = Transaction.amount t
  ∧ Transaction.createdAt t' = Transaction.createdAt t
  ∧ ((Transaction.status t' = COMPLETED
      ∧ Transaction.processedAt t' = None
      ∧ Transaction.transactionId t ∉ failedIds)
     ∨ (Transaction.status t' = FAILED
        ∧ is_Some (Transaction.failureReason t')
        ∧ Transaction.transactionId t ∈ failedIds)).

(** The record [t] of the journal as the sweep has it once it went through
    the transactions with the transaction ids [done]. *)
Definition swept (env : Env) (done failedIds : list string) (t t' : Transaction.t) : Prop :=
  if bool_decide (Transaction.transactionId t ∈ done)
  then settled env failedIds t t' else t' = t.

(** Exact sum of the totals of the groups of one direction and currency. *)
Definition flowOf (direction : Direction) (currency : CurrencyCode)
    (stats : list AccountStat) : Decimal :=
  foldr (fun stat acc =>
           if bool_decide (astat_direction stat = direction)
              && bool_decide (astat_currency stat = currency)
           then (astat_totalAmount stat + acc)%Qc else acc)
        0%Qc stats.

(** The total of the groups of one direction and currency as
    [calculateNetFlow] accumulates it: from zero, group by group in the order
    given, every sum rounded to the precision. *)
Definition runningFlow (direction : Direction) (currency : CurrencyCode)
    (stats : list AccountStat) : Decimal :=
  fold_left (fun acc stat =>
               if bool_decide (astat_direction stat = direction)
                  && bool_decide (astat_currency stat = currency)
               then plus acc (astat_totalAmount stat) else acc)
            stats 0%Qc.

(** [totals] holds, currency by currency, the running total of the groups of
    one direction, and nothing else. *)
Definition flowsOf (direction : Direction) (stats : list AccountStat)
    (totals : gmap string Decimal) : Prop :=
  (∀ currency,
     totals !! currencyString currency
     = if bool_decide (currency ∈ astat_currency
                         <$> filter (fun stat => astat_direction stat = direction) stats)
       then Some (runningFlow direction currency stats) else None)
  ∧ ∀ key, is_Some (totals !! key) → ∃ currency, key = currencyString currency.

(** The whole hundredths in a decimal, and the decimals that are whole
    hundredths. *)
Definition centsOf (x : Decimal) : Z := (Qnum (this x) * 100 / Zpos (Qden (this x)))%Z.

Definition wholeCents (x : Decimal) : Prop := x = dec (centsOf x) 100.

(** The hundredths that the groups total, signs apart. *)
Definition volume (stats : list AccountStat) : Z :=
  foldr (fun stat acc => (Z.abs (centsOf (astat_totalAmount stat)) + acc)%Z) 0%Z stats.

(** [flowOf] in hundredths. *)
Definition centsFlow (direction : Direction) (currency : CurrencyCode)
    (stats : list AccountStat) : Z :=
  foldr (fun stat acc =>
           if bool_decide (astat_direction stat = direction)
              && bool_decide (astat_currency stat = currency)
           then (centsOf (astat_totalAmount stat) + acc)%Z else acc)
        0%Z stats.

(** Sum of the counts of the groups of one transaction type. *)
Definition countOf (ty : TransactionType) (stats : list Stat) : Z :=
  foldr (fun stat acc =>
           if bool_decide (stat_transactionType stat = ty)
           then (stat_count stat + acc)%Z else acc)
        0%Z stats.

(** Sum of the counts held for all transaction types. *)
Definition sumCounts (counts : gmap string Z) : Z :=
  map_fold (fun _ count acc => (count + acc)%Z) 0%Z counts.

(** The number that digits in base 36 denote, least significant first. *)
Definition valueOf36 (ds : list N) : N :=
  foldr (fun d value => (d + 36 * value)%N) 0%N ds.

(** The string holds no hyphen. *)
Definition hyphenFree (s : string) : Prop :=
  "-"%char ∉ list_ascii_of_string s.

(** No underscore of the list is followed by an underscore. *)
Definition singleUnderscores (l : list ascii) : Prop :=
  ∀ i, l !! i = Some "_"%char → l !! S i ≠ Some "_"%char.

(** Account numbers are unique. *)
Definition uniqueAccountNumbers (s : State) : Prop :=
  NoDup (Account.accountNumber <$> accounts s).

(** The account numbers a direct operation names: one, or the two ends of
    a transfer. *)
Definition namedAccountNumbers (op : Operation) : list string :=
  match op with
  | Deposit d => [DepositTransactionDTO.accountNumber d]
  | Withdrawal d => [WithdrawalTransactionDTO.accountNumber d]
  | Transfer d =>
      [TransferTransactionDTO.fromAccountNumber d; TransferTransactionDTO.toAccountNumber d]
  | Fee d => [FeeTransactionDTO.accountNumber d]
  end.

(** ** More sample data *)

Module Scenario.

Definition fee30 : FeeTransactionDTO.t :=
  FeeTransactionDTO.mk (Account.userId Sample.bob) (Account.accountNumber Sample.bob)
    (dec 30 1) USD (Some "Monthly fee") None None.
Definition fee31 : FeeTransactionDTO.t :=
  FeeTransactionDTO.mk (Account.userId Sample.bob) (Account.accountNumber Sample.bob)
    (dec 31 1) USD (Some "Monthly fee") None None.

Definition depositToNobody : DepositTransactionDTO.t :=
  DepositTransactionDTO.mk (Account.userId Sample.alice) "ACCT-0000-0000-000F"
    (dec 50 1) USD None None None.

(** The sample ledger with a record in the journal whose transaction id is
    the one that [env1] mints for a deposit. *)
Definition ledgerWithTakenId : State :=
  set_transactions
    [ Transaction.mk (generateTransactionId Sample.env1 "DEP") ADJUSTMENT
        (Account.userId Sample.alice)
        [ Entry.mk (Account._id Sample.alice) DEBIT (dec 5 1);
          Entry.mk (Account._id Sample.bob) CREDIT (dec 5 1) ]
        (dec 5 1) USD None None CANCELLED "" None ∅ None None 1699990000000 ]
    Sample.ledger.

(** Six random bytes: 0a ff 12 9c 00 e3. *)
Definition sixBytes : list Byte.byte :=
  [Byte.x0a; Byte.xff; Byte.x12; Byte.x9c; Byte.x00; Byte.xe3].

(** Two environments a millisecond apart that draw the same four random
    bytes, 0a 1b 2c 3d. *)
Definition fourBytes : list Byte.byte := [Byte.x0a; Byte.x1b; Byte.x2c; Byte.x3d].
Definition envAt (ms : N) : Env :=
  mkEnv (timestampAt ms) (fun prefix => randomOf fourBytes) "65f000000000000000000544"
    (Z.of_N ms) "2023-11-14T22:13:20.000Z".

(** A savings account in USD opened with 25, and the update that
    deactivates an account. *)
Definition savings25 : IAccountCreate.t :=
  IAccountCreate.mk "65f0000000000000000000c1" AccountType.SAVINGS USD (Some (dec 25 1)) None.
Definition deactivation : IAccountUpdate.t := IAccountUpdate.mk None (Some false) None.

(** The groups of an account that took in 120.50 and 30.25 dollars and paid
    out 50.75 dollars and 10 euros. *)
Definition flows : list AccountStat :=
  [ mkAccountStat DEPOSIT INCOMING USD 2 (dec 12050 100) (dec 6025 100);
    mkAccountStat TRANSFER INCOMING USD 1 (dec 3025 100) (dec 3025 100);
    mkAccountStat WITHDRAWAL OUTGOING USD 1 (dec 5075 100) (dec 5075 100);
    mkAccountStat TRANSFER OUTGOING EUR 1 (dec 10 1) (dec 10 1) ].

End Scenario.

(** * Results *)

(** Closes a closed decidable goal by evaluation. *)
Ltac by_evaluation := apply (bool_decide_unpack _); vm_compute; exact I.

(** ** The account-number validator *)

Section Patterns.

Lemma test_app p q v :
  test (p ++ q) v = true ↔
  ∃ v1 v2, v = v1 +:+ v2 ∧ test p v1 = true ∧ test q v2 = true.
Proof.
  revert v. induction p as [|k p IH]; intros v; simpl.
  - split.
    + intros H. exists "", v. done.
    + intros (v1 & v2 & -> & H1 & H2). destruct v1; [done | discriminate].
  - destruct v as [|c v].
    + split; [by destruct q |].
      intros (v1 & v2 & Hv & H1 & _). destruct v1; [discriminate | discriminate].
    + rewrite andb_true_iff, IH. split.
      * intros (Hk & v1 & v2 & -> & H1 & H2).
        exists (String c v1), v2. simpl. by rewrite Hk, H1.
      * intros (v1 & v2 & Hv & H1 & H2). destruct v1 as [|c1 v1]; [discriminate |].
        simpl in Hv. injection Hv as -> ->.
        apply andb_true_iff in H1 as [Hk H1]. eauto 6.
Qed.

Lemma test_literal s v : test (literal s) v = true ↔ v = s.
Proof.
  unfold literal. revert v.
  induction s as [|c s IH]; intros [|c' v]; simpl; try done.
  rewrite andb_true_iff, IH, bool_decide_eq_true. split.
  - by intros [-> ->].
  - by intros [= -> ->].
Qed.

Lemma test_class n g v :
  test (replicate n (Class g)) v = true ↔
  String.length v = n ∧ forallb g (list_ascii_of_string v) = true.
Proof.
  revert v. induction n as [|n IH]; intros [|c v]; simpl.
  - done.
  - split; [done | by intros [? _]].
  - split; [done | by intros [? _]].
  - rewrite !andb_true_iff, IH. split.
    + by intros (? & <- & ?).
    + by intros ([= <-] & ? & ?).
Qed.

Lemma accountNumberPattern_spec g value :
  test (accountNumberPattern g) value = true ↔
  ∃ g1 g2 g3 : string,
    value = "ACCT-" +:+ g1 +:+ "-" +:+ g2 +:+ "-" +:+ g3
    ∧ group g g1 ∧ group g g2 ∧ group g g3.
Proof.
  unfold accountNumberPattern, group.
  rewrite test_app. setoid_rewrite test_literal.
  setoid_rewrite test_app. setoid_rewrite test_class.
  setoid_rewrite test_app. setoid_rewrite test_literal.
  setoid_rewrite test_app. setoid_rewrite test_class.
  setoid_rewrite test_app. setoid_rewrite test_literal.
  setoid_rewrite test_class.
  split.
  - intros (? & ? & -> & -> & g1 & ? & -> & H1 & ? & ? & -> & ->
            & g2 & ? & -> & H2 & ? & g3 & -> & -> & H3).
    by exists g1, g2, g3.
  - intros (g1 & g2 & g3 & -> & H1 & H2 & H3).
    eexists _, _. split; [reflexivity |]. split; [reflexivity |].
    eexists g1, _. split; [reflexivity |]. split; [done |].
    eexists _, _. split; [reflexivity |]. split; [reflexivity |].
    eexists g2, _. split; [reflexivity |]. split; [done |].
    by eexists _, g3.
Qed.

Lemma hexadecimal_alphanumeric c : hexadecimal c = true → alphanumeric c = true.
Proof.
  unfold hexadecimal, alphanumeric, inRange.
  rewrite !orb_true_iff, !andb_true_iff, !Nat.leb_le.
  change (nat_of_ascii "0") with 48%nat. change (nat_of_ascii "9") with 57%nat.
  change (nat_of_ascii "A") with 65%nat. change (nat_of_ascii "F") with 70%nat.
  change (nat_of_ascii "Z") with 90%nat. change (nat_of_ascii "a") with 97%nat.
  change (nat_of_ascii "f") with 102%nat. change (nat_of_ascii "z") with 122%nat.
  lia.
Qed.

Lemma group_hexadecimal_alphanumeric v : group hexadecimal v → group alphanumeric v.
Proof.
  intros [Hlen Hall]. split; [done |].
  rewrite forallb_forall in *. intros c Hc. eauto using hexadecimal_alphanumeric.
Qed.

End Patterns.

(** C9 (as amended): [validateAccountNumber] accepts exactly the strings
    [ACCT-XXXX-XXXX-XXXX] whose three groups are four ASCII letters or
    digits each, that is the strings matching
    [^ACCT-[0-9A-Za-z]{4}-[0-9A-Za-z]{4}-[0-9A-Za-z]{4}$]; every string
    matching the hexadecimal pattern of the specification is among them. *)
Theorem validateAccountNumber_alphanumeric (value : string) :
  (validateAccountNumber value = true ↔
   ∃ g1 g2 g3 : string,
     value = "ACCT-" +:+ g1 +:+ "-" +:+ g2 +:+ "-" +:+ g3
     ∧ group alphanumeric g1 ∧ group alphanumeric g2 ∧ group alphanumeric g3)
  ∧ (test specAccountNumberRegex value = true → validateAccountNumber value = true).
Proof.
  split; [apply accountNumberPattern_spec |].
  unfold validateAccountNumber, accountNumberRegex, specAccountNumberRegex.
  rewrite !accountNumberPattern_spec.
  intros (g1 & g2 & g3 & -> & H1 & H2 & H3).
  exists g1, g2, g3. split; [done |].
  split; [| split]; by apply group_hexadecimal_alphanumeric.
Qed.

(** The validator at a hexadecimal account number. *)
Lemma validateAccountNumber_alphanumeric_witness :
  validateAccountNumber "ACCT-09AF-af00-1234" = true.
Proof.
  apply (proj2 (validateAccountNumber_alphanumeric "ACCT-09AF-af00-1234")).
  reflexivity.
Defined.

(** C9, counterexample: [ACCT-ZZZZ-ZZZZ-ZZZZ] is accepted although its
    groups are not hexadecimal. *)
Lemma validateAccountNumber_not_hexadecimal :
  ¬ (∀ value : string,
       validateAccountNumber value = true ↔ test specAccountNumberRegex value = true).
Proof.
  intros H. destruct (H "ACCT-ZZZZ-ZZZZ-ZZZZ") as [H1 _].
  specialize (H1 eq_refl). vm_compute in H1. discriminate.
Qed.

(** ** The journal schema *)

Section Numbers.

(** A finite number and its negation add up to zero. *)
Lemma num_add_neg_r x :
  num_isFinite x = true → num_eq (num_add x (num_neg x)) num_zero = true.
Proof.
  destruct x as [[|]| | |s m e]; try done.
  intros _. unfold num_add, num_neg, SFadd, SFopp.
  rewrite Z.min_id. unfold shl_align. rewrite Z.sub_diag. simpl.
  by destruct s; unfold cond_Zopp, negb; rewrite ?Z.add_opp_diag_l, ?Z.add_opp_diag_r.
Qed.

Lemma num_add_neg_l x :
  num_isFinite x = true → num_eq (num_add (num_neg x) x) num_zero = true.
Proof.
  destruct x as [[|]| | |s m e]; try done.
  intros _. unfold num_add, num_neg, SFadd, SFopp.
  rewrite Z.min_id. unfold shl_align. rewrite Z.sub_diag. simpl.
  by destruct s; unfold cond_Zopp, negb; rewrite ?Z.add_opp_diag_l, ?Z.add_opp_diag_r.
Qed.

(** Two entries of one amount on opposite sides pass the balance validator,
    whichever comes first, once the amount parses to a finite number. *)
Lemma entriesBalanceValidator_pair a1 a2 side1 side2 amount :
  side1 ≠ side2 →
  num_isFinite (parseFloat amount) = true →
  entriesBalanceValidator [Entry.mk a1 side1 amount; Entry.mk a2 side2 amount] = true.
Proof.
  intros Hside Hfin. unfold entriesBalanceValidator, entriesSum. simpl.
  destruct (parseFloat amount) as [[|]| | |s m e] eqn:Hp; try done;
    destruct side1, side2; try done; simpl;
    try (apply (num_add_neg_r (S754_finite s m e)); done);
    try (apply (num_add_neg_l (S754_finite s m e)); done).
Qed.

End Numbers.

Lemma validateTransaction_entries tx :
  validateTransaction tx = None ↔
  entriesLengthValidator (Transaction.entries tx) = true
  ∧ entriesBalanceValidator (Transaction.entries tx) = true.
Proof.
  unfold validateTransaction.
  destruct (entriesLengthValidator _), (entriesBalanceValidator _); simpl;
    (split; [done | by intros [? ?]]).
Qed.

Lemma insertTransaction_inr tx txs txs' :
  insertTransaction tx txs = inr txs' ↔
  validateTransaction tx = None
  ∧ (Transaction.transactionId tx ∉ (Transaction.transactionId <$> txs))
  ∧ txs' = txs ++ [tx].
Proof.
  unfold insertTransaction. destruct (validateTransaction tx) as [msg|].
  { split; [done | by intros [? _]]. }
  case_bool_decide as Hid.
  - split; [done | by intros (_ & ? & _)].
  - split; [by intros [= <-] | by intros (_ & _ & ->)].
Qed.

(** C6 (as amended): a transaction accepted at insert has at least two
    entries and a transaction id not yet in the journal, and is appended as
    it is; one with fewer than two entries is refused by validation; and
    neither the declared amount nor the declared currency has any part in the
    decision (the accounts of the entries are not even looked up), so T3 and
    T4 are not checked at insert. *)
Theorem insertTransaction_checks_entries_only (tx : Transaction.t) (txs : list Transaction.t) :
  (∀ txs', insertTransaction tx txs = inr txs' →
     T1 tx
     ∧ (Transaction.transactionId tx ∉ (Transaction.transactionId <$> txs))
     ∧ txs' = txs ++ [tx])
  ∧ (¬ T1 tx → ∃ msg, insertTransaction tx txs = inl (ValidationError msg))
  ∧ (∀ amount currency,
       accepted (insertTransaction (redeclare amount currency tx) txs)
       = accepted (insertTransaction tx txs)).
Proof.
  split; [| split].
  - intros txs' (Hv & Hid & ->)%insertTransaction_inr.
    apply validateTransaction_entries in Hv as [Hlen _].
    split; [| done]. unfold entriesLengthValidator in Hlen.
    by apply bool_decide_eq_true in Hlen.
  - intros Hlen. unfold insertTransaction, validateTransaction, entriesLengthValidator.
    rewrite bool_decide_eq_false_2 by done. simpl. eauto.
  - intros amount currency. unfold insertTransaction, validateTransaction. simpl.
    destruct (entriesLengthValidator _); simpl; [| done].
    destruct (entriesBalanceValidator _); simpl; [| done].
    by case_bool_decide.
Qed.

(** The misdeclared transaction is accepted into an empty journal. *)
Lemma insertTransaction_checks_entries_only_witness :
  T1 Sample.misdeclared
  ∧ (Transaction.transactionId Sample.misdeclared ∉ (Transaction.transactionId <$> []))
  ∧ [Sample.misdeclared] = [] ++ [Sample.misdeclared].
Proof.
  apply (proj1 (insertTransaction_checks_entries_only Sample.misdeclared [])).
  reflexivity.
Defined.

(** C6, counterexample: a transaction declared as 999 USD whose entries move
    5 between a USD and a EUR account is accepted at insert. *)
Lemma insertTransaction_accepts_misdeclared :
  ¬ (∀ (s : State) (tx : Transaction.t) (txs' : list Transaction.t),
       insertTransaction tx (transactions s) = inr txs' →
       T1 tx ∧ T2 tx ∧ T3 s tx ∧ T4 tx).
Proof.
  intros H.
  destruct (H Sample.ledger Sample.misdeclared [Sample.misdeclared] eq_refl)
    as (_ & _ & _ & H4 & _).
  apply (f_equal this) in H4. vm_compute in H4. discriminate.
Qed.

(** C8: the balance validator of the journal schema and the summary of the
    statistics compute on binary floating-point numbers.  Entries of 0.30
    against 0.10 and 0.20 balance exactly and are refused; entries of
    9007199254740993 against 9007199254740992 do not balance and are
    accepted; and the summary's total of 0.10 and 0.20 is the number
    above the one nearest to 0.30. *)
Theorem entries_validator_uses_binary64 :
  (entriesBalanceValidator Sample.threeTenths = false
   ∧ sumSide DEBIT Sample.threeTenths = sumSide CREDIT Sample.threeTenths)
  ∧ (entriesBalanceValidator Sample.offByOne = true
     ∧ sumSide DEBIT Sample.offByOne ≠ sumSide CREDIT Sample.offByOne)
  ∧ (totalAmountByCurrency
       [mkStat DEPOSIT USD 1 (dec 1 10); mkStat WITHDRAWAL USD 1 (dec 2 10)] !! "USD"
     = Some (S754_finite false 5404319552844596 (-54))
     ∧ parseFloat (dec 1 10 + dec 2 10) = S754_finite false 5404319552844595 (-54)).
Proof.
  split; [| split].
  - split; [by vm_compute |]. apply Qc_is_canon. by vm_compute.
  - split; [by vm_compute |]. intros H.
    apply (f_equal this) in H. vm_compute in H. discriminate.
  - split; by vm_compute.
Qed.

(** ** Entering a list of entries *)

Section Entries.

Context (env : Env) (what : string).

Lemma balance_saveBalance id row b (bals : gmap string AccountBalance.t) :
  AccountBalance.balance <$> saveBalance env id row b bals
  = <[id := b]> (AccountBalance.balance <$> bals).
Proof. unfold saveBalance. by rewrite fmap_insert. Qed.

Lemma isNegative_true x : isNegative x = true ↔ (x < 0)%Qc.
Proof. unfold isNegative. apply bool_decide_eq_true. Qed.

Lemma lessThan_false x y : lessThan x y = false ↔ (y ≤ x)%Qc.
Proof.
  unfold lessThan. rewrite bool_decide_eq_false. split.
  - apply Qcnot_lt_le.
  - intros H. by apply Qcle_not_lt.
Qed.

Lemma lessThan_true x y : lessThan x y = true ↔ (x < y)%Qc.
Proof. unfold lessThan. apply bool_decide_eq_true. Qed.

(** The loop stops on insufficient funds exactly when the entries, taken in
    order, reach a debit that leaves a negative balance, on any account. *)
Lemma applyEntries_insufficient entries (bals : gmap string AccountBalance.t) :
  (∃ bals' e, applyEntries env what entries bals = (bals', Some e)
              ∧ name e = InsufficientFundsError)
  ↔ drivesNegative noExemption (AccountBalance.balance <$> bals) entries.
Proof.
  revert bals. induction entries as [|entry rest IH]; intros bals; simpl.
  - split; [by intros (? & ? & [= ] & _) | inversion 1].
  - destruct (bals !! Entry.accountId entry) as [row|] eqn:Hrow.
    + assert (Hb : (AccountBalance.balance <$> bals) !! Entry.accountId entry
                   = Some (AccountBalance.balance row))
        by (by rewrite lookup_fmap, Hrow).
      case_bool_decide as Hside.
      * rewrite IH, balance_saveBalance. split.
        -- intros H. eapply drives_later; [done |].
           unfold posted. by rewrite bool_decide_eq_true_2.
        -- inversion 1 as [? ? ? b Hd | ? ? ? b Hb' Hrest]; subst; [congruence |].
           rewrite Hb in Hb'. injection Hb' as <-.
           unfold posted in Hrest. by rewrite bool_decide_eq_true_2 in Hrest.
      * destruct (isNegative _) eqn:Hneg.
        -- split; [| by eauto].
           intros _. apply isNegative_true in Hneg.
           eapply drives_here; [by destruct (Entry.entryType entry) | done | done | done].
        -- rewrite IH, balance_saveBalance. split.
           ++ intros H. eapply drives_later; [done |].
              unfold posted. by rewrite bool_decide_eq_false_2.
           ++ inversion 1 as [? ? ? b Hd Hb' _ Hlt | ? ? ? b Hb' Hrest]; subst;
                rewrite Hb in Hb'; injection Hb' as <-.
              ** apply isNegative_true in Hlt. congruence.
              ** unfold posted in Hrest. by rewrite bool_decide_eq_false_2 in Hrest.
    + split.
      * by intros (? & ? & [= <- <-] & ?).
      * inversion 1 as [? ? ? b _ Hb | ? ? ? b Hb _]; subst;
          by rewrite lookup_fmap, Hrow in Hb.
Qed.

End Entries.

(** ** Reversal *)

Lemma find_some_elem {A} (f : A -> bool) (l : list A) x :
  List.find f l = Some x → x ∈ l ∧ f x = true.
Proof. intros [? ?]%find_some. by rewrite list_elem_of_In. Qed.

Lemma find_none_elem {A} (f : A -> bool) (l : list A) x :
  List.find f l = None → x ∈ l → f x = false.
Proof. intros H Hx. apply (find_none f l H). by apply list_elem_of_In. Qed.

(** C5 (as amended): once a reversal is past the guards that come before
    the entries (the original is on record as COMPLETED, no reversal of it is
    on record, the reversal transaction is accepted at insert), it fails with
    InsufficientFunds if and only if the side-flipped entries, entered one
    after the other, reach a debit that leaves the balance of its account
    negative, whatever the type of that account: SYSTEM accounts are checked
    like any other. *)
Theorem reverseTransaction_insufficient_iff
    (env : Env) (reversalData : ReversalTransactionDTO.t) (s : State)
    (original : Transaction.t) :
  findCompleted (ReversalTransactionDTO.originalTransactionId reversalData) s = Some original →
  findReversalOf (ReversalTransactionDTO.originalTransactionId reversalData) s = None →
  accepted (insertTransaction (newReversal env reversalData original) (transactions s)) = true →
  (∃ e, reverseTransaction env reversalData s = (s, Err e) ∧ name e = InsufficientFundsError)
  ↔ drivesNegative noExemption (AccountBalance.balance <$> accountBalances s)
      (reverseEntry <$> Transaction.entries original).
Proof.
  intros Horig Hnone Hins. unfold reverseTransaction. rewrite Horig, Hnone.
  destruct (insertTransaction _ _) as [|txs]; [done |].
  rewrite <- (applyEntries_insufficient env "Insufficient funds for reversal").
  change (Transaction.entries (newReversal env reversalData original))
    with (reverseEntry <$> Transaction.entries original).
  destruct (applyEntries _ _ _ _) as [bals [e|]].
  - split.
    + intros (e' & [= <-] & He). eauto.
    + intros (bals' & e' & [= <- <-] & He). eauto.
  - split.
    + by intros (e' & [= ] & _).
    + by intros (bals' & e' & [= ] & _).
Qed.

(** Reversing Alice's withdrawal of 30: the WITHDRAWALS account holds 0. *)
Lemma reverseTransaction_insufficient_iff_witness :
  (∃ e, reverseTransaction Sample.env2 (Sample.reversalOf Sample.withdrawalId)
          Sample.afterWithdrawal = (Sample.afterWithdrawal, Err e)
        ∧ name e = InsufficientFundsError)
  ↔ drivesNegative noExemption
      (AccountBalance.balance <$> accountBalances Sample.afterWithdrawal)
      (reverseEntry <$>
         [ Entry.mk (Account._id Sample.alice) DEBIT (dec 30 1);
           Entry.mk (objectId Sample.env1) CREDIT (dec 30 1) ]).
Proof.
  eapply (reverseTransaction_insufficient_iff Sample.env2
            (Sample.reversalOf Sample.withdrawalId) Sample.afterWithdrawal
            (Transaction.mk _ _ _ _ _ _ _ _ _ _ _ _ _ _ _)).
  - vm_compute. reflexivity.
  - vm_compute. reflexivity.
  - vm_compute. reflexivity.
Defined.

(** C5, counterexample: reversing a withdrawal of 30 fails with
    InsufficientFunds because the WITHDRAWALS system account holds 0,
    although no account other than that SYSTEM account would go negative. *)
Lemma reverseTransaction_system_account_not_exempt :
  ¬ (∀ (env : Env) (reversalData : ReversalTransactionDTO.t) (s : State)
       (original : Transaction.t),
       findCompleted (ReversalTransactionDTO.originalTransactionId reversalData) s
         = Some original →
       findReversalOf (ReversalTransactionDTO.originalTransactionId reversalData) s = None →
       accepted (insertTransaction (newReversal env reversalData original) (transactions s))
         = true →
       (∃ e, reverseTransaction env reversalData s = (s, Err e)
             ∧ name e = InsufficientFundsError)
       ↔ drivesNegative (isSystemAccount s) (AccountBalance.balance <$> accountBalances s)
           (reverseEntry <$> Transaction.entries original)).
Proof.
  intros H.
  edestruct (H Sample.env2 (Sample.reversalOf Sample.withdrawalId) Sample.afterWithdrawal)
    as [Hfails _].
  - vm_compute. reflexivity.
  - vm_compute. reflexivity.
  - vm_compute. reflexivity.
  - assert (Hcode : ∃ e,
      reverseTransaction Sample.env2 (Sample.reversalOf Sample.withdrawalId)
        Sample.afterWithdrawal = (Sample.afterWithdrawal, Err e)
      ∧ name e = InsufficientFundsError).
    { eexists. split; [vm_compute; reflexivity | reflexivity]. }
    specialize (Hfails Hcode). clear Hcode H.
    cbn [fmap list_fmap Transaction.entries] in Hfails.
    inversion Hfails as [? ? ? b Hd | ? ? ? b _ Hrest]; subst; [discriminate Hd |].
    inversion Hrest as [? ? ? b' _ _ Hex | ? ? ? b' _ Hnil]; subst.
    + vm_compute in Hex. discriminate Hex.
    + inversion Hnil.
Qed.

(** ** System accounts *)

Lemma getSystemAccount_ready env prefix accountType currency s :
  freshIn env prefix s →
  ∃ s1 id, getSystemAccount env accountType currency s = (s1, Ok id)
           ∧ systemAccountReady env accountType currency s s1 id.
Proof.
  intros (_ & Hnumber & Hid & Hrow). unfold getSystemAccount.
  destruct (systemAccounts s !! _) as [id|] eqn:Hcache.
  { exists s, id. split; [done |]. split; [done | done | by left]. }
  destruct (List.find _ _) as [systemAccount|].
  { eexists _, _. split; [done |].
    split; [done | cbn; by rewrite lookup_insert_eq | by left]. }
  unfold insertAccount. cbn [Account._id Account.accountNumber].
  rewrite (bool_decide_eq_false_2 _ Hid), (bool_decide_eq_false_2 _ Hnumber).
  unfold insertBalance. cbn [accountBalances set_accounts]. rewrite Hrow.
  eexists _, _. split; [done |].
  split; [done | cbn; by rewrite lookup_insert_eq | by right].
Qed.

Lemma updateTransaction_last tx tx' txs :
  Transaction.transactionId tx' = Transaction.transactionId tx →
  Transaction.transactionId tx ∉ (Transaction.transactionId <$> txs) →
  updateTransaction tx' (txs ++ [tx]) = txs ++ [Transaction.schemaPaths tx'].
Proof.
  intros Hid Hfresh. unfold updateTransaction. rewrite fmap_app. f_equal.
  - rewrite <- (list_fmap_id txs) at 2. apply list_fmap_ext.
    intros i t Ht. rewrite bool_decide_eq_false_2; [done |].
    intros Heq. apply Hfresh. rewrite <- Hid, <- Heq.
    apply list_elem_of_fmap. exists t. split; [done |].
    by eapply list_elem_of_lookup_2.
  - simpl. by rewrite bool_decide_eq_true_2.
Qed.

(** Inserting a new transaction and completing it appends the completed
    transaction to the journal, less its [processedAt]. *)
Lemma insert_then_complete env tx txs :
  validateTransaction tx = None →
  Transaction.transactionId tx ∉ (Transaction.transactionId <$> txs) →
  ∃ txs', insertTransaction tx txs = inr txs'
          ∧ updateTransaction (complete env tx) txs'
            = txs ++ [Transaction.schemaPaths (complete env tx)].
Proof.
  intros Hv Hfresh. exists (txs ++ [tx]). split.
  - by apply insertTransaction_inr.
  - by apply updateTransaction_last.
Qed.

Lemma validateTransaction_pair tx a1 a2 side1 side2 amount :
  Transaction.entries tx = [Entry.mk a1 side1 amount; Entry.mk a2 side2 amount] →
  side1 ≠ side2 →
  num_isFinite (parseFloat amount) = true →
  validateTransaction tx = None.
Proof.
  intros Hentries Hside Hfin. apply validateTransaction_entries. rewrite Hentries.
  split; [done | by apply entriesBalanceValidator_pair].
Qed.

(** ** Rounding to the precision of decimal.js *)

Section Rounding.

Local Open Scope Z_scope.

Lemma pow10_pos z : 0 < pow10 z.
Proof. unfold pow10. apply Z.pow_pos_nonneg; lia. Qed.

Ltac pow10_cases :=
  unfold pow10;
  repeat match goal with
         | |- context [Z.max 0 ?z] =>
             destruct (Z.max_spec 0 z) as [[? ->] | [? ->]]
         end;
  rewrite ?Z.pow_0_r, ?Z.mul_1_r, ?Z.mul_1_l.

(** [10^a / 10^b] is [10^(a - b)]. *)
Lemma pow10_sub a b :
  0 ≤ a → 0 ≤ b → 10 ^ a * pow10 (- (a - b)) = 10 ^ b * pow10 (a - b).
Proof.
  intros Ha Hb. pow10_cases; try lia.
  - rewrite <- Z.pow_add_r by lia. f_equal. lia.
  - rewrite <- Z.pow_add_r by lia. f_equal. lia.
  - replace a with b by lia. done.
Qed.

(** [10^(a + b)] is [10^a * 10^b]. *)
Lemma pow10_add a b :
  pow10 (a + b) * (pow10 (- a) * pow10 (- b))
  = pow10 a * pow10 b * pow10 (- (a + b)).
Proof.
  pow10_cases; try lia;
    rewrite <- ?Z.pow_add_r by lia; try (f_equal; lia).
  all: try (replace a with 0 by lia); try (replace b with 0 by lia); try done.
  all: rewrite ?Z.add_0_r, ?Z.add_0_l, ?Z.pow_0_r; try lia.
Qed.

(** [10^a <= 10^b] when [a <= b]. *)
Lemma pow10_le a b : a ≤ b → pow10 a * pow10 (- b) ≤ pow10 b * pow10 (- a).
Proof.
  intros Hab. pow10_cases; try lia;
    rewrite <- ?Z.pow_add_r by lia;
    try (apply Z.pow_le_mono_r; lia);
    try (apply (Z.pow_le_mono_r 10 0); lia).
Qed.

Lemma digitsOf_spec fuel n :
  1 ≤ n → Z.log2 n ≤ Z.of_nat fuel →
  1 ≤ digitsOf fuel n ∧ 10 ^ (digitsOf fuel n - 1) ≤ n < 10 ^ digitsOf fuel n.
Proof.
  revert n. induction fuel as [|fuel IH]; intros n Hn Hlog; cbn [digitsOf].
  - assert (n = 1) as ->; [| cbn; lia].
    destruct (Z.log2_spec n) as [_ Hup]; [lia |].
    replace (Z.log2 n) with 0 in Hup by (pose proof (Z.log2_nonneg n); lia).
    cbn in Hup. lia.
  - destruct (Z.ltb_spec n 10) as [Hsmall | Hbig]; [cbn; lia |].
    destruct (IH (n / 10)) as (Hone & Hlow & Hhigh).
    + apply Z.div_le_lower_bound; lia.
    + assert (Z.log2 (n / 10) < Z.log2 n); [| lia].
      apply Z.log2_lt_pow2; [apply Z.div_str_pos; lia |].
      destruct (Z.log2_spec n) as [_ Hup]; [lia |].
      rewrite Z.pow_succ_r in Hup by apply Z.log2_nonneg.
      apply Z.div_lt_upper_bound; lia.
    + split; [lia |].
      replace (1 + digitsOf fuel (n / 10) - 1) with (Z.succ (digitsOf fuel (n / 10) - 1))
        by lia.
      replace (1 + digitsOf fuel (n / 10)) with (Z.succ (digitsOf fuel (n / 10))) by lia.
      rewrite !Z.pow_succ_r by lia.
      pose proof (Z.div_mod n 10). pose proof (Z.mod_pos_bound n 10). lia.
Qed.

Lemma numberOfDigits_spec n :
  1 ≤ n →
  1 ≤ numberOfDigits n ∧ 10 ^ (numberOfDigits n - 1) ≤ n < 10 ^ numberOfDigits n.
Proof.
  intros Hn. apply digitsOf_spec; [done |].
  rewrite Z2Nat.id; [lia | apply Z.log2_nonneg].
Qed.

(** [exponentOf n d] is the exponent of [n / d]. *)
Lemma exponentOf_spec n d :
  1 ≤ n → 1 ≤ d →
  d * pow10 (exponentOf n d) ≤ n * pow10 (- exponentOf n d)
  ∧ n * pow10 (- (exponentOf n d + 1)) < d * pow10 (exponentOf n d + 1).
Proof.
  intros Hn Hd. unfold exponentOf.
  destruct (numberOfDigits_spec n Hn) as (Ha & Hnlow & Hnhigh).
  destruct (numberOfDigits_spec d Hd) as (Hb & Hdlow & Hdhigh).
  set (a := numberOfDigits n) in *. set (b := numberOfDigits d) in *.
  destruct (Z.leb_spec (d * pow10 (a - b)) (n * pow10 (- (a - b)))) as [Hle | Hgt].
  - split; [done |].
    pose proof (pow10_sub a (b - 1) ltac:(lia) ltac:(lia)) as Heq.
    replace (a - (b - 1)) with (a - b + 1) in Heq by lia.
    pose proof (pow10_pos (- (a - b + 1))). pose proof (pow10_pos (a - b + 1)).
    nia.
  - replace (a - b - 1 + 1) with (a - b) by lia. split; [| lia].
    pose proof (pow10_sub (a - 1) b ltac:(lia) ltac:(lia)) as Heq.
    replace (a - 1 - b) with (a - b - 1) in Heq by lia.
    pose proof (pow10_pos (- (a - b - 1))). pose proof (pow10_pos (a - b - 1)).
    nia.
Qed.

End Rounding.

Lemma Qc_nonneg (x : Decimal) : (0 ≤ x)%Qc ↔ (0 ≤ Qnum x)%Z.
Proof.
  unfold Qcle, Qle. change (this 0%Qc) with (0 # 1). cbn [Qnum Qden]. lia.
Qed.

Lemma Q2Qc_nonneg (q : Q) : (0 ≤ Q2Qc q)%Qc ↔ (0 ≤ Qnum q)%Z.
Proof.
  unfold Qcle. cbn [this Q2Qc]. change (Qred 0) with (0 # 1).
  rewrite Qred_correct. unfold Qle. cbn [Qnum Qden]. lia.
Qed.

(** Rounding keeps a decimal that is not negative from becoming negative. *)
Lemma finalise_nonneg (x : Decimal) : (0 ≤ x)%Qc → (0 ≤ finalise x)%Qc.
Proof.
  intros Hnum%Qc_nonneg. unfold finalise.
  destruct (Z.abs (Qnum x) =? 0)%Z; [done |].
  apply Q2Qc_nonneg. cbn [Qnum].
  set (k := (precision - 1 - exponentOf (Z.abs (Qnum x)) (Z.pos (Qden x)))%Z).
  pose proof (pow10_pos k). pose proof (pow10_pos (- k)).
  assert (0 ≤ (2 * Z.abs (Qnum x) * pow10 k + Z.pos (Qden x) * pow10 (- k))
              / (2 * Z.pos (Qden x) * pow10 (- k)))%Z
    by (apply Z.div_pos; nia).
  assert (0 ≤ Z.sgn (Qnum x))%Z by lia.
  nia.
Qed.

(** A decimal of at most 20 significant digits is left alone by the
    rounding. *)
Lemma finalise_exact (x : Decimal) : withinPrecision x → finalise x = x.
Proof.
  intros (m & k & Hm & ->). unfold finalise, timesPow10.
  assert (Hred : this (Q2Qc (m * pow10 k # Z.to_pos (pow10 (- k))))
                 == m * pow10 k # Z.to_pos (pow10 (- k))) by apply Qred_correct.
  destruct (this (Q2Qc (m * pow10 k # Z.to_pos (pow10 (- k))))) as [n0 dd].
  unfold Qeq in Hred. cbn [Qnum Qden] in Hred |- *.
  pose proof (pow10_pos k) as HU. pose proof (pow10_pos (- k)) as HD.
  rewrite Z2Pos.id in Hred by done.
  apply Qc_is_canon. cbn [this Q2Qc].
  destruct (Z.eqb_spec (Z.abs n0) 0) as [Hzero | Hnonzero].
  { cbn [this Q2Qc]. rewrite !Qred_correct. unfold Qeq. cbn.
    assert (n0 = 0)%Z as -> by lia. nia. }
  set (n := Z.abs n0) in *. set (d := Z.pos dd) in *.
  assert (Hd : (1 ≤ d)%Z) by (unfold d; lia).
  assert (Hn : (1 ≤ n)%Z) by (unfold n; lia).
  assert (Habs : (n * pow10 (- k) = Z.abs m * pow10 k * d)%Z).
  { unfold n. rewrite <- (Z.abs_eq (pow10 (- k))), <- Z.abs_mul, Hred by lia.
    rewrite !Z.abs_mul, (Z.abs_eq (pow10 k)), (Z.abs_eq d) by lia. done. }
  destruct (exponentOf_spec n d Hn Hd) as [Hlow _].
  set (e := exponentOf n d) in *.
  set (kk := (precision - 1 - e)%Z).
  pose proof (pow10_pos kk) as HU'. pose proof (pow10_pos (- kk)) as HD'.
  pose proof (pow10_pos e) as HUe. pose proof (pow10_pos (- e)) as HDe.
  (* the digits of [m] end before the last digit kept *)
  assert (Hshift : (0 ≤ k + kk)%Z).
  { destruct (Z.le_gt_cases 0 (k + kk)) as [|Hneg]; [done | exfalso].
    assert (Hle : (precision + k ≤ e)%Z) by (unfold kk in Hneg; lia).
    pose proof (pow10_le _ _ Hle) as Hmono.
    pose proof (pow10_add precision k) as Hadd.
    assert (Hp : pow10 precision = (10 ^ precision)%Z) by done.
    assert (Hp' : pow10 (- precision) = 1%Z) by done.
    rewrite Hp, Hp' in Hadd.
    pose proof (pow10_pos (precision + k)). pose proof (pow10_pos (- (precision + k))).
    assert (Hx : (pow10 e * pow10 (- k) ≤ Z.abs m * pow10 k * pow10 (- e))%Z).
    { apply (Z.mul_le_mono_pos_l _ _ d); [lia |]. nia. }
    assert (Hy : (Z.abs m * pow10 k * pow10 (- e) * pow10 (- (precision + k))
                  < 10 ^ precision * pow10 k * pow10 (- e) * pow10 (- (precision + k)))%Z).
    { apply Z.mul_lt_mono_pos_r; [lia |]. apply Z.mul_lt_mono_pos_r; [lia |].
      apply Z.mul_lt_mono_pos_r; lia. }
    nia. }
  assert (Hone : pow10 (- (k + kk)) = 1%Z).
  { unfold pow10. by rewrite Z.max_l by lia. }
  pose proof (pow10_add k kk) as Hadd. rewrite Hone, Z.mul_1_r in Hadd.
  pose proof (pow10_pos (k + kk)) as HM.
  set (M := (Z.abs m * pow10 (k + kk))%Z).
  assert (Hexact : (n * pow10 kk = M * (d * pow10 (- kk)))%Z).
  { apply (Z.mul_reg_r _ _ (pow10 (- k))); [lia |]. unfold M. nia. }
  replace (2 * n * pow10 kk + d * pow10 (- kk))%Z
    with (d * pow10 (- kk) + M * (2 * d * pow10 (- kk)))%Z by lia.
  rewrite Z.div_add, Z.div_small, Z.add_0_l by nia.
  cbn [this Q2Qc]. rewrite !Qred_correct. unfold Qeq. cbn [Qnum Qden].
  rewrite !Z2Pos.id by done.
  assert (Hsgn : (n0 = Z.sgn n0 * n)%Z) by (unfold n; lia).
  apply (Z.mul_reg_r _ _ d); [lia |].
  transitivity (Z.sgn n0 * (M * (d * pow10 (- kk))) * pow10 (- k))%Z; [ring |].
  rewrite <- Hexact.
  transitivity ((Z.sgn n0 * n) * pow10 (- k) * pow10 kk)%Z; [ring |].
  rewrite <- Hsgn, Hred. ring.
Qed.

Lemma plus_exact x y : withinPrecision (x + y)%Qc → plus x y = (x + y)%Qc.
Proof. apply finalise_exact. Qed.

Lemma minus_exact x y : withinPrecision (x - y)%Qc → minus x y = (x - y)%Qc.
Proof. apply finalise_exact. Qed.

(** A whole number of hundredths below [10^20] of them is within the
    precision. *)
Lemma withinPrecision_cents cents :
  (Z.abs cents < 10 ^ precision)%Z → withinPrecision (dec cents 100).
Proof.
  intros Hc. exists cents, (-2)%Z. split; [done |].
  unfold timesPow10, dec. apply Qc_is_canon. cbn [this Q2Qc].
  rewrite !Qred_correct. unfold Qeq.
  change (pow10 (-2)) with 1%Z. change (pow10 (- -2)) with 100%Z.
  cbn [Qnum Qden Z.to_pos]. lia.
Qed.

(** Two decimals are the same when their fractions in lowest terms are. *)
Lemma balance_by_value (o : option Decimal) (q : Decimal) :
  this <$> o = Some (this q) → o = Some q.
Proof.
  destruct o as [x|]; [| done]. cbn. intros [= Hx]. f_equal.
  apply Qc_is_canon. by rewrite Hx.
Qed.

(** A whole number [m] of at most 20 digits is within the precision. *)
Ltac within_precision m :=
  exists m%Z, 0%Z; split; [done | apply Qc_is_canon; by vm_compute].

(** ** Withdrawal *)

(** C2 (as amended): a withdrawal on an existing active account of the
    declared currency fails with InsufficientFunds, carrying the available
    balance and the requested amount and leaving the state untouched, when
    the balance is below the amount; otherwise (equality included) it appends
    one COMPLETED withdrawal to the journal, with a debit of the amount on the
    customer account and a credit of the amount on the WITHDRAWALS system
    account of the currency, and the customer balance becomes the difference
    of balance and amount as decimal.js computes it, to 20 significant
    digits: it goes down by exactly the amount whenever the difference has no
    more digits than that.  No other existing balance changes.  The record
    in the journal is the transaction returned, less the fields that are no
    paths of the schema. *)
Theorem createWithdrawal_sufficiency
    (env : Env) (withdrawalData : WithdrawalTransactionDTO.t) (s : State)
    (account : Account.t) (accountBalance : AccountBalance.t) :
  findActiveAccount (WithdrawalTransactionDTO.accountNumber withdrawalData) s = Some account →
  Account.currency account = WithdrawalTransactionDTO.currency withdrawalData →
  accountBalances s !! Account._id account = Some accountBalance →
  let available := AccountBalance.balance accountBalance in
  let requested := WithdrawalTransactionDTO.amount withdrawalData in
  ((available < requested)%Qc →
   createWithdrawal env withdrawalData s
   = (s, Err (mkError InsufficientFundsError "Insufficient funds for withdrawal"
                (FundsDetails available requested))))
  ∧ ((requested ≤ available)%Qc →
     num_isFinite (parseFloat requested) = true →
     freshIn env "WDR" s →
     ∃ s' tx systemId,
       createWithdrawal env withdrawalData s = (s', Ok tx)
       ∧ transactions s' = transactions s ++ [Transaction.schemaPaths tx]
       ∧ Transaction.transactionId tx = generateTransactionId env "WDR"
       ∧ Transaction.transactionType tx = WITHDRAWAL
       ∧ Transaction.status tx = COMPLETED
       ∧ Transaction.amount tx = requested
       ∧ Transaction.currency tx = WithdrawalTransactionDTO.currency withdrawalData
       ∧ Transaction.entries tx
         = [ Entry.mk (Account._id account) DEBIT requested;
             Entry.mk systemId CREDIT requested ]
       ∧ systemAccounts s'
           !! ("WITHDRAWALS_" +:+ currencyString (WithdrawalTransactionDTO.currency withdrawalData))
         = Some systemId
       ∧ balanceOf s' (Account._id account) = Some (minus available requested)
       ∧ (withinPrecision (available - requested)%Qc →
          balanceOf s' (Account._id account) = Some (available - requested)%Qc)
       ∧ (∀ id, id ≠ Account._id account → is_Some (accountBalances s !! id) →
            accountBalances s' !! id = accountBalances s !! id)).
Proof.
  intros Hacc Hcur Hrow available requested. unfold createWithdrawal.
  rewrite Hacc, (bool_decide_eq_true_2 _ Hcur), Hrow. cbn [negb].
  fold available requested. split.
  - intros Hlt. by rewrite (proj2 (lessThan_true _ _) Hlt).
  - intros Hle Hfin Hfresh. rewrite (proj2 (lessThan_false _ _) Hle).
    destruct (getSystemAccount_ready env "WDR" "WITHDRAWALS"
                (WithdrawalTransactionDTO.currency withdrawalData) s Hfresh)
      as (s1 & systemId & -> & [Htxs Hcached Hbals]).
    set (tx := newTransaction _).
    destruct (insert_then_complete env tx (transactions s1)) as (txs' & -> & ->).
    { by eapply validateTransaction_pair. }
    { rewrite Htxs. apply Hfresh. }
    eexists _, _, systemId. split; [done |].
    unfold commitTransaction, balanceOf, saveBalance. cbn.
    rewrite Htxs, lookup_insert_eq. split_and!; try done.
    + intros Hexact. cbn. by rewrite (minus_exact _ _ Hexact).
    + intros id Hid [row Hsome]. rewrite lookup_insert_ne by done.
      destruct Hbals as [-> | (Hnone & -> & ->)]; [done |].
      rewrite lookup_insert_ne; [done |]. intros <-. congruence.
Qed.

(** Alice holds 100: withdrawing 175 is refused, withdrawing 100 empties the
    account. *)
Lemma createWithdrawal_sufficiency_witness :
  createWithdrawal Sample.env1 Sample.withdraw175 Sample.ledger
  = (Sample.ledger,
     Err (mkError InsufficientFundsError "Insufficient funds for withdrawal"
            (FundsDetails (dec 100 1) (dec 175 1))))
  ∧ ∃ s' tx,
      createWithdrawal Sample.env1 Sample.withdraw100 Sample.ledger = (s', Ok tx)
      ∧ transactions s' = [Transaction.schemaPaths tx]
      ∧ Transaction.status tx = COMPLETED
      ∧ balanceOf s' (Account._id Sample.alice) = Some (dec 100 1 - dec 100 1)%Qc.
Proof.
  split.
  - apply (createWithdrawal_sufficiency Sample.env1 Sample.withdraw175 Sample.ledger
             Sample.alice (AccountBalance.mk USD (dec 100 1) 0)); reflexivity.
  - destruct (createWithdrawal_sufficiency Sample.env1 Sample.withdraw100 Sample.ledger
                Sample.alice (AccountBalance.mk USD (dec 100 1) 0)) as [_ H];
      try reflexivity.
    destruct H as (s' & tx & systemId & Hrun & Htxs & _ & _ & Hstatus & _ & _ & _ & _
                   & _ & Hbal & _).
    + by_evaluation.
    + reflexivity.
    + repeat split; by_evaluation.
    + exists s', tx. repeat split; try assumption.
      apply Hbal. exists 0%Z, 0%Z. split; [done |]. apply Qc_is_canon. reflexivity.
Defined.

(** C2, counterexample: Alice holds 10^20 and withdraws 0.01; the withdrawal
    succeeds and her balance is 10^20 as before, the difference having 22
    significant digits. *)
Lemma createWithdrawal_rounds :
  ¬ (∀ (env : Env) (withdrawalData : WithdrawalTransactionDTO.t) (s s' : State)
       (account : Account.t) (accountBalance : AccountBalance.t) (tx : Transaction.t),
       findActiveAccount (WithdrawalTransactionDTO.accountNumber withdrawalData) s
         = Some account →
       Account.currency account = WithdrawalTransactionDTO.currency withdrawalData →
       accountBalances s !! Account._id account = Some accountBalance →
       createWithdrawal env withdrawalData s = (s', Ok tx) →
       balanceOf s' (Account._id account)
       = Some (AccountBalance.balance accountBalance
               - WithdrawalTransactionDTO.amount withdrawalData)%Qc).
Proof.
  intros H.
  specialize (H Sample.env1 Sample.withdrawCent Sample.vault
                (fst (createWithdrawal Sample.env1 Sample.withdrawCent Sample.vault))
                Sample.alice (AccountBalance.mk USD (dec 100000000000000000000 1) 0)
                (complete Sample.env1
                   (newTransaction
                      (Transaction.mk (generateTransactionId Sample.env1 "WDR") WITHDRAWAL
                         (Account.userId Sample.alice)
                         [ Entry.mk (Account._id Sample.alice) DEBIT (dec 1 100);
                           Entry.mk (objectId Sample.env1) CREDIT (dec 1 100) ]
                         (dec 1 100) USD None None PROCESSING "Withdrawal transaction"
                         None ∅ None None (now Sample.env1))))
                eq_refl eq_refl eq_refl).
  assert (Hrun : createWithdrawal Sample.env1 Sample.withdrawCent Sample.vault
                 = (fst (createWithdrawal Sample.env1 Sample.withdrawCent Sample.vault),
                    Ok (complete Sample.env1
                          (newTransaction
                             (Transaction.mk (generateTransactionId Sample.env1 "WDR") WITHDRAWAL
                                (Account.userId Sample.alice)
                                [ Entry.mk (Account._id Sample.alice) DEBIT (dec 1 100);
                                  Entry.mk (objectId Sample.env1) CREDIT (dec 1 100) ]
                                (dec 1 100) USD None None PROCESSING "Withdrawal transaction"
                                None ∅ None None (now Sample.env1))))))
    by (vm_compute; reflexivity).
  specialize (H Hrun). clear Hrun.
  apply (f_equal (fmap this)) in H. vm_compute in H. discriminate.
Qed.

(** ** Transfer *)

Lemma findActiveAccount_some number s a :
  findActiveAccount number s = Some a →
  a ∈ accounts s ∧ Account.accountNumber a = number ∧ Account.isActive a = true.
Proof.
  intros [Hin Hf]%find_some_elem.
  apply andb_true_iff in Hf as [Hn%bool_decide_eq_true Ha]. done.
Qed.

(** In a well-formed state two accounts with one object id are the same
    account. *)
Lemma wellFormed_id_inj s a b :
  wellFormed s → a ∈ accounts s → b ∈ accounts s →
  Account._id a = Account._id b → a = b.
Proof.
  intros [Hnodup _] (i & Hi)%list_elem_of_lookup (j & Hj)%list_elem_of_lookup Heq.
  assert (i = j) as ->; [| congruence].
  eapply NoDup_lookup; [exact Hnodup | |].
  - by rewrite list_lookup_fmap, Hi.
  - by rewrite list_lookup_fmap, Hj, Heq.
Qed.

(** C3 (as amended): a transfer that succeeds met every precondition
    (distinct account numbers, both accounts on record and active, both in
    the declared currency, the source owned by the requesting user, the
    source balance at least the amount); a transfer that fails leaves the
    state as it was; and when the preconditions hold, in a well-formed state,
    the transfer appends one COMPLETED transfer with a debit of the amount on
    the source and a credit of the amount on the destination, the source
    balance becomes the difference and the destination balance the sum, each
    as decimal.js computes it, to 20 significant digits: the source goes down
    and the destination goes up by exactly the amount whenever difference and
    sum have no more digits than that.  No other balance changes. *)
Theorem createTransfer_preconditions
    (env : Env) (transferData : TransferTransactionDTO.t) (s : State) :
  (∀ s' tx, createTransfer env transferData s = (s', Ok tx) →
     transferPreconditions transferData s)
  ∧ (∀ s' e, createTransfer env transferData s = (s', Err e) → s' = s)
  ∧ (transferPreconditions transferData s →
     wellFormed s →
     num_isFinite (parseFloat (TransferTransactionDTO.amount transferData)) = true →
     generateTransactionId env "TRF" ∉ (Transaction.transactionId <$> transactions s) →
     ∃ s' tx sourceAccount destinationAccount sourceBalance destinationBalance,
       createTransfer env transferData s = (s', Ok tx)
       ∧ findActiveAccount (TransferTransactionDTO.fromAccountNumber transferData) s
         = Some sourceAccount
       ∧ findActiveAccount (TransferTransactionDTO.toAccountNumber transferData) s
         = Some destinationAccount
       ∧ balanceOf s (Account._id sourceAccount) = Some sourceBalance
       ∧ balanceOf s (Account._id destinationAccount) = Some destinationBalance
       ∧ transactions s' = transactions s ++ [Transaction.schemaPaths tx]
       ∧ Transaction.transactionType tx = TRANSFER
       ∧ Transaction.status tx = COMPLETED
       ∧ Transaction.entries tx
         = [ Entry.mk (Account._id sourceAccount) DEBIT
               (TransferTransactionDTO.amount transferData);
             Entry.mk (Account._id destinationAccount) CREDIT
               (TransferTransactionDTO.amount transferData) ]
       ∧ balanceOf s' (Account._id sourceAccount)
         = Some (minus sourceBalance (TransferTransactionDTO.amount transferData))
       ∧ balanceOf s' (Account._id destinationAccount)
         = Some (plus destinationBalance (TransferTransactionDTO.amount transferData))
       ∧ (withinPrecision (sourceBalance - TransferTransactionDTO.amount transferData)%Qc →
          balanceOf s' (Account._id sourceAccount)
          = Some (sourceBalance - TransferTransactionDTO.amount transferData)%Qc)
       ∧ (withinPrecision (destinationBalance + TransferTransactionDTO.amount transferData)%Qc →
          balanceOf s' (Account._id destinationAccount)
          = Some (destinationBalance + TransferTransactionDTO.amount transferData)%Qc)
       ∧ (∀ id, id ≠ Account._id sourceAccount → id ≠ Account._id destinationAccount →
            accountBalances s' !! id = accountBalances s !! id)).
Proof.
  split; [| split].
  - intros s' tx. unfold createTransfer, transferPreconditions.
    case_bool_decide as Hne; [done |].
    destruct (findActiveAccount _ s) as [sourceAccount|]; [| done].
    destruct (findActiveAccount _ s) as [destinationAccount|]; [| done].
    case_bool_decide as Hc1; [| done].
    case_bool_decide as Hc2; [| done].
    case_bool_decide as Hown; [| done]. cbn [negb].
    destruct (accountBalances s !! _) as [sourceBalance|] eqn:Hsrc; [| done].
    destruct (accountBalances s !! Account._id destinationAccount); [| done].
    destruct (lessThan _ _) eqn:Hlt; [done |].
    apply lessThan_false in Hlt. intros _. split; [done |].
    by exists sourceAccount, destinationAccount, sourceBalance.
  - intros s' e. unfold createTransfer.
    repeat (first [ case_bool_decide | case_match ]; cbn [negb]; try congruence).
  - intros (Hne & sourceAccount & destinationAccount & sourceBalance
            & Hsrc & Hdst & Hc1 & Hc2 & Hown & Hrow & Hle) Hwf Hfin Hfresh.
    destruct (findActiveAccount_some _ _ _ Hsrc) as (Hsin & Hsnum & _).
    destruct (findActiveAccount_some _ _ _ Hdst) as (Hdin & Hdnum & _).
    destruct (proj2 Hwf _ Hdin) as [destinationBalance Hdrow].
    assert (Hids : Account._id sourceAccount ≠ Account._id destinationAccount).
    { intros Heq. apply Hne. rewrite <- Hsnum, <- Hdnum.
      by rewrite (wellFormed_id_inj s _ _ Hwf Hsin Hdin Heq). }
    unfold createTransfer.
    rewrite (bool_decide_eq_false_2 _ Hne), Hsrc, Hdst,
      (bool_decide_eq_true_2 _ Hc1), (bool_decide_eq_true_2 _ Hc2),
      (bool_decide_eq_true_2 _ Hown), Hrow, Hdrow, (proj2 (lessThan_false _ _) Hle).
    cbn [negb].
    set (tx := newTransaction _).
    destruct (insert_then_complete env tx (transactions s)) as (txs' & -> & ->).
    { by eapply validateTransaction_pair. }
    { done. }
    eexists _, _, sourceAccount, destinationAccount,
      (AccountBalance.balance sourceBalance), (AccountBalance.balance destinationBalance).
    split; [done |].
    unfold commitTransaction, balanceOf, saveBalance. cbn.
    rewrite Hrow, Hdrow, lookup_insert_eq, lookup_insert_ne, lookup_insert_eq by done.
    split_and!; try done.
    + intros Hexact. cbn. by rewrite (minus_exact _ _ Hexact).
    + intros Hexact. cbn. by rewrite (plus_exact _ _ Hexact).
    + intros id H1 H2. by rewrite !lookup_insert_ne.
Qed.

(** Alice, who holds 100, sends 40 to Bob, who holds 30. *)
Lemma createTransfer_preconditions_witness :
  ∃ s' tx,
    createTransfer Sample.env1 Sample.transfer40 Sample.ledger = (s', Ok tx)
    ∧ Transaction.status tx = COMPLETED
    ∧ balanceOf s' (Account._id Sample.alice) = Some (dec 100 1 - dec 40 1)%Qc
    ∧ balanceOf s' (Account._id Sample.bob) = Some (dec 30 1 + dec 40 1)%Qc.
Proof.
  destruct (createTransfer_preconditions Sample.env1 Sample.transfer40 Sample.ledger)
    as (_ & _ & H).
  destruct H as (s' & tx & src & dst & b1 & b2 & Hrun & Hsrc & Hdst & Hb1 & Hb2
                 & _ & _ & Hstatus & _ & _ & _ & Hbs & Hbd & _).
  - split; [by_evaluation |].
    exists Sample.alice, Sample.bob, (AccountBalance.mk USD (dec 100 1) 0).
    repeat split; try reflexivity. by_evaluation.
  - split.
    + by_evaluation.
    + intros a Ha. apply list_elem_of_In in Ha. cbn in Ha.
      destruct Ha as [<- | [<- | [<- | []]]]; by_evaluation.
  - reflexivity.
  - by_evaluation.
  - injection Hsrc as <-. injection Hdst as <-.
    injection Hb1 as <-. injection Hb2 as <-.
    exists s', tx. repeat split; try assumption.
    + apply Hbs. exists 60%Z, 0%Z. split; [done |]. apply Qc_is_canon. reflexivity.
    + apply Hbd. exists 70%Z, 0%Z. split; [done |]. apply Qc_is_canon. reflexivity.
Defined.

(** C3, counterexample: Alice holds 10^20 and sends 0.01 to Bob, who holds
    10^20 - 1; the transfer succeeds, and neither balance moves by the
    amount: both are as before, difference and sum having 22 significant
    digits. *)
Lemma createTransfer_rounds :
  ¬ (∀ (env : Env) (transferData : TransferTransactionDTO.t) (s s' : State)
       (sourceAccount destinationAccount : Account.t)
       (sourceBalance destinationBalance : Decimal) (tx : Transaction.t),
       findActiveAccount (TransferTransactionDTO.fromAccountNumber transferData) s
         = Some sourceAccount →
       findActiveAccount (TransferTransactionDTO.toAccountNumber transferData) s
         = Some destinationAccount →
       balanceOf s (Account._id sourceAccount) = Some sourceBalance →
       balanceOf s (Account._id destinationAccount) = Some destinationBalance →
       createTransfer env transferData s = (s', Ok tx) →
       balanceOf s' (Account._id sourceAccount)
       = Some (sourceBalance - TransferTransactionDTO.amount transferData)%Qc
       ∧ balanceOf s' (Account._id destinationAccount)
         = Some (destinationBalance + TransferTransactionDTO.amount transferData)%Qc).
Proof.
  intros H.
  destruct (createTransfer Sample.env1 Sample.transferCent Sample.vault)
    as [s' [tx | e]] eqn:Hrun; [| vm_compute in Hrun; discriminate].
  destruct (H Sample.env1 Sample.transferCent Sample.vault s' Sample.alice Sample.bob
              (dec 100000000000000000000 1) (dec 99999999999999999999 1) tx
              eq_refl eq_refl eq_refl eq_refl Hrun) as [Hsource _].
  assert (Hs' : s' = fst (createTransfer Sample.env1 Sample.transferCent Sample.vault))
    by (by rewrite Hrun).
  rewrite Hs' in Hsource.
  apply (f_equal (fmap this)) in Hsource. vm_compute in Hsource. discriminate.
Qed.

(** ** A transaction and its reversal *)

Section EntriesEffect.

Context (env : Env) (what : string).

(** An entry leaves the sum of the balance and its signed amount, to 20
    significant digits. *)
Lemma posted_finalise entry b : posted entry b = finalise (b + signed entry)%Qc.
Proof. unfold posted, signed, plus, minus. by case_bool_decide. Qed.

Lemma posted_exact entry b :
  withinPrecision (b + signed entry)%Qc → posted entry b = (b + signed entry)%Qc.
Proof. intros Hexact. rewrite posted_finalise. by apply finalise_exact. Qed.

Lemma signed_reverseEntry entry : signed (reverseEntry entry) = (- signed entry)%Qc.
Proof.
  unfold signed, reverseEntry. cbn [Entry.entryType Entry.amount].
  destruct (Entry.entryType entry);
    repeat (case_bool_decide; try done); ring.
Qed.

(** The flipped entry takes back what the entry put, where nothing was lost
    to rounding on the way. *)
Lemma posted_reverseEntry entry b :
  withinPrecision b → withinPrecision (b + signed entry)%Qc →
  posted (reverseEntry entry) (posted entry b) = b.
Proof.
  intros Hb Hexact. rewrite (posted_exact entry b Hexact), posted_finalise.
  rewrite signed_reverseEntry.
  replace (b + signed entry + - signed entry)%Qc with b by ring.
  by apply finalise_exact.
Qed.

Lemma delta_cons entry rest id :
  delta (entry :: rest) id
  = if bool_decide (Entry.accountId entry = id)
    then (signed entry + delta rest id)%Qc else delta rest id.
Proof. reflexivity. Qed.

Lemma delta_reverse entries id :
  delta (reverseEntry <$> entries) id = (- delta entries id)%Qc.
Proof.
  induction entries as [|entry rest IH]; [by apply Qc_is_canon |].
  rewrite fmap_cons, !delta_cons, IH, signed_reverseEntry.
  change (Entry.accountId (reverseEntry entry)) with (Entry.accountId entry).
  case_bool_decide; [ring | done].
Qed.

Lemma entryOn_none entries id :
  id ∉ (Entry.accountId <$> entries) → entryOn entries id = None.
Proof.
  intros Hnotin. unfold entryOn.
  destruct (List.find _ _) as [entry|] eqn:Hfind; [| done].
  apply find_some_elem in Hfind as [Hin Hid%bool_decide_eq_true].
  exfalso. apply Hnotin. rewrite <- Hid. by apply list_elem_of_fmap_2.
Qed.

Lemma entryOn_elem entries entry :
  NoDup (Entry.accountId <$> entries) → entry ∈ entries →
  entryOn entries (Entry.accountId entry) = Some entry.
Proof.
  induction entries as [|first rest IH]; intros Hnodup Hin; [by apply elem_of_nil in Hin |].
  rewrite fmap_cons in Hnodup. apply NoDup_cons in Hnodup as [Hfirst Hrest].
  unfold entryOn. cbn [List.find].
  apply elem_of_cons in Hin as [-> | Hin]; [by rewrite bool_decide_eq_true_2 |].
  rewrite bool_decide_eq_false_2; [by apply IH |].
  intros Heq. apply Hfirst. rewrite Heq. by apply list_elem_of_fmap_2.
Qed.

Lemma entryOn_reverseEntry entries id :
  entryOn (reverseEntry <$> entries) id = reverseEntry <$> entryOn entries id.
Proof.
  unfold entryOn. induction entries as [|entry rest IH]; [done |].
  rewrite fmap_cons. cbn [List.find].
  change (Entry.accountId (reverseEntry entry)) with (Entry.accountId entry).
  by case_bool_decide.
Qed.

Lemma accountId_reverseEntry (entries : list Entry.t) :
  Entry.accountId <$> (reverseEntry <$> entries) = Entry.accountId <$> entries.
Proof. rewrite <- list_fmap_compose. by apply list_fmap_ext. Qed.

(** When the loop runs to its end over entries on distinct accounts, the
    balance of every account with an entry is what that entry leaves of it;
    every other balance is as it was, and no row was created. *)
Lemma applyEntries_distinct entries (bals bals' : gmap string AccountBalance.t) id :
  NoDup (Entry.accountId <$> entries) →
  applyEntries env what entries bals = (bals', None) →
  AccountBalance.balance <$> bals' !! id
  = (fun b => from_option (fun entry => posted entry b) b (entryOn entries id))
      <$> (AccountBalance.balance <$> bals !! id).
Proof.
  revert bals. induction entries as [|entry rest IH]; intros bals Hnodup.
  - intros [= <-]. by destruct (bals !! id).
  - rewrite fmap_cons in Hnodup. apply NoDup_cons in Hnodup as [Hfirst Hrest].
    cbn [applyEntries].
    destruct (bals !! Entry.accountId entry) as [row|] eqn:Hrow; [| done].
    assert (Hstep : ∀ nb, nb = posted entry (AccountBalance.balance row) →
      applyEntries env what rest (saveBalance env (Entry.accountId entry) row nb bals)
      = (bals', None) →
      AccountBalance.balance <$> bals' !! id
      = (fun b => from_option (fun entry => posted entry b) b (entryOn (entry :: rest) id))
          <$> (AccountBalance.balance <$> bals !! id)).
    { intros nb -> Hrun. rewrite (IH _ Hrest Hrun).
      change (entryOn (entry :: rest) id)
        with (if bool_decide (Entry.accountId entry = id)
              then Some entry else entryOn rest id).
      unfold saveBalance. case_bool_decide as Hid.
      - subst id. by rewrite (entryOn_none rest _ Hfirst), lookup_insert_eq, Hrow.
      - by rewrite lookup_insert_ne. }
    case_bool_decide as Hside.
    + apply Hstep. unfold posted. by rewrite bool_decide_eq_true_2.
    + destruct (isNegative _); [done |].
      apply Hstep. unfold posted. by rewrite bool_decide_eq_false_2.
Qed.

End EntriesEffect.

Lemma getSystemAccount_inv env accountType currency s s1 id :
  getSystemAccount env accountType currency s = (s1, Ok id) →
  transactions s1 = transactions s
  ∧ (accountBalances s1 = accountBalances s
     ∨ (accountBalances s !! id = None
        ∧ accountBalances s1
          = <[id := AccountBalance.mk currency 0%Qc (now env)]> (accountBalances s))).
Proof.
  unfold getSystemAccount.
  destruct (systemAccounts s !! _); [intros [= <- <-]; by split; [| left] |].
  destruct (List.find _ _); [intros [= <- <-]; by split; [| left] |].
  destruct (insertAccount _ _); [done |].
  unfold insertBalance. cbn.
  destruct (accountBalances s !! objectId env) eqn:Hrow; [done |].
  intros [= <- <-]. cbn. split; [done |]. by right.
Qed.

Lemma insert_complete_inv env tx txs txs' :
  insertTransaction tx txs = inr txs' →
  updateTransaction (complete env tx) txs' = txs ++ [Transaction.schemaPaths (complete env tx)]
  ∧ (Transaction.transactionId tx ∉ (Transaction.transactionId <$> txs)).
Proof.
  intros (_ & Hfresh & ->)%insertTransaction_inr. split; [| done].
  by apply updateTransaction_last.
Qed.

(** A direct operation that succeeds appends its COMPLETED transaction, of
    two entries, under a transaction id new to the journal, and moves the
    balances on one side or on both. *)
Lemma perform_ok env op s s1 tx :
  perform env op s = (s1, Ok tx) →
  transactions s1 = transactions s ++ [Transaction.schemaPaths tx]
  ∧ (Transaction.transactionId tx ∉ (Transaction.transactionId <$> transactions s))
  ∧ Transaction.status tx = COMPLETED
  ∧ ∃ e1 e2, Transaction.entries tx = [e1; e2]
             ∧ (oneSided s s1 e1 e2 ∨ twoSided s s1 e1 e2).
Proof.
  destruct op as [d | d | d | d]; cbn [perform].
  - unfold createDeposit.
    destruct (findActiveAccount _ s) as [account|]; [| done].
    case_bool_decide; [| done]. cbn [negb].
    destruct (accountBalances s !! _) as [row|] eqn:Hrow; [| done].
    destruct (getSystemAccount _ _ _ _) as [s0 [id|]] eqn:Hsys; [| done].
    apply getSystemAccount_inv in Hsys as [Htxs Hbals].
    destruct (insertTransaction _ _) as [|txs'] eqn:Hins; [done |].
    apply (insert_complete_inv env) in Hins as [-> Hfresh].
    intros [= <- <-]. cbn. rewrite Htxs in *. split_and!; try done.
    eexists _, _. split; [done |]. left. exists row, (accountBalances s0). cbn.
    split; [done |]. split; [destruct Hbals as [-> | [? ->]]; eauto 6 |].
    eexists. split; [| done]. done.
  - unfold createWithdrawal.
    destruct (findActiveAccount _ s) as [account|]; [| done].
    case_bool_decide; [| done]. cbn [negb].
    destruct (accountBalances s !! _) as [row|] eqn:Hrow; [| done].
    destruct (lessThan _ _); [done |].
    destruct (getSystemAccount _ _ _ _) as [s0 [id|]] eqn:Hsys; [| done].
    apply getSystemAccount_inv in Hsys as [Htxs Hbals].
    destruct (insertTransaction _ _) as [|txs'] eqn:Hins; [done |].
    apply (insert_complete_inv env) in Hins as [-> Hfresh].
    intros [= <- <-]. cbn. rewrite Htxs in *. split_and!; try done.
    eexists _, _. split; [done |]. left. exists row, (accountBalances s0). cbn.
    split; [done |]. split; [destruct Hbals as [-> | [? ->]]; eauto 6 |].
    eexists. split; [| done]. done.
  - unfold createTransfer.
    case_bool_decide; [done |].
    destruct (findActiveAccount _ s) as [src|]; [| done].
    destruct (findActiveAccount _ s) as [dst|]; [| done].
    do 3 (case_bool_decide; [| done]). cbn [negb].
    destruct (accountBalances s !! Account._id src) as [row1|] eqn:Hrow1; [| done].
    destruct (accountBalances s !! Account._id dst) as [row2|] eqn:Hrow2; [| done].
    destruct (lessThan _ _); [done |].
    destruct (insertTransaction _ _) as [|txs'] eqn:Hins; [done |].
    apply (insert_complete_inv env) in Hins as [-> Hfresh].
    intros [= <- <-]. cbn. split_and!; try done.
    eexists _, _. split; [done |]. right. cbn.
    eexists row1, row2, _, _. split_and!; try done; done.
  - unfold createFee.
    destruct (findActiveAccount _ s) as [account|]; [| done].
    case_bool_decide; [| done]. cbn [negb].
    destruct (accountBalances s !! _) as [row|] eqn:Hrow; [| done].
    destruct (lessThan _ _); [done |].
    destruct (getSystemAccount _ _ _ _) as [s0 [id|]] eqn:Hsys; [| done].
    apply getSystemAccount_inv in Hsys as [Htxs Hbals].
    destruct (insertTransaction _ _) as [|txs'] eqn:Hins; [done |].
    apply (insert_complete_inv env) in Hins as [-> Hfresh].
    intros [= <- <-]. cbn. rewrite Htxs in *. split_and!; try done.
    eexists _, _. split; [done |]. left. exists row, (accountBalances s0). cbn.
    split; [done |]. split; [destruct Hbals as [-> | [? ->]]; eauto 6 |].
    eexists. split; [| done]. done.
Qed.

Lemma reverseTransaction_ok env reversalData s s' reversal :
  reverseTransaction env reversalData s = (s', Ok reversal) →
  ∃ original bals,
    findCompleted (ReversalTransactionDTO.originalTransactionId reversalData) s = Some original
    ∧ findReversalOf (ReversalTransactionDTO.originalTransactionId reversalData) s = None
    ∧ reversal = complete env (newReversal env reversalData original)
    ∧ applyEntries env "Insufficient funds for reversal"
        (reverseEntry <$> Transaction.entries original) (accountBalances s) = (bals, None)
    ∧ s' = commitTransaction (transactions s ++ [Transaction.schemaPaths reversal]) bals s.
Proof.
  unfold reverseTransaction.
  destruct (findCompleted _ s) as [original|]; [| done].
  destruct (findReversalOf _ s); [done |].
  destruct (insertTransaction _ _) as [|txs] eqn:Hins; [done |].
  apply (insert_complete_inv env) in Hins as [Hupd _].
  change (Transaction.entries (newReversal env reversalData original))
    with (reverseEntry <$> Transaction.entries original).
  destruct (applyEntries _ _ _ _) as [bals [e|]] eqn:Hrun; [done |].
  intros [= <- <-]. exists original, bals. by rewrite Hupd.
Qed.

(** The completed transaction on record under a transaction id that was new
    when it was appended. *)
Lemma findCompleted_appended s s1 tx :
  transactions s1 = transactions s ++ [tx] →
  Transaction.transactionId tx ∉ (Transaction.transactionId <$> transactions s) →
  Transaction.status tx = COMPLETED →
  findCompleted (Transaction.transactionId tx) s1 = Some tx.
Proof.
  intros Htxs Hfresh Hstatus. unfold findCompleted. rewrite Htxs.
  destruct (List.find _ _) as [t|] eqn:Hfind.
  - apply find_some_elem in Hfind as [Hin Hp].
    apply andb_true_iff in Hp as [Hid%bool_decide_eq_true _].
    apply elem_of_app in Hin as [Hin | ->%list_elem_of_singleton]; [| done].
    exfalso. apply Hfresh. rewrite <- Hid. apply list_elem_of_fmap. eauto.
  - apply (find_none_elem _ _ tx) in Hfind.
    + cbn in Hfind. by rewrite !bool_decide_eq_true_2 in Hfind.
    + apply elem_of_app. right. by apply list_elem_of_singleton.
Qed.

Lemma find_app_none {A} (f : A -> bool) l1 l2 :
  List.find f l1 = None → List.find f (l1 ++ l2) = List.find f l2.
Proof.
  induction l1 as [|x l1 IH]; cbn; [done |]. destruct (f x); [done | exact IH].
Qed.

Lemma find_app_some {A} (f : A -> bool) l1 l2 x :
  List.find f l1 = Some x → List.find f (l1 ++ l2) = Some x.
Proof.
  induction l1 as [|y l1 IH]; cbn; [done |]. destruct (f y); [done | exact IH].
Qed.

(** C4 (as amended): a COMPLETED transaction whose entries are on distinct
    accounts, and its reversal when the reversal succeeds.  Every balance
    that stands where an entry of the original has put it is back to exactly
    the amount held before, where that amount and the amount the entry made
    of it have no more than 20 significant digits, the precision at which
    the sums and differences are computed; so is, in particular, every
    balance that a deposit, withdrawal, transfer or fee has changed, after
    that operation and its reversal.  The reversal carries the original
    entries with their sides flipped, and leaves the balances of all other
    accounts alone; and any further attempt to reverse the same original
    fails with the already-reversed error, naming the reversal, and changes
    nothing. *)
Theorem reversal_restores_balances
    (env' : Env) (s1 s2 : State) (original reversal : Transaction.t)
    (reversalData : ReversalTransactionDTO.t) :
  findCompleted (ReversalTransactionDTO.originalTransactionId reversalData) s1
    = Some original →
  NoDup (Entry.accountId <$> Transaction.entries original) →
  reverseTransaction env' reversalData s1 = (s2, Ok reversal) →
  (∀ entry b,
     entry ∈ Transaction.entries original →
     balanceOf s1 (Entry.accountId entry) = Some (posted entry b) →
     withinPrecision b → withinPrecision (b + signed entry)%Qc →
     balanceOf s2 (Entry.accountId entry) = Some b)
  ∧ (∀ env op s tx,
       perform env op s = (s1, Ok tx) →
       Transaction.transactionId tx
         = ReversalTransactionDTO.originalTransactionId reversalData →
       ∀ id b,
         balanceOf s id = Some b → balanceOf s1 id ≠ Some b →
         withinPrecision b →
         (∀ entry, entry ∈ Transaction.entries tx → Entry.accountId entry = id →
                   withinPrecision (b + signed entry)%Qc) →
         balanceOf s2 id = Some b)
  ∧ (∀ id, id ∉ (Entry.accountId <$> Transaction.entries original) →
           balanceOf s2 id = balanceOf s1 id)
  ∧ Transaction.entries reversal = reverseEntry <$> Transaction.entries original
  ∧ (∀ env'' again,
       ReversalTransactionDTO.originalTransactionId again
         = ReversalTransactionDTO.originalTransactionId reversalData →
       reverseTransaction env'' again s2
       = (s2, Err (mkError BadRequestError "Transaction has already been reversed"
                     (ReversalDetails (Transaction.transactionId reversal))))).
Proof.
  intros Horig Hdistinct Hrev.
  apply reverseTransaction_ok in Hrev as (original' & bals & Horig' & Hnone & -> & Hrun & ->).
  rewrite Horig in Horig'. injection Horig' as <-.
  assert (Hdistinct' : NoDup (Entry.accountId <$> (reverseEntry <$> Transaction.entries original)))
    by (by rewrite accountId_reverseEntry).
  assert (Hentry : ∀ entry b,
            entry ∈ Transaction.entries original →
            balanceOf s1 (Entry.accountId entry) = Some (posted entry b) →
            withinPrecision b → withinPrecision (b + signed entry)%Qc →
            AccountBalance.balance <$> bals !! Entry.accountId entry = Some b).
  { intros entry b Hin Hb1 Hb Hexact.
    rewrite (applyEntries_distinct _ _ _ _ _ (Entry.accountId entry) Hdistinct' Hrun).
    rewrite entryOn_reverseEntry, (entryOn_elem _ _ Hdistinct Hin).
    unfold balanceOf in Hb1. rewrite Hb1. cbn. f_equal.
    by apply posted_reverseEntry. }
  split; [exact Hentry |]. split; [| split; [| split]].
  - intros env op s tx Hop Hid id b Hb Hchanged Hfits Hexact.
    apply perform_ok in Hop as (Htxs1 & Hfresh & Hstatus & e1 & e2 & Hentries & Heffect).
    assert (Hfound : findCompleted (Transaction.transactionId tx) s1
                     = Some (Transaction.schemaPaths tx))
      by (by apply (findCompleted_appended s s1 (Transaction.schemaPaths tx))).
    rewrite Hid, Horig in Hfound. injection Hfound as ->.
    cbn [Transaction.schemaPaths Transaction.entries] in Hentry, Hdistinct.
    rewrite Hentries in Hentry, Hexact.
    change (balanceOf (commitTransaction _ bals s1) id)
      with (AccountBalance.balance <$> bals !! id).
    unfold balanceOf in Hb, Hchanged.
    destruct Heffect as [(row1 & bals1 & Hrow1 & Hbals1 & row1' & Hpost & Hs1)
                        | (row1 & row2 & row1' & row2' & Hrow1 & Hrow2 & Hp1 & Hp2 & Hs1)].
    + destruct (decide (Entry.accountId e1 = id)) as [<- | Hid1].
      * rewrite Hrow1 in Hb. injection Hb as <-.
        apply Hentry; [by left | | done | apply Hexact; [by left | done]].
        unfold balanceOf. by rewrite Hs1, lookup_insert_eq, <- Hpost.
      * exfalso. apply Hchanged. rewrite Hs1, lookup_insert_ne by done.
        destruct Hbals1 as [-> | (Hnew & ? & ? & ->)]; [done |].
        rewrite lookup_insert_ne; [done |]. intros <-. by rewrite Hnew in Hb.
    + destruct (decide (Entry.accountId e2 = id)) as [<- | Hid2].
      * rewrite Hrow2 in Hb. injection Hb as <-.
        apply Hentry; [right; by left | | done | apply Hexact; [right; by left | done]].
        unfold balanceOf. by rewrite Hs1, lookup_insert_eq, <- Hp2.
      * destruct (decide (Entry.accountId e1 = id)) as [<- | Hid1].
        -- rewrite Hrow1 in Hb. injection Hb as <-.
           apply Hentry; [by left | | done | apply Hexact; [by left | done]].
           unfold balanceOf.
           by rewrite Hs1, lookup_insert_ne, lookup_insert_eq, <- Hp1 by done.
        -- exfalso. apply Hchanged. by rewrite Hs1, !lookup_insert_ne.
  - intros id Hnotin.
    change (balanceOf (commitTransaction _ bals s1) id)
      with (AccountBalance.balance <$> bals !! id).
    rewrite (applyEntries_distinct _ _ _ _ _ id Hdistinct' Hrun).
    rewrite entryOn_none by (by rewrite accountId_reverseEntry).
    unfold balanceOf. by destruct (accountBalances s1 !! id).
  - reflexivity.
  - intros env'' again Hagain. unfold reverseTransaction. rewrite Hagain.
    set (stored := Transaction.schemaPaths (complete env' (newReversal env' reversalData original))).
    assert (Hstill : findCompleted (ReversalTransactionDTO.originalTransactionId reversalData)
                       (commitTransaction (transactions s1 ++ [stored]) bals s1)
                     = Some original).
    { unfold findCompleted. cbn. by apply find_app_some. }
    rewrite Hstill.
    assert (Hid : Transaction.transactionId original
                  = ReversalTransactionDTO.originalTransactionId reversalData).
    { apply find_some_elem in Horig as [_ Hp].
      by apply andb_true_iff in Hp as [Hp%bool_decide_eq_true _]. }
    assert (Hfound : findReversalOf (ReversalTransactionDTO.originalTransactionId reversalData)
                       (commitTransaction (transactions s1 ++ [stored]) bals s1)
                     = Some stored).
    { unfold findReversalOf in *. cbn.
      rewrite (find_app_none _ _ _ Hnone). cbn.
      rewrite lookup_insert_ne, lookup_insert_eq by done.
      by rewrite Hid, !bool_decide_eq_true_2. }
    by rewrite Hfound.
Qed.

(** Alice's deposit of 50 and its reversal: her balance is moved from 100
    to 150 and back to 100, and a second reversal is refused. *)
Lemma reversal_restores_balances_witness :
  balanceOf Sample.afterDepositReversal (Account._id Sample.alice) = Some (dec 100 1)
  ∧ ∃ e, reverseTransaction Sample.env3 (Sample.reversalOf Sample.depositId)
           Sample.afterDepositReversal = (Sample.afterDepositReversal, Err e)
         ∧ message e = "Transaction has already been reversed".
Proof.
  edestruct (reversal_restores_balances Sample.env2 Sample.afterDeposit
               Sample.afterDepositReversal) as (_ & Hback & _ & _ & Hagain).
  - instantiate (2 := Sample.reversalOf Sample.depositId). vm_compute. reflexivity.
  - by_evaluation.
  - vm_compute. reflexivity.
  - split.
    + eapply (Hback Sample.env1 (Deposit Sample.deposit50) Sample.ledger).
      * vm_compute. reflexivity.
      * reflexivity.
      * reflexivity.
      * by_evaluation.
      * exists 100%Z, 0%Z. split; [done |]. apply Qc_is_canon. reflexivity.
      * intros entry Hin Hid. exists 150%Z, 0%Z. split; [done |].
        apply list_elem_of_In in Hin. cbn in Hin.
        destruct Hin as [<- | [<- | []]]; [| discriminate Hid].
        apply Qc_is_canon. reflexivity.
    + eexists. split; [apply (Hagain Sample.env3); reflexivity | reflexivity].
Defined.

(** C4, counterexample: Bob holds 10^20 - 1 and deposits 0.50, which makes
    10^20 at 20 significant digits; the reversal of the deposit succeeds and
    leaves him 10^20.  The balance that the deposit changed is not back to
    what it was. *)
Lemma reversal_rounds :
  ¬ (∀ (env env' : Env) (op : Operation) (s s1 s2 : State)
       (tx reversal : Transaction.t) (reversalData : ReversalTransactionDTO.t),
       perform env op s = (s1, Ok tx) →
       ReversalTransactionDTO.originalTransactionId reversalData
         = Transaction.transactionId tx →
       reverseTransaction env' reversalData s1 = (s2, Ok reversal) →
       ∀ id b, balanceOf s id = Some b → balanceOf s1 id ≠ Some b →
               balanceOf s2 id = Some b).
Proof.
  intros H.
  destruct (perform Sample.env1 (Deposit Sample.depositHalf) Sample.vault)
    as [s1 [tx | e]] eqn:Hop; [| vm_compute in Hop; discriminate].
  destruct (reverseTransaction Sample.env2 (Sample.reversalOf Sample.depositId) s1)
    as [s2 [reversal | e]] eqn:Hrev.
  2: { assert (Hs1 : s1 = fst (perform Sample.env1 (Deposit Sample.depositHalf) Sample.vault))
         by (by rewrite Hop).
       rewrite Hs1 in Hrev. vm_compute in Hrev. discriminate. }
  assert (Htx : Transaction.transactionId tx = Sample.depositId).
  { assert (Hr : Ok tx = snd (perform Sample.env1 (Deposit Sample.depositHalf) Sample.vault))
      by (by rewrite Hop).
    vm_compute in Hr. by injection Hr as ->. }
  specialize (H Sample.env1 Sample.env2 (Deposit Sample.depositHalf) Sample.vault s1 s2
                tx reversal (Sample.reversalOf Sample.depositId) Hop (eq_sym Htx) Hrev
                (Account._id Sample.bob) (dec 99999999999999999999 1) eq_refl).
  assert (Hs1 : s1 = fst (perform Sample.env1 (Deposit Sample.depositHalf) Sample.vault))
    by (by rewrite Hop).
  assert (Hs2 : s2 = fst (reverseTransaction Sample.env2 (Sample.reversalOf Sample.depositId)
                            (fst (perform Sample.env1 (Deposit Sample.depositHalf)
                                    Sample.vault))))
    by (by rewrite <- Hs1, Hrev).
  rewrite Hs1, Hs2 in H. clear - H.
  assert (Hafter : balanceOf
                     (fst (reverseTransaction Sample.env2 (Sample.reversalOf Sample.depositId)
                             (fst (perform Sample.env1 (Deposit Sample.depositHalf)
                                     Sample.vault))))
                     (Account._id Sample.bob)
                   = Some (dec 99999999999999999999 1)).
  { apply H. intros Hsame. apply (f_equal (fmap this)) in Hsame.
    vm_compute in Hsame. discriminate. }
  apply (f_equal (fmap this)) in Hafter. vm_compute in Hafter. discriminate.
Qed.

(** Entries on one account: a deposit of 50 under the account number of the
    DEPOSITS system account itself credits that account, which held 0, and
    debits nothing; its reversal succeeds, debits 50 and credits 50, and
    leaves the 50. *)
Lemma reversal_on_one_account :
  ∃ s1 s2 tx reversal,
    createDeposit Sample.env2 Sample.depositToSystem Sample.afterDeposit = (s1, Ok tx)
    ∧ Entry.accountId <$> Transaction.entries tx
      = [objectId Sample.env1; objectId Sample.env1]
    ∧ reverseTransaction Sample.env3
        (Sample.reversalOf (generateTransactionId Sample.env2 "DEP")) s1
      = (s2, Ok reversal)
    ∧ balanceOf Sample.afterDeposit (objectId Sample.env1) = Some (dec 0 1)
    ∧ balanceOf s1 (objectId Sample.env1) = Some (dec 50 1)
    ∧ balanceOf s2 (objectId Sample.env1) = Some (dec 50 1).
Proof.
  eexists _, _, _, _. split; [vm_compute; reflexivity |].
  split; [reflexivity |]. split; [vm_compute; reflexivity |].
  split_and!; apply balance_by_value; by vm_compute.
Qed.

(** ** The sum of all balances *)

Section Totals.

Implicit Types bals : gmap string AccountBalance.t.

Lemma total_insert_new bals id row :
  bals !! id = None →
  total (<[id := row]> bals) = (AccountBalance.balance row + total bals)%Qc.
Proof.
  intros Hnone. unfold total.
  apply (map_fold_insert_L (fun _ r acc => (AccountBalance.balance r + acc)%Qc)); [| done].
  intros. ring.
Qed.

Lemma total_delete bals id row :
  bals !! id = Some row →
  total bals = (AccountBalance.balance row + total (delete id bals))%Qc.
Proof.
  intros Hsome. unfold total.
  apply (map_fold_delete_L (fun _ r acc => (AccountBalance.balance r + acc)%Qc)); [| done].
  intros. ring.
Qed.

Lemma total_insert bals id row row' :
  bals !! id = Some row →
  total (<[id := row']> bals)
  = (total bals + (AccountBalance.balance row' - AccountBalance.balance row))%Qc.
Proof.
  intros Hsome. rewrite <- insert_delete_eq.
  rewrite total_insert_new by apply lookup_delete_eq.
  rewrite (total_delete bals id row Hsome). ring.
Qed.

Lemma sumSide_cons side entry rest :
  sumSide side (entry :: rest)
  = if bool_decide (Entry.entryType entry = side)
    then (Entry.amount entry + sumSide side rest)%Qc else sumSide side rest.
Proof. reflexivity. Qed.

(** When the loop runs to its end over entries on distinct accounts, none
    of which loses anything to rounding, the sum of all balances has moved by
    the credits less the debits. *)
Lemma applyEntries_total env what entries bals bals' :
  NoDup (Entry.accountId <$> entries) →
  entersExactly bals entries →
  applyEntries env what entries bals = (bals', None) →
  total bals' = (total bals + (sumSide CREDIT entries - sumSide DEBIT entries))%Qc.
Proof.
  revert bals. induction entries as [|entry rest IH]; intros bals Hnodup Hexact.
  - intros [= <-]. change (sumSide CREDIT []) with 0%Qc.
    change (sumSide DEBIT []) with 0%Qc. ring.
  - rewrite fmap_cons in Hnodup. apply NoDup_cons in Hnodup as [Hfirst Hrest].
    rewrite !sumSide_cons. cbn [applyEntries].
    destruct (bals !! Entry.accountId entry) as [row|] eqn:Hrow; [| done].
    pose proof (Hexact entry row ltac:(by left) Hrow) as Hhere.
    assert (Hstep : ∀ nb,
              applyEntries env what rest (saveBalance env (Entry.accountId entry) row nb bals)
              = (bals', None) →
              total bals'
              = (total bals + (nb - AccountBalance.balance row)
                 + (sumSide CREDIT rest - sumSide DEBIT rest))%Qc).
    { intros nb Hrun. rewrite (IH _ Hrest) with (2 := Hrun).
      - unfold saveBalance. by rewrite (total_insert _ _ row).
      - intros entry' row' Hin Hrow'. unfold saveBalance in Hrow'.
        rewrite lookup_insert_ne in Hrow'; [apply Hexact; [by right | done] |].
        intros Heq. apply Hfirst. rewrite Heq. by apply list_elem_of_fmap_2. }
    unfold signed in Hhere.
    destruct (Entry.entryType entry);
      repeat (case_bool_decide; try done).
    + destruct (isNegative _); [done |]. intros Hrun%Hstep. rewrite Hrun.
      rewrite minus_exact by done. ring.
    + intros Hrun%Hstep. rewrite Hrun. rewrite plus_exact by done. ring.
Qed.

End Totals.

(** X3: a reversal that succeeds leaves the sum of all balances unchanged when
    the debits and credits of the original are equal, its entries are on
    distinct accounts, and none of the flipped entries loses anything to
    rounding. *)
Lemma reverseTransaction_conserves env reversalData s s' reversal original :
  reverseTransaction env reversalData s = (s', Ok reversal) →
  findCompleted (ReversalTransactionDTO.originalTransactionId reversalData) s = Some original →
  T2 original →
  NoDup (Entry.accountId <$> Transaction.entries original) →
  entersExactly (accountBalances s) (reverseEntry <$> Transaction.entries original) →
  totalBalance s' = totalBalance s.
Proof.
  intros (original' & bals & Horig & _ & _ & Hrun & ->)%reverseTransaction_ok
    Hfound Hbalanced Hdistinct Hexact.
  rewrite Horig in Hfound. injection Hfound as ->.
  unfold totalBalance. cbn.
  rewrite (applyEntries_total _ _ _ _ _) with (3 := Hrun);
    [| by rewrite accountId_reverseEntry | done].
  assert (Hflip : ∀ entries,
            sumSide CREDIT (reverseEntry <$> entries) = sumSide DEBIT entries
            ∧ sumSide DEBIT (reverseEntry <$> entries) = sumSide CREDIT entries).
  { induction entries as [|entry rest [IH1 IH2]]; [done |].
    rewrite fmap_cons, !sumSide_cons, IH1, IH2. unfold reverseEntry. cbn.
    destruct (Entry.entryType entry); by repeat (case_bool_decide; try done). }
  destruct (Hflip (Transaction.entries original)) as [-> ->].
  unfold T2 in Hbalanced. rewrite Hbalanced. ring.
Qed.

(** X2: a transfer that succeeds in a well-formed state leaves the sum of all
    balances unchanged, when neither of its entries loses anything to
    rounding. *)
Lemma createTransfer_conserves env transferData s s' tx :
  wellFormed s →
  createTransfer env transferData s = (s', Ok tx) →
  entersExactly (accountBalances s) (Transaction.entries tx) →
  totalBalance s' = totalBalance s.
Proof.
  intros Hwf. unfold createTransfer.
  case_bool_decide as Hne; [done |].
  destruct (findActiveAccount (TransferTransactionDTO.fromAccountNumber transferData) s)
    as [src|] eqn:Hsrc; [| done].
  destruct (findActiveAccount (TransferTransactionDTO.toAccountNumber transferData) s)
    as [dst|] eqn:Hdst; [| done].
  do 3 (case_bool_decide; [| done]). cbn [negb].
  destruct (accountBalances s !! Account._id src) as [row1|] eqn:Hrow1; [| done].
  destruct (accountBalances s !! Account._id dst) as [row2|] eqn:Hrow2; [| done].
  destruct (lessThan _ _); [done |].
  destruct (insertTransaction _ _); [done |].
  intros [= <- <-] Hexact. unfold totalBalance, saveBalance. cbn.
  assert (Hids : Account._id src ≠ Account._id dst).
  { intros Heq. apply Hne.
    apply findActiveAccount_some in Hsrc as (Hsin & <- & _).
    apply findActiveAccount_some in Hdst as (Hdin & <- & _).
    f_equal. by apply (wellFormed_id_inj s). }
  cbn in Hexact.
  pose proof (Hexact _ row1 ltac:(by left) Hrow1) as Hsource.
  pose proof (Hexact _ row2 ltac:(right; by left) Hrow2) as Hdestination.
  unfold signed in Hsource, Hdestination. cbn in Hsource, Hdestination.
  rewrite (total_insert _ _ row2) by (by rewrite lookup_insert_ne).
  rewrite (total_insert _ _ row1) by done. cbn.
  rewrite (minus_exact _ _ Hsource), (plus_exact _ _ Hdestination). ring.
Qed.

(** C7: a deposit that succeeds raises the sum of all balances, customer
    and system accounts together, by what it adds to the customer balance,
    which is the deposited amount whenever the new balance has no more than
    20 significant digits: the customer balance is credited and the debit on
    the DEPOSITS system account is entered in the journal but never applied
    to its balance. *)
Theorem createDeposit_creates_money
    (env : Env) (depositData : DepositTransactionDTO.t) (s s1 : State)
    (tx : Transaction.t) :
  createDeposit env depositData s = (s1, Ok tx) →
  Transaction.status tx = COMPLETED
  ∧ ∃ account row,
      findActiveAccount (DepositTransactionDTO.accountNumber depositData) s = Some account
      ∧ accountBalances s !! Account._id account = Some row
      ∧ totalBalance s1
        = (totalBalance s
           + (plus (AccountBalance.balance row) (DepositTransactionDTO.amount depositData)
              - AccountBalance.balance row))%Qc
      ∧ (withinPrecision
           (AccountBalance.balance row + DepositTransactionDTO.amount depositData)%Qc →
         totalBalance s1 = (totalBalance s + DepositTransactionDTO.amount depositData)%Qc).
Proof.
  intros Hrun.
  destruct (perform_ok env (Deposit depositData) s s1 tx Hrun)
    as (_ & _ & Hstatus & _).
  split; [done |]. revert Hrun. unfold createDeposit.
  destruct (findActiveAccount _ s) as [account|]; [| done].
  case_bool_decide; [| done]. cbn [negb].
  destruct (accountBalances s !! _) as [row|] eqn:Hrow; [| done].
  destruct (getSystemAccount _ _ _ _) as [s0 [id|]] eqn:Hsys; [| done].
  apply getSystemAccount_inv in Hsys as [_ Hbals].
  destruct (insertTransaction _ _) as [|txs']; [done |].
  intros [= <- _]. exists account, row.
  assert (Htotal : totalBalance
                     (commitTransaction txs'
                        (saveBalance env (Account._id account) row
                           (plus (AccountBalance.balance row)
                                 (DepositTransactionDTO.amount depositData))
                           (accountBalances s0)) s0)
                   = (totalBalance s
                      + (plus (AccountBalance.balance row)
                              (DepositTransactionDTO.amount depositData)
                         - AccountBalance.balance row))%Qc).
  { unfold totalBalance, commitTransaction, saveBalance.
    cbn [accountBalances set_accountBalances set_transactions].
    destruct Hbals as [-> | [Hnew ->]].
    - rewrite (total_insert _ _ row) by done. cbn. ring.
    - assert (Hne : id ≠ Account._id account) by (intros ->; congruence).
      rewrite (total_insert _ _ row) by (by rewrite lookup_insert_ne).
      rewrite total_insert_new by done. cbn. ring. }
  split_and!; [done | done | exact Htotal |].
  intros Hexact. etransitivity; [exact Htotal |]. rewrite (plus_exact _ _ Hexact). ring.
Qed.

(** Alice's deposit of 50: the balances add up to 130 before and to 180
    after. *)
Lemma createDeposit_creates_money_witness :
  totalBalance Sample.ledger = dec 130 1
  ∧ totalBalance Sample.afterDeposit = (dec 130 1 + dec 50 1)%Qc.
Proof.
  assert (Hbefore : totalBalance Sample.ledger = dec 130 1) by (by vm_compute).
  split; [exact Hbefore |]. rewrite <- Hbefore.
  edestruct (createDeposit_creates_money Sample.env1 Sample.deposit50 Sample.ledger)
    as (_ & account & row & Haccount & Hrow & _ & Hexact); [vm_compute; reflexivity |].
  apply Hexact. clear Hexact. revert Hrow. revert Haccount.
  intros [= <-] [= <-]. exists 150%Z, 0%Z. split; [done |].
  apply Qc_is_canon. reflexivity.
Defined.

(** ** The sweep of pending transactions *)

(** C1: in a sweep that picks up two deferred transfers, the second of
    which fails on its second entry, the credit of 100 that the failed
    transfer had already entered on Alice's account stays on her balance
    (205, not 105) although the transfer is marked FAILED with its
    failure reason; the first transfer stays COMPLETED, and the sweep
    reports one processed and one failed transaction. *)
Theorem processPendingTransactions_keeps_partial_writes :
  snd (processPendingTransactions Sample.env1 Sample.ledgerWithDeferred)
  = mkSweepResult 1 1 [Transaction.transactionId Sample.deferred]
  ∧ (fun t => (Transaction.transactionId t, Transaction.status t, Transaction.failureReason t))
      <$> transactions Sample.afterSweep
    = [ (Transaction.transactionId Sample.deferredSmall, COMPLETED, None);
        (Transaction.transactionId Sample.deferred, FAILED,
         Some "Insufficient funds for transaction") ]
  ∧ balanceOf Sample.ledgerWithDeferred (Account._id Sample.alice) = Some (dec 100 1)
  ∧ balanceOf Sample.afterSweep (Account._id Sample.alice) = Some (dec 205 1)
  ∧ balanceOf Sample.afterSweep (Account._id Sample.bob) = Some (dec 25 1).
Proof.
  split_and!; [by vm_compute | by vm_compute | ..];
    apply balance_by_value; by vm_compute.
Qed.

(** ** Invariants of the store *)

Section Invariants.

Implicit Types (s : State) (bals : gmap string AccountBalance.t).

(** Replacing the journal, and the balances by balances with the same rows,
    keeps a state consistent. *)
Lemma consistent_same_rows s txs bals :
  consistent s →
  (∀ id, is_Some (bals !! id) ↔ is_Some (accountBalances s !! id)) →
  consistent (commitTransaction txs bals s).
Proof.
  intros ((Hnodup & Hrows) & Honly & Hcache) Hsame.
  repeat split; cbn; try done.
  - intros a Ha. apply Hsame. by apply Hrows.
  - intros id Hid. apply Honly. by apply Hsame.
Qed.

Lemma saveBalance_rows env id row b bals :
  is_Some (bals !! id) →
  ∀ id', is_Some (saveBalance env id row b bals !! id') ↔ is_Some (bals !! id').
Proof.
  intros Hid id'. unfold saveBalance. rewrite lookup_insert_is_Some.
  split; [by intros [<- | [_ ?]] |].
  intros Hid'. destruct (decide (id = id')); [by left | by right].
Qed.

Lemma applyEntries_rows env what entries bals id :
  is_Some (fst (applyEntries env what entries bals) !! id) ↔ is_Some (bals !! id).
Proof.
  revert bals. induction entries as [|entry rest IH]; intros bals; cbn; [done |].
  destruct (bals !! Entry.accountId entry) as [row|] eqn:Hrow; [| done].
  case_bool_decide.
  - rewrite IH. by apply saveBalance_rows.
  - destruct (isNegative _); [done |]. rewrite IH. by apply saveBalance_rows.
Qed.

Lemma getSystemAccount_consistent env accountType currency s :
  consistent s → consistent (fst (getSystemAccount env accountType currency s)).
Proof.
  intros Hs. pose proof Hs as ((Hnodup & Hrows) & Honly & Hcache).
  unfold getSystemAccount.
  destruct (systemAccounts s !! _) as [id|]; [done |].
  destruct (List.find _ _) as [found|] eqn:Hfound.
  { apply find_some_elem in Hfound as [Hin Hp].
    apply andb_true_iff in Hp as [Hp _].
    apply andb_true_iff in Hp as [Htype%bool_decide_eq_true _].
    repeat split; cbn; try done.
    intros key id [[_ <-] | [_ Hold]]%lookup_insert_Some; eauto. }
  unfold insertAccount. cbn [Account._id Account.accountNumber].
  case_bool_decide as Hid; [done |]. case_bool_decide as Hnumber; [done |].
  unfold insertBalance. cbn [accountBalances set_accounts].
  destruct (accountBalances s !! objectId env) eqn:Hrow.
  { exfalso. apply Hid. apply Honly. by rewrite Hrow. }
  repeat split; cbn.
  - rewrite fmap_app. apply NoDup_app. split; [done |]. split.
    + intros id Hin ->%list_elem_of_singleton. done.
    + apply NoDup_singleton.
  - intros a [Ha | ->%list_elem_of_singleton]%elem_of_app.
    + apply lookup_insert_is_Some'. right. by apply Hrows.
    + cbn. by rewrite lookup_insert_eq.
  - intros id [-> | [_ Hold]]%lookup_insert_is_Some; rewrite fmap_app, elem_of_app.
    + right. by apply list_elem_of_singleton.
    + left. by apply Honly.
  - intros key id [[_ <-] | [_ Hold]]%lookup_insert_Some.
    + eexists. split; [apply elem_of_app; right; by apply list_elem_of_singleton |]. done.
    + destruct (Hcache key id Hold) as (a & Ha & Hid' & Htype).
      exists a. split; [apply elem_of_app; by left | done].
Qed.

(** The account a successful [getSystemAccount] hands out is an account of
    type SYSTEM already on record, or one created under an object id that no
    account had. *)
Lemma getSystemAccount_account env accountType currency s s1 id :
  consistent s →
  getSystemAccount env accountType currency s = (s1, Ok id) →
  (∃ a, a ∈ accounts s ∧ Account._id a = id ∧ Account.accountType a = AccountType.SYSTEM)
  ∨ id ∉ (Account._id <$> accounts s).
Proof.
  intros (_ & _ & Hcache). unfold getSystemAccount.
  destruct (systemAccounts s !! _) as [cached|] eqn:Hc.
  { intros [= <- <-]. left. eauto. }
  destruct (List.find _ _) as [found|] eqn:Hfound.
  { apply find_some_elem in Hfound as [Hin Hp].
    apply andb_true_iff in Hp as [Hp _].
    apply andb_true_iff in Hp as [Htype%bool_decide_eq_true _].
    intros [= <- <-]. left. eauto. }
  unfold insertAccount. cbn [Account._id Account.accountNumber].
  case_bool_decide as Hid; [done |]. case_bool_decide; [done |].
  destruct (insertBalance _ _ _); [done |].
  intros [= <- <-]. by right.
Qed.

End Invariants.

(** X1: every operation of the service keeps the store consistent, whether it
    succeeds or fails. *)
Theorem operations_keep_consistent (env : Env) (s : State) :
  consistent s →
  (∀ op, consistent (fst (perform env op s)))
  ∧ (∀ reversalData, consistent (fst (reverseTransaction env reversalData s)))
  ∧ consistent (fst (processPendingTransactions env s)).
Proof.
  intros Hs. split; [| split].
  - assert (Hone : ∀ accountType currency account row b txs s1 r,
              getSystemAccount env accountType currency s = (s1, r) →
              accountBalances s !! Account._id account = Some row →
              consistent s1
              ∧ consistent (commitTransaction txs
                              (saveBalance env (Account._id account) row b (accountBalances s1))
                              s1)).
    { intros accountType currency account row b txs s1 r Hsys Hrow.
      assert (Hs1 : consistent s1).
      { change s1 with (fst (s1, r)). rewrite <- Hsys.
        by apply getSystemAccount_consistent. }
      split; [done |]. apply consistent_same_rows; [done |].
      apply saveBalance_rows.
      destruct r as [id|e].
      - apply getSystemAccount_inv in Hsys as [_ [-> | [Hnew ->]]]; [by rewrite Hrow |].
        apply lookup_insert_is_Some'. right. by rewrite Hrow.
      - revert Hsys. unfold getSystemAccount.
        destruct (systemAccounts s !! _); [done |].
        destruct (List.find _ _); [done |].
        destruct (insertAccount _ _); [by intros [= <- _]; rewrite Hrow |].
        unfold insertBalance. cbn.
        destruct (accountBalances s !! objectId env); [| done].
        intros [= <- _]. cbn. by rewrite Hrow. }
    intros [d | d | d | d]; cbn [perform].
    + unfold createDeposit.
      destruct (findActiveAccount _ s) as [account|]; [| done].
      case_bool_decide; [| done]. cbn [negb].
      destruct (accountBalances s !! _) as [row|] eqn:Hrow; [| done].
      destruct (getSystemAccount _ _ _ _) as [s1 r] eqn:Hsys.
      destruct r as [id|e]; [| exact (proj1 (Hone _ _ _ _ 0%Qc [] _ _ Hsys Hrow))].
      destruct (insertTransaction _ _) as [|txs];
        [exact (proj1 (Hone _ _ _ _ 0%Qc [] _ _ Hsys Hrow))
        | exact (proj2 (Hone _ _ _ _ _ _ _ _ Hsys Hrow))].
    + unfold createWithdrawal.
      destruct (findActiveAccount _ s) as [account|]; [| done].
      case_bool_decide; [| done]. cbn [negb].
      destruct (accountBalances s !! _) as [row|] eqn:Hrow; [| done].
      destruct (lessThan _ _); [done |].
      destruct (getSystemAccount _ _ _ _) as [s1 r] eqn:Hsys.
      destruct r as [id|e]; [| exact (proj1 (Hone _ _ _ _ 0%Qc [] _ _ Hsys Hrow))].
      destruct (insertTransaction _ _) as [|txs];
        [exact (proj1 (Hone _ _ _ _ 0%Qc [] _ _ Hsys Hrow))
        | exact (proj2 (Hone _ _ _ _ _ _ _ _ Hsys Hrow))].
    + unfold createTransfer.
      case_bool_decide; [done |].
      destruct (findActiveAccount _ s) as [src|]; [| done].
      destruct (findActiveAccount _ s) as [dst|]; [| done].
      do 3 (case_bool_decide; [| done]). cbn [negb].
      destruct (accountBalances s !! Account._id src) as [row1|] eqn:Hrow1; [| done].
      destruct (accountBalances s !! Account._id dst) as [row2|] eqn:Hrow2; [| done].
      destruct (lessThan _ _); [done |].
      destruct (insertTransaction _ _); [done |]. cbn [fst].
      apply consistent_same_rows; [done |]. intros id.
      rewrite saveBalance_rows, saveBalance_rows; [done | by rewrite Hrow1 |].
      apply saveBalance_rows; [by rewrite Hrow1 | by rewrite Hrow2].
    + unfold createFee.
      destruct (findActiveAccount _ s) as [account|]; [| done].
      case_bool_decide; [| done]. cbn [negb].
      destruct (accountBalances s !! _) as [row|] eqn:Hrow; [| done].
      destruct (lessThan _ _); [done |].
      destruct (getSystemAccount _ _ _ _) as [s1 r] eqn:Hsys.
      destruct r as [id|e]; [| exact (proj1 (Hone _ _ _ _ 0%Qc [] _ _ Hsys Hrow))].
      destruct (insertTransaction _ _) as [|txs];
        [exact (proj1 (Hone _ _ _ _ 0%Qc [] _ _ Hsys Hrow))
        | exact (proj2 (Hone _ _ _ _ _ _ _ _ Hsys Hrow))].
  - intros reversalData. unfold reverseTransaction.
    destruct (findCompleted _ s); [| done].
    destruct (findReversalOf _ s); [done |].
    destruct (insertTransaction _ _); [done |].
    destruct (applyEntries _ _ _ _) as [bals [e|]] eqn:Hrun; [done |]. cbn [fst].
    apply consistent_same_rows; [done |]. intros id.
    change bals with (fst (bals, @None ApiError)). rewrite <- Hrun.
    apply applyEntries_rows.
  - unfold processPendingTransactions.
    set (pending := filter _ _).
    assert (Hfold : ∀ acc,
              (∀ id, is_Some (acc.1.1.2 !! id) ↔ is_Some (accountBalances s !! id)) →
              ∀ id, is_Some ((fold_left (processOne env) pending acc).1.1.2 !! id)
                    ↔ is_Some (accountBalances s !! id)).
    { induction pending as [|t rest IH]; intros acc Hacc; [done |].
      cbn [fold_left]. apply IH. intros id. rewrite <- Hacc.
      destruct acc as [[[txs bals] done'] failed']. unfold processOne.
      pose proof (applyEntries_rows env "Insufficient funds for transaction"
                    (Transaction.entries (Transaction.set_status PROCESSING t)) bals id)
        as Hrows.
      destruct (applyEntries _ _ _ _) as [bals' [e|]]; exact Hrows. }
    specialize (Hfold (transactions s, accountBalances s, [], []) (fun _ => reflexivity _)).
    destruct (fold_left _ _ _) as [[[txs bals] done'] failed']. cbn [fst].
    by apply consistent_same_rows.
Qed.

Lemma sample_ledger_consistent : consistent Sample.ledger.
Proof.
  repeat split.
  - by_evaluation.
  - intros a Ha. apply list_elem_of_In in Ha. cbn in Ha.
    destruct Ha as [<- | [<- | [<- | []]]]; by_evaluation.
  - intros id Hid. cbn in Hid.
    repeat (apply lookup_insert_is_Some in Hid as [<- | [_ Hid]]; [by_evaluation |]).
    by apply is_Some_None in Hid.
  - intros key id Hkey. cbn in Hkey. by rewrite lookup_empty in Hkey.
Qed.

(** The sample ledger stays consistent after Alice's deposit. *)
Lemma operations_keep_consistent_witness : consistent Sample.afterDeposit.
Proof.
  apply (proj1 (operations_keep_consistent Sample.env1 Sample.ledger
                  sample_ledger_consistent) (Deposit Sample.deposit50)).
Defined.

(** X4: in a consistent state, the two entries of a direct operation on an
    account that is not of type SYSTEM are on distinct accounts. *)
Lemma direct_entries_distinct env op s s1 tx :
  consistent s →
  perform env op s = (s1, Ok tx) →
  (∀ a, findActiveAccount (requestedAccountNumber op) s = Some a →
        Account.accountType a ≠ AccountType.SYSTEM) →
  NoDup (Entry.accountId <$> Transaction.entries tx).
Proof.
  intros Hs Hrun Hcustomer.
  assert (Hpair : ∀ (a b : string), a ≠ b → NoDup [a; b]).
  { intros a b Hab. apply NoDup_cons. split; [| apply NoDup_singleton].
    by intros ->%list_elem_of_singleton. }
  assert (Hsys : ∀ accountType currency account s0 id,
            findActiveAccount (requestedAccountNumber op) s = Some account →
            getSystemAccount env accountType currency s = (s0, Ok id) →
            Account._id account ≠ id).
  { intros accountType currency account s0 id Hacc Hget Heq.
    apply findActiveAccount_some in Hacc as Hin. destruct Hin as (Hin & _ & _).
    destruct (getSystemAccount_account _ _ _ _ _ _ Hs Hget)
      as [(a & Ha & Hid & Htype) | Hnew].
    - apply (Hcustomer account Hacc).
      rewrite <- Htype. f_equal.
      apply (wellFormed_id_inj s); [apply Hs | done | done | congruence].
    - apply Hnew. rewrite <- Heq. by apply list_elem_of_fmap_2. }
  destruct op as [d | d | d | d]; cbn [perform requestedAccountNumber] in *.
  - revert Hrun. unfold createDeposit.
    destruct (findActiveAccount _ s) as [account|] eqn:Hacc; [| done].
    case_bool_decide; [| done]. cbn [negb].
    destruct (accountBalances s !! _); [| done].
    destruct (getSystemAccount _ _ _ _) as [s0 [id|]] eqn:Hget; [| done].
    destruct (insertTransaction _ _); [done |].
    intros [= _ <-]. cbn. apply Hpair. eauto.
  - revert Hrun. unfold createWithdrawal.
    destruct (findActiveAccount _ s) as [account|] eqn:Hacc; [| done].
    case_bool_decide; [| done]. cbn [negb].
    destruct (accountBalances s !! _); [| done].
    destruct (lessThan _ _); [done |].
    destruct (getSystemAccount _ _ _ _) as [s0 [id|]] eqn:Hget; [| done].
    destruct (insertTransaction _ _); [done |].
    intros [= _ <-]. cbn. apply Hpair. eauto.
  - clear Hcustomer Hsys. revert Hrun. unfold createTransfer.
    case_bool_decide as Hne; [done |].
    destruct (findActiveAccount (TransferTransactionDTO.fromAccountNumber d) s)
      as [src|] eqn:Hsrc; [| done].
    destruct (findActiveAccount (TransferTransactionDTO.toAccountNumber d) s)
      as [dst|] eqn:Hdst; [| done].
    do 3 (case_bool_decide; [| done]). cbn [negb].
    destruct (accountBalances s !! Account._id src); [| done].
    destruct (accountBalances s !! Account._id dst); [| done].
    destruct (lessThan _ _); [done |].
    destruct (insertTransaction _ _); [done |].
    intros [= _ <-]. cbn. apply Hpair. intros Heq. apply Hne.
    apply findActiveAccount_some in Hsrc as (Hsin & <- & _).
    apply findActiveAccount_some in Hdst as (Hdin & <- & _).
    f_equal. apply (wellFormed_id_inj s); [apply Hs | done | done | done].
  - revert Hrun. unfold createFee.
    destruct (findActiveAccount _ s) as [account|] eqn:Hacc; [| done].
    case_bool_decide; [| done]. cbn [negb].
    destruct (accountBalances s !! _); [| done].
    destruct (lessThan _ _); [done |].
    destruct (getSystemAccount _ _ _ _) as [s0 [id|]] eqn:Hget; [| done].
    destruct (insertTransaction _ _); [done |].
    intros [= _ <-]. cbn. apply Hpair. eauto.
Qed.

(** ** The journal over time *)

Section Journal.

Lemma updateTransaction_ids tx txs :
  Transaction.transactionId <$> updateTransaction tx txs = Transaction.transactionId <$> txs.
Proof.
  unfold updateTransaction. rewrite <- list_fmap_compose. apply list_fmap_ext.
  intros i t _. cbn. by case_bool_decide.
Qed.

(** Saving a version of a record that is in the journal leaves every record
    of the journal a version of what it was. *)
Lemma updateTransaction_sameRecord original p p' txs :
  NoDup (Transaction.transactionId <$> original) →
  p ∈ original →
  sameRecord p p' →
  Forall2 sameRecord original txs →
  Forall2 sameRecord original (updateTransaction p' txs).
Proof.
  intros Hnodup Hp (Hid & Htype & Hmeta) Hrel. unfold updateTransaction.
  apply Forall2_same_length_lookup_2.
  { rewrite length_fmap. by eapply Forall2_length. }
  intros i t t'' Hi Hi''. rewrite list_lookup_fmap in Hi''.
  destruct (txs !! i) as [t'|] eqn:Hi'; [| done]. injection Hi'' as <-.
  destruct (Forall2_lookup_lr _ _ _ _ _ _ Hrel Hi Hi') as (Hid' & Htype' & Hmeta').
  case_bool_decide as Heq; [| done].
  assert (t = p) as ->; [| done].
  apply list_elem_of_lookup in Hp as [j Hj].
  assert (i = j) as ->; [| congruence].
  eapply NoDup_lookup; [exact Hnodup | |].
  - by rewrite list_lookup_fmap, Hi.
  - rewrite list_lookup_fmap, Hj. cbn. congruence.
Qed.

Lemma sameRecord_refl t : sameRecord t t.
Proof. done. Qed.

(** The journal after a direct operation: as it was, or with one new
    transaction under a transaction id that was not in use. *)
Lemma perform_journal env op s :
  transactions (fst (perform env op s)) = transactions s
  ∨ ∃ tx, transactions (fst (perform env op s)) = transactions s ++ [tx]
          ∧ Transaction.transactionId tx ∉ (Transaction.transactionId <$> transactions s).
Proof.
  destruct (perform env op s) as [s1 [tx|e]] eqn:Hrun.
  { apply perform_ok in Hrun as (Htxs & Hfresh & _). right. eauto. }
  left. cbn [fst].
  assert (Hsys : ∀ accountType currency s0 r,
            getSystemAccount env accountType currency s = (s0, r) →
            transactions s0 = transactions s).
  { intros accountType currency s0 r Hget.
    change s0 with (fst (s0, r)). rewrite <- Hget.
    unfold getSystemAccount.
    destruct (systemAccounts s !! _); [done |].
    destruct (List.find _ _); [done |].
    destruct (insertAccount _ _); [done |].
    by destruct (insertBalance _ _ _). }
  destruct op as [d | d | d | d]; cbn [perform] in Hrun; revert Hrun.
  - unfold createDeposit.
    destruct (findActiveAccount _ s); [| by intros [= <- _]].
    case_bool_decide; [| by intros [= <- _]]. cbn [negb].
    destruct (accountBalances s !! _); [| by intros [= <- _]].
    destruct (getSystemAccount _ _ _ _) as [s0 r] eqn:Hget.
    destruct r; [| intros [= <- _]; by eapply Hsys].
    destruct (insertTransaction _ _); [intros [= <- _]; by eapply Hsys | done].
  - unfold createWithdrawal.
    destruct (findActiveAccount _ s); [| by intros [= <- _]].
    case_bool_decide; [| by intros [= <- _]]. cbn [negb].
    destruct (accountBalances s !! _); [| by intros [= <- _]].
    destruct (lessThan _ _); [by intros [= <- _] |].
    destruct (getSystemAccount _ _ _ _) as [s0 r] eqn:Hget.
    destruct r; [| intros [= <- _]; by eapply Hsys].
    destruct (insertTransaction _ _); [intros [= <- _]; by eapply Hsys | done].
  - unfold createTransfer.
    case_bool_decide; [by intros [= <- _] |].
    destruct (findActiveAccount _ s) as [src|]; [| by intros [= <- _]].
    destruct (findActiveAccount _ s) as [dst|]; [| by intros [= <- _]].
    do 3 (case_bool_decide; [| by intros [= <- _]]). cbn [negb].
    destruct (accountBalances s !! Account._id src); [| by intros [= <- _]].
    destruct (accountBalances s !! Account._id dst); [| by intros [= <- _]].
    destruct (lessThan _ _); [by intros [= <- _] |].
    destruct (insertTransaction _ _); [by intros [= <- _] | done].
  - unfold createFee.
    destruct (findActiveAccount _ s); [| by intros [= <- _]].
    case_bool_decide; [| by intros [= <- _]]. cbn [negb].
    destruct (accountBalances s !! _); [| by intros [= <- _]].
    destruct (lessThan _ _); [by intros [= <- _] |].
    destruct (getSystemAccount _ _ _ _) as [s0 r] eqn:Hget.
    destruct r; [| intros [= <- _]; by eapply Hsys].
    destruct (insertTransaction _ _); [intros [= <- _]; by eapply Hsys | done].
Qed.

Lemma reverseTransaction_journal env reversalData s :
  transactions (fst (reverseTransaction env reversalData s)) = transactions s
  ∨ ∃ tx, transactions (fst (reverseTransaction env reversalData s)) = transactions s ++ [tx]
          ∧ Transaction.transactionId tx ∉ (Transaction.transactionId <$> transactions s).
Proof.
  unfold reverseTransaction.
  destruct (findCompleted _ s) as [original|]; [| by left].
  destruct (findReversalOf _ s); [by left |].
  destruct (insertTransaction _ _) as [|txs] eqn:Hins; [by left |].
  apply (insert_complete_inv env) in Hins as [Hupd Hfresh].
  destruct (applyEntries _ _ _ _) as [bals [e|]]; [by left |].
  right. exists (Transaction.schemaPaths (complete env (newReversal env reversalData original))).
  by rewrite Hupd.
Qed.

(** The sweep changes no record's transaction id, type or metadata. *)
Lemma processPendingTransactions_journal env s :
  uniqueTransactionIds s →
  Forall2 sameRecord (transactions s)
    (transactions (fst (processPendingTransactions env s))).
Proof.
  intros Hunique. unfold processPendingTransactions.
  set (pending := filter _ _).
  assert (Hpending : ∀ p, p ∈ pending → p ∈ transactions s).
  { intros p Hp. by apply list_elem_of_filter in Hp as [_ Hp]. }
  assert (Hfold : ∀ acc,
            Forall2 sameRecord (transactions s) acc.1.1.1 →
            Forall2 sameRecord (transactions s)
              (fold_left (processOne env) pending acc).1.1.1).
  { clearbody pending.
    induction pending as [|p rest IH]; intros acc Hacc; [done |].
    cbn [fold_left]. apply IH.
    { intros q Hq. apply Hpending. by right. }
    destruct acc as [[[txs bals] done'] failed']. unfold processOne.
    assert (Hp : p ∈ transactions s) by (apply Hpending; by left).
    destruct (applyEntries _ _ _ _) as [bals' [e|]]; cbn [fst];
      (eapply updateTransaction_sameRecord; [done | exact Hp | done |];
       eapply updateTransaction_sameRecord; [done | exact Hp | done | done]). }
  specialize (Hfold (transactions s, accountBalances s, [], [])).
  destruct (fold_left _ _ _) as [[[txs bals] done'] failed']. cbn.
  apply Hfold. cbn. apply Forall_Forall2_diag, Forall_forall. intros. done.
Qed.

Lemma sameRecord_ids original txs :
  Forall2 sameRecord original txs →
  Transaction.transactionId <$> txs = Transaction.transactionId <$> original.
Proof.
  induction 1 as [|t t' original txs (Hid & _) _ IH]; [done |].
  by rewrite !fmap_cons, Hid, IH.
Qed.

(** No operation of the service removes a reversal from the journal, or
    breaks the uniqueness of transaction ids. *)
Lemma Step_journal s s' :
  Step s s' →
  uniqueTransactionIds s →
  uniqueTransactionIds s'
  ∧ ∀ transactionId, reversalOnRecord transactionId s → reversalOnRecord transactionId s'.
Proof.
  assert (Happended : ∀ s s',
            (transactions s' = transactions s
             ∨ ∃ tx, transactions s' = transactions s ++ [tx]
                     ∧ Transaction.transactionId tx
                       ∉ (Transaction.transactionId <$> transactions s)) →
            uniqueTransactionIds s →
            uniqueTransactionIds s'
            ∧ ∀ transactionId,
                reversalOnRecord transactionId s → reversalOnRecord transactionId s').
  { clear. intros s s' [Hsame | (tx & Happ & Hfresh)] Hunique;
      unfold uniqueTransactionIds, reversalOnRecord.
    - by rewrite Hsame.
    - rewrite Happ. split.
      + rewrite fmap_app. apply NoDup_app. split; [done |]. split.
        * by intros id Hin ->%list_elem_of_singleton.
        * apply NoDup_singleton.
      + intros id (existing & Hin & Hrest). exists existing.
        split; [apply elem_of_app; by left | done]. }
  intros [env op s0 | env reversalData s0 | env s0] Hunique.
  - apply Happended; [apply perform_journal | done].
  - apply Happended; [apply reverseTransaction_journal | done].
  - pose proof (processPendingTransactions_journal env s0 Hunique) as Hrel.
    split.
    + unfold uniqueTransactionIds. by rewrite (sameRecord_ids _ _ Hrel).
    + intros id (existing & Hin & Htype & Hmeta).
      apply list_elem_of_lookup in Hin as [i Hi].
      destruct (Forall2_lookup_l _ _ _ _ _ Hrel Hi) as (t' & Hi' & _ & Htype' & Hmeta').
      exists t'. split; [by eapply list_elem_of_lookup_2 |].
      by rewrite Htype', Hmeta'.
Qed.

Lemma reverseTransaction_refused env reversalData s :
  reversalOnRecord (ReversalTransactionDTO.originalTransactionId reversalData) s →
  ∃ e, reverseTransaction env reversalData s = (s, Err e)
       ∧ (is_Some (findCompleted (ReversalTransactionDTO.originalTransactionId reversalData) s) →
          name e = BadRequestError
          ∧ message e = "Transaction has already been reversed").
Proof.
  intros (existing & Hin & Htype & Hmeta). unfold reverseTransaction.
  destruct (findCompleted _ s) as [original|]; [| eexists; split; [done | by intros [? ?]]].
  destruct (findReversalOf _ s) as [found|] eqn:Hfound; [by eexists |].
  apply (find_none_elem _ _ existing) in Hfound; [| done].
  simpl in Hfound. by rewrite !bool_decide_eq_true_2 in Hfound.
Qed.

End Journal.

(** C10: a reversal on record for the original transaction, whatever its
    status (PENDING, PROCESSING, FAILED or COMPLETED), makes
    [reverseTransaction] fail and leave the state as it is, with the
    already-reversed error whenever the original is on record as COMPLETED;
    and since no operation of the service removes the record from a journal
    with unique transaction ids, the same holds in every state reached from
    there by any sequence of operations: a FAILED reversal blocks every
    later reversal of that original. *)
Theorem reverseTransaction_blocked_by_any_reversal
    (reversalData : ReversalTransactionDTO.t) (s : State) (existing : Transaction.t) :
  existing ∈ transactions s →
  Transaction.transactionType existing = REVERSAL →
  Transaction.metadata existing !! "originalTransactionId"
    = Some (ReversalTransactionDTO.originalTransactionId reversalData) →
  (∀ env,
     ∃ e, reverseTransaction env reversalData s = (s, Err e)
          ∧ (is_Some (findCompleted
                        (ReversalTransactionDTO.originalTransactionId reversalData) s) →
             name e = BadRequestError
             ∧ message e = "Transaction has already been reversed"))
  ∧ (uniqueTransactionIds s →
     ∀ s', rtc Step s s' →
     ∀ env,
       ∃ e, reverseTransaction env reversalData s' = (s', Err e)
            ∧ (is_Some (findCompleted
                          (ReversalTransactionDTO.originalTransactionId reversalData) s') →
               name e = BadRequestError
               ∧ message e = "Transaction has already been reversed")).
Proof.
  intros Hin Htype Hmeta.
  assert (Hrecord : reversalOnRecord
                      (ReversalTransactionDTO.originalTransactionId reversalData) s)
    by (by exists existing).
  clear Hin Htype Hmeta. split.
  - intros env. by apply reverseTransaction_refused.
  - intros Hunique s' Hsteps env. apply reverseTransaction_refused.
    induction Hsteps as [s | s s1 s' Hstep _ IH]; [done |].
    destruct (Step_journal s s1 Hstep Hunique) as [Hunique1 Hkept]. auto.
Qed.

(** A FAILED reversal of Alice's withdrawal is on record: reversing the
    withdrawal is refused at once, and still refused after a later
    deposit. *)
Lemma reverseTransaction_blocked_by_any_reversal_witness :
  (∃ e, reverseTransaction Sample.env2 (Sample.reversalOf Sample.withdrawalId)
          Sample.ledgerWithFailedReversal
        = (Sample.ledgerWithFailedReversal, Err e)
        ∧ (is_Some (findCompleted Sample.withdrawalId Sample.ledgerWithFailedReversal) →
           name e = BadRequestError
           ∧ message e = "Transaction has already been reversed"))
  ∧ ∃ e, reverseTransaction Sample.env3 (Sample.reversalOf Sample.withdrawalId)
           (fst (createDeposit Sample.env2 Sample.deposit50 Sample.ledgerWithFailedReversal))
         = (fst (createDeposit Sample.env2 Sample.deposit50 Sample.ledgerWithFailedReversal),
            Err e)
         ∧ (is_Some (findCompleted Sample.withdrawalId
                       (fst (createDeposit Sample.env2 Sample.deposit50
                               Sample.ledgerWithFailedReversal))) →
            name e = BadRequestError
            ∧ message e = "Transaction has already been reversed").
Proof.
  assert (Hin : Sample.failedReversal Sample.withdrawalId
                ∈ transactions Sample.ledgerWithFailedReversal).
  { apply list_elem_of_In. vm_compute. right. left. reflexivity. }
  destruct (reverseTransaction_blocked_by_any_reversal
              (Sample.reversalOf Sample.withdrawalId) Sample.ledgerWithFailedReversal
              (Sample.failedReversal Sample.withdrawalId) Hin eq_refl eq_refl)
    as [Hnow Hlater].
  split; [apply Hnow |].
  apply Hlater; [by_evaluation |].
  apply rtc_once. apply (step_perform Sample.env2 (Deposit Sample.deposit50)).
Defined.

(** * More on the service *)

(** ** The sum of all balances, on the sample ledger *)

(** Alice's transfer of 40 to Bob leaves the sum of all balances as it
    was. *)
Lemma createTransfer_conserves_witness :
  totalBalance (fst (createTransfer Sample.env1 Sample.transfer40 Sample.ledger))
  = totalBalance Sample.ledger.
Proof.
  eapply (createTransfer_conserves Sample.env1 Sample.transfer40 Sample.ledger).
  - apply sample_ledger_consistent.
  - vm_compute. reflexivity.
  - intros entry row Hin Hrow. apply list_elem_of_In in Hin. cbn in Hin.
    destruct Hin as [<- | [<- | []]]; vm_compute in Hrow; injection Hrow as <-.
    + within_precision 60%Z.
    + within_precision 70%Z.
Defined.

(** Reversing Alice's deposit leaves the sum of all balances as the deposit
    left it. *)
Lemma reverseTransaction_conserves_witness :
  totalBalance Sample.afterDepositReversal = totalBalance Sample.afterDeposit.
Proof.
  eapply (reverseTransaction_conserves Sample.env2 (Sample.reversalOf Sample.depositId)
            Sample.afterDeposit).
  - vm_compute. reflexivity.
  - vm_compute. reflexivity.
  - by_evaluation.
  - by_evaluation.
  - intros entry row Hin Hrow. apply list_elem_of_In in Hin. cbn in Hin.
    destruct Hin as [<- | [<- | []]]; vm_compute in Hrow; injection Hrow as <-.
    + within_precision 100%Z.
    + within_precision 50%Z.
Defined.

(** The two entries of Alice's deposit are on two accounts. *)
Lemma direct_entries_distinct_witness :
  ∃ tx, snd (perform Sample.env1 (Deposit Sample.deposit50) Sample.ledger) = Ok tx
        ∧ NoDup (Entry.accountId <$> Transaction.entries tx).
Proof.
  eexists. split; [vm_compute; reflexivity |].
  eapply (direct_entries_distinct Sample.env1 (Deposit Sample.deposit50) Sample.ledger).
  - apply sample_ledger_consistent.
  - vm_compute. reflexivity.
  - intros a. vm_compute. intros [= <-]. discriminate.
Defined.

(** ** Fees *)

(** X5: a fee on an existing active account of the declared currency is
    refused with InsufficientFunds, carrying the available balance and the
    requested amount and leaving the state untouched, when the balance is
    below the fee; otherwise (equality included) it appends one COMPLETED
    FEE transaction, with a debit of the amount on the customer account and
    a credit on the FEES system account of the currency, and the customer
    balance becomes the difference of balance and fee as decimal.js computes
    it, to 20 significant digits: exactly the fee is taken off whenever the
    difference has no more digits than that.  No other existing balance
    changes, the balance of the FEES account included. *)
Theorem createFee_sufficiency
    (env : Env) (feeData : FeeTransactionDTO.t) (s : State)
    (account : Account.t) (accountBalance : AccountBalance.t) :
  findActiveAccount (FeeTransactionDTO.accountNumber feeData) s = Some account →
  Account.currency account = FeeTransactionDTO.currency feeData →
  accountBalances s !! Account._id account = Some accountBalance →
  let available := AccountBalance.balance accountBalance in
  let requested := FeeTransactionDTO.amount feeData in
  ((available < requested)%Qc →
   createFee env feeData s
   = (s, Err (mkError InsufficientFundsError "Insufficient funds for fee deduction"
                (FundsDetails available requested))))
  ∧ ((requested ≤ available)%Qc →
     num_isFinite (parseFloat requested) = true →
     freshIn env "FEE" s →
     ∃ s' tx systemId,
       createFee env feeData s = (s', Ok tx)
       ∧ transactions s' = transactions s ++ [Transaction.schemaPaths tx]
       ∧ Transaction.transactionId tx = generateTransactionId env "FEE"
       ∧ Transaction.transactionType tx = FEE
       ∧ Transaction.status tx = COMPLETED
       ∧ Transaction.amount tx = requested
       ∧ Transaction.entries tx
         = [ Entry.mk (Account._id account) DEBIT requested;
             Entry.mk systemId CREDIT requested ]
       ∧ systemAccounts s'
           !! ("FEES_" +:+ currencyString (FeeTransactionDTO.currency feeData))
         = Some systemId
       ∧ balanceOf s' (Account._id account) = Some (minus available requested)
       ∧ (withinPrecision (available - requested)%Qc →
          balanceOf s' (Account._id account) = Some (available - requested)%Qc)
       ∧ (∀ id, id ≠ Account._id account → is_Some (accountBalances s !! id) →
            accountBalances s' !! id = accountBalances s !! id)).
Proof.
  intros Hacc Hcur Hrow available requested. unfold createFee.
  rewrite Hacc, (bool_decide_eq_true_2 _ Hcur), Hrow. cbn [negb].
  fold available requested. split.
  - intros Hlt. by rewrite (proj2 (lessThan_true _ _) Hlt).
  - intros Hle Hfin Hfresh. rewrite (proj2 (lessThan_false _ _) Hle).
    destruct (getSystemAccount_ready env "FEE" "FEES"
                (FeeTransactionDTO.currency feeData) s Hfresh)
      as (s1 & systemId & -> & [Htxs Hcached Hbals]).
    set (tx := newTransaction _).
    destruct (insert_then_complete env tx (transactions s1)) as (txs' & -> & ->).
    { by eapply validateTransaction_pair. }
    { rewrite Htxs. apply Hfresh. }
    eexists _, _, systemId. split; [done |].
    unfold commitTransaction, balanceOf, saveBalance. cbn.
    rewrite Htxs, lookup_insert_eq. split_and!; try done.
    + intros Hexact. cbn. by rewrite (minus_exact _ _ Hexact).
    + intros id Hid [row Hsome]. rewrite lookup_insert_ne by done.
      destruct Hbals as [-> | (Hnone & -> & ->)]; [done |].
      rewrite lookup_insert_ne; [done |]. intros <-. congruence.
Qed.

(** Bob holds 30: a fee of 31 is refused, a fee of 30 empties the account. *)
Lemma createFee_sufficiency_witness :
  createFee Sample.env1 Scenario.fee31 Sample.ledger
  = (Sample.ledger,
     Err (mkError InsufficientFundsError "Insufficient funds for fee deduction"
            (FundsDetails (dec 30 1) (dec 31 1))))
  ∧ ∃ s' tx,
      createFee Sample.env1 Scenario.fee30 Sample.ledger = (s', Ok tx)
      ∧ transactions s' = [Transaction.schemaPaths tx]
      ∧ Transaction.status tx = COMPLETED
      ∧ balanceOf s' (Account._id Sample.bob) = Some (dec 30 1 - dec 30 1)%Qc.
Proof.
  split.
  - apply (createFee_sufficiency Sample.env1 Scenario.fee31 Sample.ledger
             Sample.bob (AccountBalance.mk USD (dec 30 1) 0)); reflexivity.
  - destruct (createFee_sufficiency Sample.env1 Scenario.fee30 Sample.ledger
                Sample.bob (AccountBalance.mk USD (dec 30 1) 0)) as [_ H];
      try reflexivity.
    destruct H as (s' & tx & systemId & Hrun & Htxs & _ & _ & Hstatus & _ & _ & _ & _
                   & Hbal & _).
    + by_evaluation.
    + reflexivity.
    + repeat split; by_evaluation.
    + exists s', tx. repeat split; try assumption.
      apply Hbal. within_precision 0%Z.
Defined.

(** ** Deposits *)

(** X6: a deposit is refused with the not-found error, the state untouched,
    when no active account carries the account number, and with a bad
    request when the account is in another currency.  Otherwise it appends
    one COMPLETED DEPOSIT transaction, with a credit of the amount on the
    customer account and a debit on the DEPOSITS system account of the
    currency, and the customer balance becomes the sum of balance and amount
    as decimal.js computes it, to 20 significant digits: exactly the amount
    is added whenever the sum has no more digits than that.  No other
    existing balance changes, the balance of the DEPOSITS account included.
    The service itself puts no condition on the sign of the amount. *)
Theorem createDeposit_effect
    (env : Env) (depositData : DepositTransactionDTO.t) (s : State) :
  ((∀ a, a ∈ accounts s →
         Account.accountNumber a = DepositTransactionDTO.accountNumber depositData →
         Account.isActive a = false) →
   createDeposit env depositData s
   = (s, Err (mkError NotFoundError "Account not found or inactive" NoDetails)))
  ∧ ∀ account,
      findActiveAccount (DepositTransactionDTO.accountNumber depositData) s = Some account →
      (Account.currency account ≠ DepositTransactionDTO.currency depositData →
       ∃ e, createDeposit env depositData s = (s, Err e) ∧ name e = BadRequestError)
      ∧ ∀ accountBalance,
          Account.currency account = DepositTransactionDTO.currency depositData →
          accountBalances s !! Account._id account = Some accountBalance →
          num_isFinite (parseFloat (DepositTransactionDTO.amount depositData)) = true →
          freshIn env "DEP" s →
          ∃ s' tx systemId,
            createDeposit env depositData s = (s', Ok tx)
            ∧ transactions s' = transactions s ++ [Transaction.schemaPaths tx]
            ∧ Transaction.transactionId tx = generateTransactionId env "DEP"
            ∧ Transaction.transactionType tx = DEPOSIT
            ∧ Transaction.status tx = COMPLETED
            ∧ Transaction.amount tx = DepositTransactionDTO.amount depositData
            ∧ Transaction.entries tx
              = [ Entry.mk (Account._id account) CREDIT
                    (DepositTransactionDTO.amount depositData);
                  Entry.mk systemId DEBIT (DepositTransactionDTO.amount depositData) ]
            ∧ systemAccounts s'
                !! ("DEPOSITS_" +:+ currencyString (DepositTransactionDTO.currency depositData))
              = Some systemId
            ∧ balanceOf s' (Account._id account)
              = Some (plus (AccountBalance.balance accountBalance)
                        (DepositTransactionDTO.amount depositData))
            ∧ (withinPrecision (AccountBalance.balance accountBalance
                                + DepositTransactionDTO.amount depositData)%Qc →
               balanceOf s' (Account._id account)
               = Some (AccountBalance.balance accountBalance
                       + DepositTransactionDTO.amount depositData)%Qc)
            ∧ (∀ id, id ≠ Account._id account → is_Some (accountBalances s !! id) →
                 accountBalances s' !! id = accountBalances s !! id).
Proof.
  split.
  - intros Hinactive. unfold createDeposit.
    destruct (findActiveAccount _ s) as [account|] eqn:Hacc; [| done].
    apply findActiveAccount_some in Hacc as (Hin & Hnumber & Hactive).
    rewrite (Hinactive account Hin Hnumber) in Hactive. discriminate.
  - intros account Hacc. split.
    + intros Hcur. unfold createDeposit.
      rewrite Hacc, (bool_decide_eq_false_2 _ Hcur). cbn [negb]. by eexists.
    + intros accountBalance Hcur Hrow Hfin Hfresh. unfold createDeposit.
      rewrite Hacc, (bool_decide_eq_true_2 _ Hcur), Hrow. cbn [negb].
      destruct (getSystemAccount_ready env "DEP" "DEPOSITS"
                  (DepositTransactionDTO.currency depositData) s Hfresh)
        as (s1 & systemId & -> & [Htxs Hcached Hbals]).
      set (tx := newTransaction _).
      destruct (insert_then_complete env tx (transactions s1)) as (txs' & -> & ->).
      { by eapply validateTransaction_pair. }
      { rewrite Htxs. apply Hfresh. }
      eexists _, _, systemId. split; [done |].
      unfold commitTransaction, balanceOf, saveBalance. cbn.
      rewrite Htxs, lookup_insert_eq. split_and!; try done.
      * intros Hexact. cbn. by rewrite (plus_exact _ _ Hexact).
      * intros id Hid [row Hsome]. rewrite lookup_insert_ne by done.
        destruct Hbals as [-> | (Hnone & -> & ->)]; [done |].
        rewrite lookup_insert_ne; [done |]. intros <-. congruence.
Qed.

(** Nobody holds ACCT-0000-0000-000F: a deposit to it is refused.  Alice's
    deposit of 50 raises her balance of 100 by 50. *)
Lemma createDeposit_effect_witness :
  createDeposit Sample.env1 Scenario.depositToNobody Sample.ledger
  = (Sample.ledger, Err (mkError NotFoundError "Account not found or inactive" NoDetails))
  ∧ ∃ s' tx,
      createDeposit Sample.env1 Sample.deposit50 Sample.ledger = (s', Ok tx)
      ∧ Transaction.status tx = COMPLETED
      ∧ balanceOf s' (Account._id Sample.alice) = Some (dec 100 1 + dec 50 1)%Qc.
Proof.
  split.
  - apply (createDeposit_effect Sample.env1 Scenario.depositToNobody Sample.ledger).
    intros a Ha. apply list_elem_of_In in Ha. cbn in Ha.
    destruct Ha as [<- | [<- | [<- | []]]]; discriminate.
  - destruct (createDeposit_effect Sample.env1 Sample.deposit50 Sample.ledger) as [_ H].
    destruct (H Sample.alice eq_refl) as [_ H'].
    destruct (H' (AccountBalance.mk USD (dec 100 1) 0)) as
      (s' & tx & systemId & Hrun & _ & _ & _ & Hstatus & _ & _ & _ & _ & Hbal & _).
    + reflexivity.
    + reflexivity.
    + by_evaluation.
    + repeat split; by_evaluation.
    + exists s', tx. repeat split; try assumption.
      apply Hbal. within_precision 150%Z.
Defined.

(** ** Operations that fail *)

Section Failures.

(** Whatever its outcome, [getSystemAccount] leaves the journal as it was,
    and the balance rows as they were or with one new row at zero. *)
Lemma getSystemAccount_rows env accountType currency s s1 r :
  getSystemAccount env accountType currency s = (s1, r) →
  transactions s1 = transactions s
  ∧ (accountBalances s1 = accountBalances s
     ∨ (accountBalances s !! objectId env = None
        ∧ accountBalances s1
          = <[objectId env := AccountBalance.mk currency 0%Qc (now env)]>
              (accountBalances s))).
Proof.
  unfold getSystemAccount.
  destruct (systemAccounts s !! _); [intros [= <- _]; by split; [| left] |].
  destruct (List.find _ _); [intros [= <- _]; by split; [| left] |].
  destruct (insertAccount _ _); [intros [= <- _]; by split; [| left] |].
  unfold insertBalance. cbn.
  destruct (accountBalances s !! objectId env) eqn:Hrow.
  - intros [= <- _]. by split; [| left].
  - intros [= <- _]. cbn. split; [done |]. by right.
Qed.

Lemma getSystemAccount_keeps env accountType currency s s1 r :
  getSystemAccount env accountType currency s = (s1, r) →
  transactions s1 = transactions s
  ∧ accountBalances s ⊆ accountBalances s1
  ∧ totalBalance s1 = totalBalance s.
Proof.
  intros [Htxs [Hbals | [Hnew Hbals]]]%getSystemAccount_rows;
    unfold totalBalance; rewrite Hbals; split_and!; try done.
  - by apply insert_subseteq.
  - rewrite total_insert_new by done. cbn. ring.
Qed.

End Failures.

(** X7: an operation that is refused moves no money: a direct operation that
    returns an error leaves the journal as it was, every balance row that
    existed as it was, and the sum of all balances unchanged (all that may
    stay behind is the system account it created on the way, with its row
    at zero); a reversal that returns an error leaves the whole state as it
    was. *)
Theorem refused_operation_moves_no_money (env : Env) (s : State) :
  (∀ op s' e,
     perform env op s = (s', Err e) →
     transactions s' = transactions s
     ∧ accountBalances s ⊆ accountBalances s'
     ∧ totalBalance s' = totalBalance s)
  ∧ (∀ reversalData s' e,
       reverseTransaction env reversalData s = (s', Err e) → s' = s).
Proof.
  split.
  - intros [d | d | d | d] s' e; cbn [perform].
    + unfold createDeposit.
      destruct (findActiveAccount _ s); [| by intros [= <- _]].
      case_bool_decide; [| by intros [= <- _]]. cbn [negb].
      destruct (accountBalances s !! _); [| by intros [= <- _]].
      destruct (getSystemAccount _ _ _ _) as [s0 r] eqn:Hget.
      apply getSystemAccount_keeps in Hget.
      destruct r; [| by intros [= <- _]].
      destruct (insertTransaction _ _); [by intros [= <- _] | done].
    + unfold createWithdrawal.
      destruct (findActiveAccount _ s); [| by intros [= <- _]].
      case_bool_decide; [| by intros [= <- _]]. cbn [negb].
      destruct (accountBalances s !! _); [| by intros [= <- _]].
      destruct (lessThan _ _); [by intros [= <- _] |].
      destruct (getSystemAccount _ _ _ _) as [s0 r] eqn:Hget.
      apply getSystemAccount_keeps in Hget.
      destruct r; [| by intros [= <- _]].
      destruct (insertTransaction _ _); [by intros [= <- _] | done].
    + unfold createTransfer.
      case_bool_decide; [by intros [= <- _] |].
      destruct (findActiveAccount _ s) as [src|]; [| by intros [= <- _]].
      destruct (findActiveAccount _ s) as [dst|]; [| by intros [= <- _]].
      do 3 (case_bool_decide; [| by intros [= <- _]]). cbn [negb].
      destruct (accountBalances s !! Account._id src); [| by intros [= <- _]].
      destruct (accountBalances s !! Account._id dst); [| by intros [= <- _]].
      destruct (lessThan _ _); [by intros [= <- _] |].
      destruct (insertTransaction _ _); [by intros [= <- _] | done].
    + unfold createFee.
      destruct (findActiveAccount _ s); [| by intros [= <- _]].
      case_bool_decide; [| by intros [= <- _]]. cbn [negb].
      destruct (accountBalances s !! _); [| by intros [= <- _]].
      destruct (lessThan _ _); [by intros [= <- _] |].
      destruct (getSystemAccount _ _ _ _) as [s0 r] eqn:Hget.
      apply getSystemAccount_keeps in Hget.
      destruct r; [| by intros [= <- _]].
      destruct (insertTransaction _ _); [by intros [= <- _] | done].
  - intros reversalData s' e. unfold reverseTransaction.
    destruct (findCompleted _ s); [| by intros [= <- _]].
    destruct (findReversalOf _ s); [by intros [= <- _] |].
    destruct (insertTransaction _ _); [by intros [= <- _] |].
    destruct (applyEntries _ _ _ _) as [bals [e'|]]; [by intros [= <- _] | done].
Qed.

(** A deposit whose transaction id is already taken is refused after the
    DEPOSITS system account was created: the account stays, with its row at
    zero, and nothing else has changed.  A reversal of a transaction that is
    not on record changes nothing. *)
Lemma refused_operation_moves_no_money_witness :
  (∃ e, snd (createDeposit Sample.env1 Sample.deposit50 Scenario.ledgerWithTakenId) = Err e
        ∧ length (accounts (fst (createDeposit Sample.env1 Sample.deposit50
                                   Scenario.ledgerWithTakenId))) = 4%nat
        ∧ transactions (fst (createDeposit Sample.env1 Sample.deposit50
                               Scenario.ledgerWithTakenId))
          = transactions Scenario.ledgerWithTakenId
        ∧ totalBalance (fst (createDeposit Sample.env1 Sample.deposit50
                               Scenario.ledgerWithTakenId))
          = totalBalance Scenario.ledgerWithTakenId)
  ∧ fst (reverseTransaction Sample.env2 (Sample.reversalOf Sample.depositId) Sample.ledger)
    = Sample.ledger.
Proof.
  destruct (refused_operation_moves_no_money Sample.env1 Scenario.ledgerWithTakenId)
    as [Hdirect _].
  destruct (refused_operation_moves_no_money Sample.env2 Sample.ledger) as [_ Hreversal].
  split.
  - eexists. split; [vm_compute; reflexivity |]. split; [by vm_compute |].
    edestruct (Hdirect (Deposit Sample.deposit50)) as (Htxs & _ & Htotal).
    { cbn [perform]. vm_compute. reflexivity. }
    split; [exact Htxs | exact Htotal].
  - eapply (Hreversal (Sample.reversalOf Sample.depositId)). vm_compute. reflexivity.
Defined.

(** ** The cache of system accounts *)

(** X8: once [getSystemAccount] has handed out the system account of a purpose
    and currency, every later call for that purpose and currency returns the
    same account without touching the state, whatever the clock and the
    identifiers at hand; in a consistent store, the account handed out is an
    account of type SYSTEM on record. *)
Theorem getSystemAccount_cached
    (env : Env) (accountType : string) (currency : CurrencyCode) (s s1 : State)
    (id : string) :
  getSystemAccount env accountType currency s = (s1, Ok id) →
  (∀ env', getSystemAccount env' accountType currency s1 = (s1, Ok id))
  ∧ (consistent s →
     ∃ a, a ∈ accounts s1 ∧ Account._id a = id
          ∧ Account.accountType a = AccountType.SYSTEM).
Proof.
  intros Hget.
  assert (Hcached : systemAccounts s1 !! (accountType +:+ "_" +:+ currencyString currency)
                    = Some id).
  { revert Hget. unfold getSystemAccount.
    destruct (systemAccounts s !! _) as [cached|] eqn:Hc; [by intros [= <- <-] |].
    destruct (List.find _ _); [intros [= <- <-]; cbn; by rewrite lookup_insert_eq |].
    destruct (insertAccount _ _); [done |].
    destruct (insertBalance _ _ _); [done |].
    intros [= <- <-]. cbn. by rewrite lookup_insert_eq. }
  split.
  - intros env'. unfold getSystemAccount. by rewrite Hcached.
  - intros Hs.
    pose proof (getSystemAccount_consistent env accountType currency s Hs) as Hs1.
    rewrite Hget in Hs1. destruct Hs1 as (_ & _ & Hcache). eauto.
Qed.

(** The DEPOSITS account for USD, created by the first call on the sample
    ledger, is handed out again by a second call at another time. *)
Lemma getSystemAccount_cached_witness :
  getSystemAccount Sample.env2 "DEPOSITS" USD
    (fst (getSystemAccount Sample.env1 "DEPOSITS" USD Sample.ledger))
  = (fst (getSystemAccount Sample.env1 "DEPOSITS" USD Sample.ledger),
     Ok (objectId Sample.env1)).
Proof.
  apply (getSystemAccount_cached Sample.env1 "DEPOSITS" USD Sample.ledger).
  vm_compute. reflexivity.
Defined.

(** ** Looking a transaction up *)

Section Lookup.

Lemma getTransactionByTransactionId_appended transactionId s s1 tx :
  transactions s1 = transactions s ++ [tx] →
  Transaction.transactionId tx ∉ (Transaction.transactionId <$> transactions s) →
  getTransactionByTransactionId transactionId s1
  = if bool_decide (transactionId = Transaction.transactionId tx) then Ok tx
    else getTransactionByTransactionId transactionId s.
Proof.
  intros Htxs Hfresh. unfold getTransactionByTransactionId. rewrite Htxs.
  destruct (List.find _ (transactions s)) as [t|] eqn:Hfind.
  - rewrite (find_app_some _ _ _ _ Hfind).
    apply find_some_elem in Hfind as [Hin Hid%bool_decide_eq_true].
    rewrite bool_decide_eq_false_2; [done |].
    intros ->. apply Hfresh. rewrite <- Hid. by apply list_elem_of_fmap_2.
  - rewrite (find_app_none _ _ _ Hfind). cbn.
    case_bool_decide as Heq; case_bool_decide; congruence.
Qed.

(** The transaction that a direct operation returns is the document it
    completed. *)
Lemma perform_returns env op s s1 tx :
  perform env op s = (s1, Ok tx) → ∃ document, tx = complete env document.
Proof.
  destruct op as [d | d | d | d]; cbn [perform].
  - unfold createDeposit.
    repeat (first [ case_bool_decide | case_match ]; cbn [negb]; try congruence).
    intros [= _ <-]. eauto.
  - unfold createWithdrawal.
    repeat (first [ case_bool_decide | case_match ]; cbn [negb]; try congruence).
    intros [= _ <-]. eauto.
  - unfold createTransfer.
    repeat (first [ case_bool_decide | case_match ]; cbn [negb]; try congruence).
    intros [= _ <-]. eauto.
  - unfold createFee.
    repeat (first [ case_bool_decide | case_match ]; cbn [negb]; try congruence).
    intros [= _ <-]. eauto.
Qed.

End Lookup.

(** X9: what is found under the transaction id of a successful operation
    afterwards is the record of the transaction that the operation returned:
    that transaction less the fields that are no paths of the schema.  It is
    COMPLETED, and it differs from the transaction returned, which carries
    the time it was processed at.  The lookup of any other transaction id
    gives what it gave before the operation: the transaction on record, or
    the not-found error. *)
Theorem getTransactionByTransactionId_after (env : Env) (s s1 : State) (tx : Transaction.t) :
  (∃ op, perform env op s = (s1, Ok tx))
  ∨ (∃ reversalData, reverseTransaction env reversalData s = (s1, Ok tx)) →
  getTransactionByTransactionId (Transaction.transactionId tx) s1
    = Ok (Transaction.schemaPaths tx)
  ∧ Transaction.status (Transaction.schemaPaths tx) = COMPLETED
  ∧ Transaction.processedAt tx = Some (now env)
  ∧ Transaction.processedAt (Transaction.schemaPaths tx) = None
  ∧ ∀ transactionId,
      transactionId ≠ Transaction.transactionId tx →
      getTransactionByTransactionId transactionId s1
      = getTransactionByTransactionId transactionId s.
Proof.
  intros Hrun.
  assert (Happ : (Transaction.transactionId tx
                    ∉ (Transaction.transactionId <$> transactions s))
                 ∧ Transaction.status tx = COMPLETED
                 ∧ Transaction.processedAt tx = Some (now env)
                 ∧ transactions s1 = transactions s ++ [Transaction.schemaPaths tx]).
  { destruct Hrun as [[op Hrun] | [reversalData Hrun]].
    - pose proof Hrun as Hok. apply perform_ok in Hok as (? & ? & ? & _).
      apply perform_returns in Hrun as [document ->]. by split_and!.
    - pose proof (reverseTransaction_journal env reversalData s) as Hj.
      apply reverseTransaction_ok in Hrun as Hok.
      destruct Hok as (original & bals & _ & _ & Htx & _ & Hs1).
      rewrite Hrun in Hj. cbn [fst] in Hj. rewrite Hs1 in *. cbn in *.
      destruct Hj as [Hsame | (tx' & Heq & Hfresh)].
      + exfalso. apply (f_equal length) in Hsame. rewrite length_app in Hsame.
        cbn in Hsame. lia.
      + apply app_inj_tail in Heq as [_ <-]. rewrite Htx in *.
        split_and!; [exact Hfresh | done | done | done]. }
  destruct Happ as (Hfresh & Hstatus & Hprocessed & Htxs). split_and!; try done.
  - rewrite (getTransactionByTransactionId_appended _ s s1 _ Htxs Hfresh).
    by rewrite bool_decide_eq_true_2.
  - intros transactionId Hne.
    rewrite (getTransactionByTransactionId_appended _ s s1 _ Htxs Hfresh).
    by rewrite bool_decide_eq_false_2.
Qed.

(** Alice's deposit is found under its transaction id once it is made, and
    before it nothing is found under that id. *)
Lemma getTransactionByTransactionId_after_witness :
  (∃ tx, getTransactionByTransactionId Sample.depositId Sample.afterDeposit = Ok tx
         ∧ Transaction.status tx = COMPLETED)
  ∧ getTransactionByTransactionId Sample.depositId Sample.ledger
    = Err (mkError NotFoundError "Transaction not found" NoDetails).
Proof.
  split; [| reflexivity].
  edestruct (getTransactionByTransactionId_after Sample.env1 Sample.ledger
               Sample.afterDeposit) as (Hfound & Hstatus & _).
  - left. exists (Deposit Sample.deposit50). cbn [perform]. vm_compute. reflexivity.
  - eexists. split; [exact Hfound | exact Hstatus].
Defined.

(** ** No overdraft *)

Section Solvency.

Implicit Types bals : gmap string AccountBalance.t.

Lemma solvent_saveBalance env id row b bals :
  solvent bals → (0 ≤ b)%Qc → solvent (saveBalance env id row b bals).
Proof.
  intros Hbals Hb. unfold solvent, saveBalance. by apply map_Forall_insert_2.
Qed.

Lemma plus_nonneg (x y : Qc) : (0 ≤ x)%Qc → (0 ≤ y)%Qc → (0 ≤ plus x y)%Qc.
Proof.
  intros Hx Hy. apply finalise_nonneg.
  replace 0%Qc with (0 + 0)%Qc by ring. by apply Qcplus_le_compat.
Qed.

Lemma minus_nonneg (x y : Qc) : (y ≤ x)%Qc → (0 ≤ minus x y)%Qc.
Proof.
  intros Hle. apply finalise_nonneg. replace 0%Qc with (y - y)%Qc by ring.
  unfold Qcminus. apply Qcplus_le_compat; [done | apply Qcle_refl].
Qed.

Lemma isNegative_false x : isNegative x = false ↔ (0 ≤ x)%Qc.
Proof.
  unfold isNegative. rewrite bool_decide_eq_false. split.
  - apply Qcnot_lt_le.
  - apply Qcle_not_lt.
Qed.

(** The loop over the entries keeps the balances at or above zero, however
    far it gets. *)
Lemma applyEntries_solvent env what entries bals :
  solvent bals →
  Forall (fun entry => (0 ≤ Entry.amount entry)%Qc) entries →
  solvent (fst (applyEntries env what entries bals)).
Proof.
  intros Hbals Hentries. revert bals Hbals.
  induction Hentries as [|entry rest Hentry _ IH]; intros bals Hbals; [done |].
  cbn [applyEntries].
  destruct (bals !! Entry.accountId entry) as [row|] eqn:Hrow; [| done].
  pose proof (Hbals _ _ Hrow) as Hpos. cbn in Hpos.
  case_bool_decide.
  - apply IH, solvent_saveBalance; [done |]. by apply plus_nonneg.
  - destruct (isNegative _) eqn:Hneg; [done |].
    apply IH, solvent_saveBalance; [done |]. by apply isNegative_false.
Qed.

Lemma updateTransaction_elem tx txs t :
  t ∈ updateTransaction tx txs → t = Transaction.schemaPaths tx ∨ t ∈ txs.
Proof.
  unfold updateTransaction. intros (t0 & -> & Hin)%list_elem_of_fmap.
  case_bool_decide; [by left | by right].
Qed.

Lemma unsignedEntries_update tx txs :
  Forall (fun entry => (0 ≤ Entry.amount entry)%Qc) (Transaction.entries tx) →
  unsignedEntries txs →
  unsignedEntries (updateTransaction tx txs).
Proof.
  intros Htx Htxs. apply Forall_forall. intros t [-> | Hin]%updateTransaction_elem; [done |].
  by eapply Forall_forall in Htxs.
Qed.

Lemma unsignedEntries_snoc tx txs :
  Forall (fun entry => (0 ≤ Entry.amount entry)%Qc) (Transaction.entries tx) →
  unsignedEntries txs →
  unsignedEntries (txs ++ [tx]).
Proof.
  intros Htx Htxs. apply Forall_app. split; [done |]. by apply Forall_singleton.
Qed.

Lemma solvent_getSystemAccount env accountType currency s s1 r :
  getSystemAccount env accountType currency s = (s1, r) →
  solvent (accountBalances s) →
  solvent (accountBalances s1).
Proof.
  intros [_ [-> | [_ ->]]]%getSystemAccount_rows Hs; [done |].
  by apply map_Forall_insert_2.
Qed.

End Solvency.

(** X10: no operation of the service overdraws an account.  When no balance is
    below zero and no entry of the journal carries a negative amount, the
    same holds after a deposit, withdrawal, transfer or fee of an amount that
    is not negative, after a reversal, and after a sweep of the pending
    transactions, whether the operation succeeds or fails; system accounts
    included. *)
Theorem operations_keep_solvent (env : Env) (s : State) :
  solvent (accountBalances s) →
  unsignedEntries (transactions s) →
  (∀ op, (0 ≤ requestedAmount op)%Qc →
         solvent (accountBalances (fst (perform env op s)))
         ∧ unsignedEntries (transactions (fst (perform env op s))))
  ∧ (∀ reversalData,
       solvent (accountBalances (fst (reverseTransaction env reversalData s)))
       ∧ unsignedEntries (transactions (fst (reverseTransaction env reversalData s))))
  ∧ solvent (accountBalances (fst (processPendingTransactions env s)))
  ∧ unsignedEntries (transactions (fst (processPendingTransactions env s))).
Proof.
  intros Hbals Htxs.
  assert (Hpair : ∀ a1 a2 side1 side2 amount,
            (0 ≤ amount)%Qc →
            Forall (fun entry => (0 ≤ Entry.amount entry)%Qc)
                   [Entry.mk a1 side1 amount; Entry.mk a2 side2 amount]).
  { intros. by repeat constructor. }
  split; [| split; [| split]].
  - intros [d | d | d | d] Hamount; cbn [perform requestedAmount] in *.
    + unfold createDeposit.
      destruct (findActiveAccount _ s) as [account|]; [| done].
      case_bool_decide; [| done]. cbn [negb].
      destruct (accountBalances s !! _) as [row|] eqn:Hrow; [| done].
      destruct (getSystemAccount _ _ _ _) as [s0 r] eqn:Hget.
      pose proof (solvent_getSystemAccount _ _ _ _ _ _ Hget Hbals) as Hbals0.
      apply getSystemAccount_rows in Hget as [Htxs0 _].
      destruct r as [id|]; [| cbn [fst]; by rewrite Htxs0].
      destruct (insertTransaction _ _) as [|txs'] eqn:Hins; [cbn [fst]; by rewrite Htxs0 |].
      apply (insert_complete_inv env) in Hins as [Hupd _]. cbn. rewrite Hupd, Htxs0.
      split.
      * apply solvent_saveBalance; [done |]. apply plus_nonneg; [| done].
        apply (Hbals _ _ Hrow).
      * apply unsignedEntries_snoc; [| done]. by apply Hpair.
    + unfold createWithdrawal.
      destruct (findActiveAccount _ s) as [account|]; [| done].
      case_bool_decide; [| done]. cbn [negb].
      destruct (accountBalances s !! _) as [row|] eqn:Hrow; [| done].
      destruct (lessThan _ _) eqn:Hless; [done |]. apply lessThan_false in Hless.
      destruct (getSystemAccount _ _ _ _) as [s0 r] eqn:Hget.
      pose proof (solvent_getSystemAccount _ _ _ _ _ _ Hget Hbals) as Hbals0.
      apply getSystemAccount_rows in Hget as [Htxs0 _].
      destruct r as [id|]; [| cbn [fst]; by rewrite Htxs0].
      destruct (insertTransaction _ _) as [|txs'] eqn:Hins; [cbn [fst]; by rewrite Htxs0 |].
      apply (insert_complete_inv env) in Hins as [Hupd _]. cbn. rewrite Hupd, Htxs0.
      split.
      * apply solvent_saveBalance; [done |]. by apply minus_nonneg.
      * apply unsignedEntries_snoc; [| done]. by apply Hpair.
    + unfold createTransfer.
      case_bool_decide; [done |].
      destruct (findActiveAccount _ s) as [src|]; [| done].
      destruct (findActiveAccount _ s) as [dst|]; [| done].
      do 3 (case_bool_decide; [| done]). cbn [negb].
      destruct (accountBalances s !! Account._id src) as [row1|] eqn:Hrow1; [| done].
      destruct (accountBalances s !! Account._id dst) as [row2|] eqn:Hrow2; [| done].
      destruct (lessThan _ _) eqn:Hless; [done |]. apply lessThan_false in Hless.
      destruct (insertTransaction _ _) as [|txs'] eqn:Hins; [done |].
      apply (insert_complete_inv env) in Hins as [Hupd _]. cbn. rewrite Hupd.
      split.
      * apply solvent_saveBalance; [apply solvent_saveBalance; [done |] |].
        -- by apply minus_nonneg.
        -- apply plus_nonneg; [| done]. apply (Hbals _ _ Hrow2).
      * apply unsignedEntries_snoc; [| done]. by apply Hpair.
    + unfold createFee.
      destruct (findActiveAccount _ s) as [account|]; [| done].
      case_bool_decide; [| done]. cbn [negb].
      destruct (accountBalances s !! _) as [row|] eqn:Hrow; [| done].
      destruct (lessThan _ _) eqn:Hless; [done |]. apply lessThan_false in Hless.
      destruct (getSystemAccount _ _ _ _) as [s0 r] eqn:Hget.
      pose proof (solvent_getSystemAccount _ _ _ _ _ _ Hget Hbals) as Hbals0.
      apply getSystemAccount_rows in Hget as [Htxs0 _].
      destruct r as [id|]; [| cbn [fst]; by rewrite Htxs0].
      destruct (insertTransaction _ _) as [|txs'] eqn:Hins; [cbn [fst]; by rewrite Htxs0 |].
      apply (insert_complete_inv env) in Hins as [Hupd _]. cbn. rewrite Hupd, Htxs0.
      split.
      * apply solvent_saveBalance; [done |]. by apply minus_nonneg.
      * apply unsignedEntries_snoc; [| done]. by apply Hpair.
  - intros reversalData. unfold reverseTransaction.
    destruct (findCompleted _ s) as [original|] eqn:Horiginal; [| done].
    destruct (findReversalOf _ s); [done |].
    destruct (insertTransaction _ _) as [|txs'] eqn:Hins; [done |].
    apply (insert_complete_inv env) in Hins as [Hupd _].
    assert (Hreversed : Forall (fun entry => (0 ≤ Entry.amount entry)%Qc)
                          (reverseEntry <$> Transaction.entries original)).
    { apply find_some_elem in Horiginal as [Hin _].
      eapply Forall_forall in Htxs; [| exact Hin].
      apply Forall_fmap. eapply Forall_impl; [exact Htxs | done]. }
    pose proof (applyEntries_solvent env "Insufficient funds for reversal" _ _
                  Hbals Hreversed) as Hrun.
    change (Transaction.entries (newReversal env reversalData original))
      with (reverseEntry <$> Transaction.entries original).
    destruct (applyEntries _ _ _ _) as [bals [e|]]; [done |]. cbn. rewrite Hupd.
    split; [done |]. by apply unsignedEntries_snoc.
  - unfold processPendingTransactions. set (pending := filter _ _).
    assert (Hpending : Forall (fun p => Forall (fun entry => (0 ≤ Entry.amount entry)%Qc)
                                          (Transaction.entries p)) pending).
    { apply Forall_forall. intros p [_ Hp]%list_elem_of_filter.
      by eapply Forall_forall in Htxs. }
    assert (Hfold : ∀ acc,
              solvent acc.1.1.2 → unsignedEntries acc.1.1.1 →
              solvent (fold_left (processOne env) pending acc).1.1.2
              ∧ unsignedEntries (fold_left (processOne env) pending acc).1.1.1).
    { clearbody pending.
      induction Hpending as [|p rest Hp _ IH]; intros acc Hacc1 Hacc2; [done |].
      cbn [fold_left]. destruct acc as [[[txs bals] done'] failed']. cbn in Hacc1, Hacc2.
      unfold processOne.
      pose proof (applyEntries_solvent env "Insufficient funds for transaction"
                    (Transaction.entries (Transaction.set_status PROCESSING p)) bals
                    Hacc1 Hp) as Hrun.
      destruct (applyEntries _ _ _ _) as [bals' [e|]]; cbn [fst] in Hrun;
        (apply IH; cbn; [done |]; do 2 (apply unsignedEntries_update; [done |]); done). }
    specialize (Hfold (transactions s, accountBalances s, [], []) Hbals Htxs).
    destruct (fold_left _ _ _) as [[[txs bals] done'] failed']. cbn in *. apply Hfold.
  - unfold processPendingTransactions. set (pending := filter _ _).
    assert (Hpending : Forall (fun p => Forall (fun entry => (0 ≤ Entry.amount entry)%Qc)
                                          (Transaction.entries p)) pending).
    { apply Forall_forall. intros p [_ Hp]%list_elem_of_filter.
      by eapply Forall_forall in Htxs. }
    assert (Hfold : ∀ acc,
              unsignedEntries acc.1.1.1 →
              unsignedEntries (fold_left (processOne env) pending acc).1.1.1).
    { clearbody pending.
      induction Hpending as [|p rest Hp _ IH]; intros acc Hacc; [done |].
      cbn [fold_left]. destruct acc as [[[txs bals] done'] failed']. cbn in Hacc.
      unfold processOne.
      destruct (applyEntries _ _ _ _) as [bals' [e|]];
        (apply IH; cbn; do 2 (apply unsignedEntries_update; [done |]); done). }
    specialize (Hfold (transactions s, accountBalances s, [], []) Htxs).
    destruct (fold_left _ _ _) as [[[txs bals] done'] failed']. cbn in *. apply Hfold.
Qed.

(** On the sample ledger, where Alice holds 100: after she withdrew exactly
    100 no balance is below zero. *)
Lemma operations_keep_solvent_witness :
  solvent (accountBalances (fst (createWithdrawal Sample.env1 Sample.withdraw100
                                   Sample.ledger))).
Proof.
  destruct (operations_keep_solvent Sample.env1 Sample.ledger) as [Hdirect _].
  - by_evaluation.
  - by_evaluation.
  - apply (Hdirect (Withdrawal Sample.withdraw100)). by_evaluation.
Defined.

(** ** Records that are settled *)

Section Settled.

Lemma updateTransaction_keeps t tx txs :
  t ∈ txs →
  Transaction.transactionId t ≠ Transaction.transactionId tx →
  t ∈ updateTransaction tx txs.
Proof.
  intros Hin Hne. unfold updateTransaction. apply list_elem_of_fmap.
  exists t. split; [| done]. by rewrite bool_decide_eq_false_2.
Qed.

(** Two records of a journal with unique transaction ids that carry the
    same transaction id are one record. *)
Lemma uniqueTransactionIds_inj txs t p :
  NoDup (Transaction.transactionId <$> txs) →
  t ∈ txs → p ∈ txs →
  Transaction.transactionId t = Transaction.transactionId p →
  t = p.
Proof.
  intros Hnodup [i Hi]%list_elem_of_lookup [j Hj]%list_elem_of_lookup Hid.
  assert (i = j) as ->; [| congruence].
  eapply NoDup_lookup; [exact Hnodup | |].
  - by rewrite list_lookup_fmap, Hi.
  - rewrite list_lookup_fmap, Hj. cbn. congruence.
Qed.

(** The sweep leaves every record alone that is not PENDING. *)
Lemma processPendingTransactions_keeps env s t :
  uniqueTransactionIds s →
  t ∈ transactions s →
  Transaction.status t ≠ PENDING →
  t ∈ transactions (fst (processPendingTransactions env s)).
Proof.
  intros Hunique Hin Hstatus. unfold processPendingTransactions.
  set (pending := filter _ _).
  assert (Hpending : ∀ p, p ∈ pending →
            Transaction.transactionId t ≠ Transaction.transactionId p).
  { intros p [[Hp _] Hpin]%list_elem_of_filter Hid.
    apply Hstatus. by rewrite (uniqueTransactionIds_inj _ t p Hunique Hin Hpin Hid). }
  assert (Hfold : ∀ acc,
            t ∈ acc.1.1.1 → t ∈ (fold_left (processOne env) pending acc).1.1.1).
  { clearbody pending.
    induction pending as [|p rest IH]; intros acc Hacc; [done |].
    cbn [fold_left]. apply IH.
    { intros q Hq. apply Hpending. by right. }
    destruct acc as [[[txs bals] done'] failed']. unfold processOne.
    assert (Hne : Transaction.transactionId t ≠ Transaction.transactionId p)
      by (apply Hpending; by left).
    destruct (applyEntries _ _ _ _) as [bals' [e|]]; cbn [fst];
      (apply updateTransaction_keeps; [| done];
       apply updateTransaction_keeps; [| done]; done). }
  specialize (Hfold (transactions s, accountBalances s, [], []) Hin).
  by destruct (fold_left _ _ _) as [[[txs bals] done'] failed'].
Qed.

Lemma Step_keeps s s' t :
  Step s s' →
  uniqueTransactionIds s →
  t ∈ transactions s →
  Transaction.status t ≠ PENDING →
  t ∈ transactions s'
  ∧ (Transaction.transactionId <$> transactions s)
      `prefix_of` (Transaction.transactionId <$> transactions s').
Proof.
  assert (Happended : ∀ s s',
            (transactions s' = transactions s
             ∨ ∃ tx, transactions s' = transactions s ++ [tx]
                     ∧ Transaction.transactionId tx
                       ∉ (Transaction.transactionId <$> transactions s)) →
            t ∈ transactions s →
            t ∈ transactions s'
            ∧ (Transaction.transactionId <$> transactions s)
                `prefix_of` (Transaction.transactionId <$> transactions s')).
  { clear. intros s s' [-> | (tx & -> & _)] Hin; [done |]. split.
    - apply elem_of_app. by left.
    - rewrite fmap_app. by apply prefix_app_r. }
  intros [env op s0 | env reversalData s0 | env s0] Hunique Hin Hstatus.
  - apply Happended; [apply perform_journal | done].
  - apply Happended; [apply reverseTransaction_journal | done].
  - split; [by apply processPendingTransactions_keeps |].
    by rewrite (sameRecord_ids _ _ (processPendingTransactions_journal env s0 Hunique)).
Qed.

End Settled.

(** X11: the journal is append-only, and a record that has left the PENDING
    status is final: through any sequence of operations of the service
    (deposits, withdrawals, transfers, fees, reversals and sweeps, succeeding
    or not) on a journal with unique transaction ids, every record that is
    not PENDING stays in the journal exactly as it is, in all its fields, and
    the transaction ids on record stay where they are, new ones being added
    at the end. *)
Theorem settled_records_stay (s s' : State) (t : Transaction.t) :
  rtc Step s s' →
  uniqueTransactionIds s →
  t ∈ transactions s →
  Transaction.status t ≠ PENDING →
  t ∈ transactions s'
  ∧ (Transaction.transactionId <$> transactions s)
      `prefix_of` (Transaction.transactionId <$> transactions s').
Proof.
  intros Hsteps. induction Hsteps as [s | s s1 s' Hstep _ IH]; intros Hunique Hin Hstatus.
  - done.
  - destruct (Step_keeps s s1 t Hstep Hunique Hin Hstatus) as [Hin1 Hprefix1].
    destruct (Step_journal s s1 Hstep Hunique) as [Hunique1 _].
    destruct (IH Hunique1 Hin1 Hstatus) as [Hin' Hprefix']. split; [done |].
    by etrans.
Qed.

(** Alice's completed withdrawal is still on record, as it was, after a
    later deposit and a sweep. *)
Lemma settled_records_stay_witness :
  ∃ t, getTransactionByTransactionId Sample.withdrawalId Sample.afterWithdrawal = Ok t
       ∧ t ∈ transactions
               (fst (processPendingTransactions Sample.env3
                       (fst (createDeposit Sample.env2 Sample.deposit50
                               Sample.afterWithdrawal)))).
Proof.
  eexists. split; [vm_compute; reflexivity |].
  eapply (settled_records_stay Sample.afterWithdrawal).
  - eapply rtc_l; [apply (step_perform Sample.env2 (Deposit Sample.deposit50)) |].
    apply rtc_once. apply step_sweep.
  - by_evaluation.
  - apply list_elem_of_In. vm_compute. left. reflexivity.
  - vm_compute. discriminate.
Defined.

(** ** What a sweep leaves *)

Section Sweep.

Variable env : Env.

Lemma due_filter (txs : list Transaction.t) :
  filter (due env) txs
  = filter (fun t => Transaction.status t = PENDING
                     ∧ (Transaction.createdAt t ≤ now env - 60000)%Z) txs.
Proof. reflexivity. Qed.

Lemma commitTransaction_same s :
  commitTransaction (transactions s) (accountBalances s) s = s.
Proof. by destruct s. Qed.

(** One turn of the loop, on a transaction [p] of the original journal that
    the loop has not been through. *)
Lemma processOne_swept original done acc p :
  NoDup (Transaction.transactionId <$> original) →
  p ∈ original →
  Transaction.transactionId p ∉ done →
  Forall2 (swept env done acc.2) original acc.1.1.1 →
  (∀ id, id ∈ acc.2 → id ∈ done) →
  Forall2 (swept env (done ++ [Transaction.transactionId p]) (processOne env acc p).2)
    original (processOne env acc p).1.1.1
  ∧ (∀ id, id ∈ (processOne env acc p).2 → id ∈ done ++ [Transaction.transactionId p])
  ∧ (length (processOne env acc p).1.2 + length (processOne env acc p).2
     = S (length acc.1.2 + length acc.2))%nat.
Proof.
  intros Hnodup Hp Hfresh Hrel Hfailed.
  destruct acc as [[[txs bals] processed'] failed']. cbn in Hrel, Hfailed.
  unfold processOne.
  set (proc := Transaction.set_status PROCESSING p).
  assert (Hpoint : ∀ final failed1,
            Transaction.transactionId final = Transaction.transactionId p →
            settled env failed1 p (Transaction.schemaPaths final) →
            (∀ id, id ∈ failed' → id ∈ failed1) →
            (∀ id, id ∈ failed1 → id ∈ failed' ∨ id = Transaction.transactionId p) →
            Forall2 (swept env (done ++ [Transaction.transactionId p]) failed1) original
              (updateTransaction final (updateTransaction proc txs))).
  { intros final failed1 Hid Hfinal Hgrow Hnew.
    apply Forall2_same_length_lookup_2.
    { unfold updateTransaction. rewrite !length_fmap. by eapply Forall2_length. }
    intros i t t1 Hi Hi1. unfold updateTransaction in Hi1.
    rewrite !list_lookup_fmap in Hi1.
    destruct (txs !! i) as [t'|] eqn:Hi'; [| done]. cbn in Hi1.
    pose proof (Forall2_lookup_lr _ _ _ _ _ _ Hrel Hi Hi') as Ht. unfold swept in Ht |- *.
    assert (Hid' : Transaction.transactionId t' = Transaction.transactionId t).
    { case_bool_decide; [apply Ht | by subst]. }
    assert (Ht1 : t1 = if bool_decide (Transaction.transactionId t = Transaction.transactionId p)
                       then Transaction.schemaPaths final else t').
    { injection Hi1 as <-.
      change (Transaction.transactionId proc) with (Transaction.transactionId p).
      rewrite Hid'.
      destruct (decide (Transaction.transactionId t = Transaction.transactionId p))
        as [Heq | Hne].
      - rewrite !(bool_decide_eq_true_2 _ Heq).
        change (Transaction.transactionId proc) with (Transaction.transactionId p).
        by rewrite Hid, bool_decide_eq_true_2.
      - rewrite !(bool_decide_eq_false_2 _ Hne).
        by rewrite Hid', Hid, bool_decide_eq_false_2. }
    destruct (decide (Transaction.transactionId t = Transaction.transactionId p))
      as [Heq | Hne].
    - rewrite (bool_decide_eq_true_2 _ Heq) in Ht1. subst t1.
      assert (t = p) as ->.
      { eapply uniqueTransactionIds_inj; [exact Hnodup | | done | done].
        by eapply list_elem_of_lookup_2. }
      rewrite bool_decide_eq_true_2; [done |].
      apply elem_of_app. right. by apply list_elem_of_singleton.
    - rewrite (bool_decide_eq_false_2 _ Hne) in Ht1. subst t1.
      destruct (bool_decide (Transaction.transactionId t ∈ done)) eqn:Hdone.
      + apply bool_decide_eq_true in Hdone.
        rewrite bool_decide_eq_true_2 by (apply elem_of_app; by left).
        destruct Ht as (? & ? & ? & ? & Hstatus). split_and!; try done.
        destruct Hstatus as [(? & ? & Hnot) | (? & ? & Hin)]; [left | right; by auto].
        split_and!; try done. intros [? | ?]%Hnew; done.
      + apply bool_decide_eq_false in Hdone.
        rewrite bool_decide_eq_false_2; [done |].
        intros [? | ?%list_elem_of_singleton]%elem_of_app; done. }
  destruct (applyEntries _ _ _ _) as [bals' [e|]]; cbn [fst snd].
  - split_and!.
    + apply Hpoint; [done | | |].
      * split_and!; try done. right. split_and!; try done.
        apply elem_of_app. right. by apply list_elem_of_singleton.
      * intros id Hin. apply elem_of_app. by left.
      * intros id [? | ?%list_elem_of_singleton]%elem_of_app; auto.
    + intros id [Hin | ->%list_elem_of_singleton]%elem_of_app; apply elem_of_app.
      * left. by apply Hfailed.
      * right. by apply list_elem_of_singleton.
    + rewrite length_app. cbn. lia.
  - split_and!.
    + apply Hpoint; [done | | done | by left].
      split_and!; try done. left. split_and!; try done.
      intros Hin. apply Hfresh. by apply Hfailed.
    + intros id Hin. apply elem_of_app. left. by apply Hfailed.
    + rewrite length_app. cbn. lia.
Qed.

(** The whole loop, on transactions of the original journal that it has
    not been through. *)
Lemma processOne_fold original pending :
  NoDup (Transaction.transactionId <$> original) →
  ∀ done acc,
    NoDup (Transaction.transactionId <$> pending) →
    (∀ p, p ∈ pending → p ∈ original ∧ Transaction.transactionId p ∉ done) →
    Forall2 (swept env done acc.2) original acc.1.1.1 →
    (∀ id, id ∈ acc.2 → id ∈ done) →
    Forall2 (swept env (done ++ (Transaction.transactionId <$> pending))
               (fold_left (processOne env) pending acc).2)
      original (fold_left (processOne env) pending acc).1.1.1
    ∧ (length (fold_left (processOne env) pending acc).1.2
       + length (fold_left (processOne env) pending acc).2
       = length acc.1.2 + length acc.2 + length pending)%nat.
Proof.
  intros Hnodup. induction pending as [|p rest IH]; intros done acc Hpnodup Hpending Hrel Hfailed.
  - cbn. rewrite app_nil_r. split; [done | lia].
  - cbn [fold_left]. rewrite fmap_cons in Hpnodup |- *.
    apply NoDup_cons in Hpnodup as [Hpfresh Hrnodup].
    destruct (Hpending p) as [Hp Hpdone]; [by left |].
    destruct (processOne_swept original done acc p Hnodup Hp Hpdone Hrel Hfailed)
      as (Hrel1 & Hfailed1 & Hcount1).
    destruct (IH (done ++ [Transaction.transactionId p]) (processOne env acc p))
      as [Hrel' Hcount']; try done.
    { intros q Hq. destruct (Hpending q) as [Hqin Hqdone]; [by right |].
      split; [done |].
      intros [? | Heq%list_elem_of_singleton]%elem_of_app; [done |].
      apply Hpfresh. rewrite <- Heq. by apply list_elem_of_fmap_2. }
    rewrite <- app_assoc in Hrel'. cbn in Hrel'. split; [done |].
    rewrite Hcount', Hcount1. cbn. lia.
Qed.

End Sweep.

(** X12: what a sweep leaves, on a journal with unique transaction ids.  The
    transactions it reports as processed and as failed are together as many
    as were due (PENDING and at least a minute old).  Every transaction that
    was due is in the journal, in its place, with the same transaction id,
    entries, amount and creation time, either COMPLETED, with no time of
    processing on record, or FAILED with a failure reason and listed in
    [failedIds]; every other record is as it was.  A second sweep at the same
    clock finds nothing to do and changes nothing. *)
Theorem processPendingTransactions_settles (env : Env) (s : State) :
  uniqueTransactionIds s →
  let s' := fst (processPendingTransactions env s) in
  let result := snd (processPendingTransactions env s) in
  (processed result + failed result)%nat = length (filter (due env) (transactions s))
  ∧ failed result = length (failedIds result)
  ∧ Forall2 (fun t t' => if decide (due env t)
                         then settled env (failedIds result) t t' else t' = t)
      (transactions s) (transactions s')
  ∧ processPendingTransactions env s' = (s', mkSweepResult 0 0 []).
Proof.
  intros Hunique s' result.
  assert (Hids : ∀ t, t ∈ transactions s →
            Transaction.transactionId t
              ∈ (Transaction.transactionId <$> filter (due env) (transactions s))
            ↔ due env t).
  { intros t Hin. split.
    - intros (p & Hid & [Hdue Hpin]%list_elem_of_filter)%list_elem_of_fmap.
      by rewrite (uniqueTransactionIds_inj _ t p Hunique Hin Hpin Hid).
    - intros Hdue. apply list_elem_of_fmap_2. by apply list_elem_of_filter. }
  destruct (processOne_fold env (transactions s) (filter (due env) (transactions s))
              Hunique [] (transactions s, accountBalances s, [], []))
    as [Hrel Hcount].
  { apply (NoDup_fmap_2_strong Transaction.transactionId); [| apply NoDup_filter].
    - intros t p [_ Ht]%list_elem_of_filter [_ Hp]%list_elem_of_filter.
      by apply (uniqueTransactionIds_inj (transactions s)).
    - eapply NoDup_fmap_1. exact Hunique. }
  { intros p [_ Hp]%list_elem_of_filter. split; [done | apply not_elem_of_nil]. }
  { apply Forall_Forall2_diag, Forall_forall. intros t _. unfold swept.
    by rewrite bool_decide_eq_false_2 by apply not_elem_of_nil. }
  { by intros id ?%elem_of_nil. }
  assert (Hrun : processPendingTransactions env s
                 = (let '(txs, bals, processed', failed') :=
                      fold_left (processOne env) (filter (due env) (transactions s))
                        (transactions s, accountBalances s, [], []) in
                    (commitTransaction txs bals s,
                     mkSweepResult (length processed') (length failed') failed'))).
  { reflexivity. }
  subst s' result. rewrite Hrun. clear Hrun.
  destruct (fold_left _ _ _) as [[[txs bals] processed'] failed']. cbn in *.
  assert (Hfinal : Forall2 (fun t t' => if decide (due env t)
                                         then settled env failed' t t' else t' = t)
                     (transactions s) txs).
  { apply Forall2_same_length_lookup_2; [by eapply Forall2_length |].
    intros i t t' Hi Hi'.
    pose proof (Forall2_lookup_lr _ _ _ _ _ _ Hrel Hi Hi') as Ht. unfold swept in Ht.
    pose proof (Hids t (list_elem_of_lookup_2 _ _ _ Hi)) as Hdue.
    destruct (decide (due env t)) as [Hyes | Hno].
    - by rewrite bool_decide_eq_true_2 in Ht by (by apply Hdue).
    - by rewrite bool_decide_eq_false_2 in Ht by (by rewrite Hdue). }
  split_and!; [lia | done | done |].
  assert (Hnone : filter (due env) txs = []).
  { apply elem_of_nil_inv. intros t' [Hdue Hin]%list_elem_of_filter.
    apply list_elem_of_lookup in Hin as [i Hi'].
    destruct (Forall2_lookup_r _ _ _ _ _ Hfinal Hi') as (t & Hi & Ht).
    destruct (decide (due env t)) as [Hyes | Hno].
    - destruct Hdue as [Hpending _].
      destruct Ht as (_ & _ & _ & _ & [(Hst & _) | (Hst & _)]); congruence.
    - by subst t'. }
  unfold processPendingTransactions.
  cbn [transactions accountBalances commitTransaction set_accountBalances set_transactions].
  rewrite <- due_filter, Hnone. reflexivity.
Qed.

(** The sweep of the two deferred transfers of the sample ledger reports
    two transactions, as many as were due, and a second sweep at the same
    clock changes nothing. *)
Lemma processPendingTransactions_settles_witness :
  length (filter (due Sample.env1) (transactions Sample.ledgerWithDeferred)) = 2%nat
  ∧ (processed (snd (processPendingTransactions Sample.env1 Sample.ledgerWithDeferred))
     + failed (snd (processPendingTransactions Sample.env1 Sample.ledgerWithDeferred)))%nat
    = 2%nat
  ∧ processPendingTransactions Sample.env1 Sample.afterSweep
    = (Sample.afterSweep, mkSweepResult 0 0 []).
Proof.
  destruct (processPendingTransactions_settles Sample.env1 Sample.ledgerWithDeferred)
    as (Hcount & _ & _ & Hagain).
  - by_evaluation.
  - split; [by vm_compute |]. split; [| exact Hagain].
    rewrite Hcount. by vm_compute.
Defined.

(** ** Statistics *)

Section NetFlow.

Lemma currencyString_inj c c' : currencyString c = currencyString c' → c = c'.
Proof. destruct c, c'; (done || discriminate). Qed.

Lemma flowTotals_snoc stats stat :
  flowTotals (stats ++ [stat])
  = let '(incomingTotals, outgoingTotals) := flowTotals stats in
    let currency := currencyString (astat_currency stat) in
    let amount := astat_totalAmount stat in
    if bool_decide (astat_direction stat = INCOMING)
    then (<[currency := plus (default 0%Qc (incomingTotals !! currency)) amount]>
            incomingTotals,
          outgoingTotals)
    else (incomingTotals,
          <[currency := plus (default 0%Qc (outgoingTotals !! currency)) amount]>
            outgoingTotals).
Proof. unfold flowTotals. by rewrite fold_left_app. Qed.

Lemma runningFlow_snoc direction currency stats stat :
  runningFlow direction currency (stats ++ [stat])
  = if bool_decide (astat_direction stat = direction)
       && bool_decide (astat_currency stat = currency)
    then plus (runningFlow direction currency stats) (astat_totalAmount stat)
    else runningFlow direction currency stats.
Proof. unfold runningFlow. by rewrite fold_left_app. Qed.

Lemma flowOf_snoc direction currency stats stat :
  flowOf direction currency (stats ++ [stat])
  = (flowOf direction currency stats
     + if bool_decide (astat_direction stat = direction)
          && bool_decide (astat_currency stat = currency)
       then astat_totalAmount stat else 0)%Qc.
Proof.
  induction stats as [|st rest IH]; cbn.
  - destruct (_ && _); ring.
  - fold (flowOf direction currency (rest ++ [stat])). rewrite IH.
    fold (flowOf direction currency rest).
    destruct (bool_decide (astat_direction st = direction) && _);
      destruct (bool_decide (astat_direction stat = direction) && _); ring.
Qed.

Lemma runningFlow_absent direction currency stats :
  currency ∉ (astat_currency <$> filter (fun stat => astat_direction stat = direction) stats) →
  runningFlow direction currency stats = 0%Qc.
Proof.
  induction stats as [|st rest IH] using rev_ind; [done |]. intros Hnot.
  rewrite filter_app, fmap_app in Hnot. apply not_elem_of_app in Hnot as [Hrest Hne].
  rewrite runningFlow_snoc.
  destruct (decide (astat_direction st = direction)) as [Hd | Hd].
  - rewrite filter_cons_True, fmap_cons in Hne by done.
    apply not_elem_of_cons in Hne as [Hne _].
    rewrite (bool_decide_eq_true_2 _ Hd), bool_decide_eq_false_2 by done. cbn. auto.
  - rewrite (bool_decide_eq_false_2 _ Hd). cbn. auto.
Qed.

Lemma flowsOf_nil direction : flowsOf direction [] ∅.
Proof.
  split.
  - intros currency. rewrite lookup_empty. by rewrite bool_decide_eq_false_2 by apply not_elem_of_nil.
  - intros key Hsome. rewrite lookup_empty in Hsome. by apply is_Some_None in Hsome.
Qed.

(** A group of the other direction leaves the totals of this one alone. *)
Lemma flowsOf_skip direction stats stat totals :
  astat_direction stat ≠ direction →
  flowsOf direction stats totals →
  flowsOf direction (stats ++ [stat]) totals.
Proof.
  intros Hd [Hsums Hkeys]. split; [| done]. intros currency.
  rewrite Hsums, runningFlow_snoc, filter_app, filter_cons_False, filter_nil, app_nil_r by done.
  by rewrite (bool_decide_eq_false_2 _ Hd).
Qed.

(** A group of this direction is added to the total of its currency. *)
Lemma flowsOf_add direction stats stat totals :
  astat_direction stat = direction →
  flowsOf direction stats totals →
  flowsOf direction (stats ++ [stat])
    (<[currencyString (astat_currency stat) :=
         plus (default 0%Qc (totals !! currencyString (astat_currency stat)))
              (astat_totalAmount stat)]> totals).
Proof.
  intros Hd [Hsums Hkeys]. split.
  - intros currency.
    rewrite runningFlow_snoc, filter_app, filter_cons_True, filter_nil, fmap_app by done.
    rewrite (bool_decide_eq_true_2 _ Hd). cbn [andb fmap list_fmap].
    destruct (decide (astat_currency stat = currency)) as [<- | Hne].
    + rewrite lookup_insert_eq, (bool_decide_eq_true_2 (_ = _)) by done.
      rewrite bool_decide_eq_true_2
        by (apply elem_of_app; right; by apply list_elem_of_singleton).
      rewrite Hsums. case_bool_decide as Hin; cbn; [done |].
      by rewrite (runningFlow_absent _ _ _ Hin).
    + rewrite lookup_insert_ne by (by intros ?%currencyString_inj).
      rewrite (bool_decide_eq_false_2 (_ = _)) by done.
      rewrite Hsums. case_bool_decide as Hin.
      * by rewrite bool_decide_eq_true_2 by (apply elem_of_app; by left).
      * rewrite bool_decide_eq_false_2; [done |].
        intros [? | ?%list_elem_of_singleton]%elem_of_app; done.
  - intros key [<- | [_ Hold]]%lookup_insert_is_Some; [by eexists | by apply Hkeys].
Qed.

Lemma flowTotals_flowsOf stats :
  flowsOf INCOMING stats (flowTotals stats).1
  ∧ flowsOf OUTGOING stats (flowTotals stats).2.
Proof.
  induction stats as [|stat stats [IHin IHout]] using rev_ind.
  - split; apply flowsOf_nil.
  - rewrite flowTotals_snoc. destruct (flowTotals stats) as [incomingTotals outgoingTotals].
    cbn in IHin, IHout. cbv zeta. case_bool_decide as Hd; cbn [fst snd].
    + split; [by apply flowsOf_add |]. apply flowsOf_skip; [| done]. by rewrite Hd.
    + split; [by apply flowsOf_skip |]. apply flowsOf_add; [| done].
      by destruct (astat_direction stat).
Qed.

Lemma flowOf_Permutation direction currency stats stats' :
  stats ≡ₚ stats' → flowOf direction currency stats = flowOf direction currency stats'.
Proof.
  induction 1 as [| st l l' _ IH | st1 st2 l | l1 l2 l3 _ IH1 _ IH2]; cbn.
  - done.
  - fold (flowOf direction currency l) (flowOf direction currency l'). by rewrite IH.
  - fold (flowOf direction currency l). do 2 destruct (_ && _); ring.
  - congruence.
Qed.

Lemma currency_by_direction (currency : CurrencyCode) (stats : list AccountStat) :
  currency ∈ (astat_currency <$> stats)
  ↔ currency ∈ (astat_currency <$> filter (fun stat => astat_direction stat = INCOMING) stats)
    ∨ currency ∈ (astat_currency <$> filter (fun stat => astat_direction stat = OUTGOING) stats).
Proof.
  rewrite !list_elem_of_fmap. setoid_rewrite list_elem_of_filter. split.
  - intros (stat & -> & Hin). destruct (astat_direction stat) eqn:Hd; [left | right]; eauto.
  - intros [(stat & -> & _ & Hin) | (stat & -> & _ & Hin)]; eauto.
Qed.

Lemma calculateNetFlow_lookup stats currency :
  calculateNetFlow stats !! currencyString currency
  = if bool_decide (currency ∈ astat_currency <$> stats)
    then Some (toFixed 2 (minus (runningFlow INCOMING currency stats)
                                (runningFlow OUTGOING currency stats)))
    else None.
Proof.
  unfold calculateNetFlow.
  destruct (flowTotals_flowsOf stats) as [[Hin _] [Hout _]].
  destruct (flowTotals stats) as [incomingTotals outgoingTotals]. cbn [fst snd] in Hin, Hout.
  rewrite lookup_merge, Hin, Hout.
  pose proof (currency_by_direction currency stats) as Hany.
  case_bool_decide as Hi; case_bool_decide as Ho; cbn.
  - by rewrite bool_decide_eq_true_2 by tauto.
  - rewrite bool_decide_eq_true_2 by tauto. by rewrite (runningFlow_absent _ _ _ Ho).
  - rewrite bool_decide_eq_true_2 by tauto. by rewrite (runningFlow_absent _ _ _ Hi).
  - by rewrite bool_decide_eq_false_2 by tauto.
Qed.

Lemma calculateNetFlow_keys stats key :
  is_Some (calculateNetFlow stats !! key) → ∃ currency, key = currencyString currency.
Proof.
  unfold calculateNetFlow.
  destruct (flowTotals_flowsOf stats) as [[_ Hin] [_ Hout]].
  destruct (flowTotals stats) as [incomingTotals outgoingTotals]. cbn [fst snd] in Hin, Hout.
  rewrite lookup_merge.
  destruct (incomingTotals !! key) eqn:Hi; [intros _; apply Hin; by rewrite Hi |].
  destruct (outgoingTotals !! key) eqn:Ho; [intros _; apply Hout; by rewrite Ho |].
  cbn. by intros ?%is_Some_None.
Qed.

(** A decimal of whole hundredths is its own rendering to two places. *)
Lemma toFixed_cents cents : toFixed 2 (dec cents 100) = dec cents 100.
Proof.
  unfold toFixed.
  change (10 ^ Z.of_nat 2)%Z with 100%Z. change (Z.to_pos 100) with 100%positive.
  assert (Hred : this (dec cents 100) == cents # 100) by apply Qred_correct.
  destruct (this (dec cents 100)) as [n d]. unfold Qeq in Hred. cbn in Hred.
  cbn [Qnum Qden].
  assert (Habs : (Z.abs n * 100 = Z.abs cents * Zpos d)%Z).
  { rewrite <- (Z.abs_eq 100), <- Z.abs_mul, Hred, Z.abs_mul by lia.
    by rewrite (Z.abs_eq (Zpos d)) by lia. }
  assert (Hsgn : Z.sgn n = Z.sgn cents).
  { apply (f_equal Z.sgn) in Hred. rewrite !Z.sgn_mul in Hred. cbn in Hred. lia. }
  replace (2 * Z.abs n * 100 + Zpos d)%Z with (Zpos d + Z.abs cents * (2 * Zpos d))%Z by lia.
  rewrite Z.div_add by lia. rewrite Z.div_small by lia.
  rewrite Hsgn. by destruct cents.
Qed.

(** Sums and differences of whole hundredths. *)
Lemma dec_plus a b : (dec a 100 + dec b 100)%Qc = dec (a + b) 100.
Proof.
  apply Qc_is_canon. unfold dec. cbn [this Qcplus Q2Qc].
  rewrite !Qred_correct. unfold Qeq. cbn. lia.
Qed.

Lemma dec_minus a b : (dec a 100 - dec b 100)%Qc = dec (a - b) 100.
Proof.
  apply Qc_is_canon. unfold dec, Qcminus, Qcopp. cbn [this Qcplus Q2Qc].
  rewrite !Qred_correct. unfold Qeq. cbn. lia.
Qed.

Lemma dec_zero : 0%Qc = dec 0 100.
Proof. apply Qc_is_canon. by vm_compute. Qed.

Lemma flowOf_cents direction currency stats :
  Forall (fun stat => wholeCents (astat_totalAmount stat)) stats →
  flowOf direction currency stats = dec (centsFlow direction currency stats) 100.
Proof.
  induction 1 as [|stat rest Hstat _ IH]; [apply dec_zero |].
  unfold flowOf, centsFlow. cbn [foldr].
  fold (flowOf direction currency rest) (centsFlow direction currency rest).
  destruct (_ && _); [| done]. unfold wholeCents in Hstat.
  transitivity (dec (centsOf (astat_totalAmount stat)) 100
                + dec (centsFlow direction currency rest) 100)%Qc;
    [by rewrite <- Hstat, IH | apply dec_plus].
Qed.

Lemma centsFlow_volume currency stats :
  (Z.abs (centsFlow INCOMING currency stats) + Z.abs (centsFlow OUTGOING currency stats)
   <= volume stats)%Z.
Proof.
  induction stats as [|stat rest IH]; [done |].
  unfold centsFlow, volume. cbn [foldr].
  fold (centsFlow INCOMING currency rest) (centsFlow OUTGOING currency rest) (volume rest).
  destruct (astat_direction stat); repeat case_bool_decide; cbn [andb]; try done; lia.
Qed.

Lemma volume_app stats stats' : volume (stats ++ stats') = (volume stats + volume stats')%Z.
Proof. induction stats as [|stat rest IH]; [done |]. unfold volume in *. cbn [foldr app]. lia. Qed.

Lemma volume_nonneg stats : (0 <= volume stats)%Z.
Proof. induction stats as [|stat rest IH]; [done |]. unfold volume in *. cbn [foldr]. lia. Qed.

Lemma volume_Permutation stats stats' : stats ≡ₚ stats' → volume stats = volume stats'.
Proof.
  induction 1 as [| st l l' _ IH | st1 st2 l | l1 l2 l3 _ IH1 _ IH2]; unfold volume in *;
    cbn [foldr]; lia.
Qed.

(** Whole hundredths that total less than [10^20] hundredths add up without
    rounding. *)
Lemma runningFlow_exact direction currency stats :
  Forall (fun stat => wholeCents (astat_totalAmount stat)) stats →
  (volume stats < 10 ^ precision)%Z →
  runningFlow direction currency stats = flowOf direction currency stats.
Proof.
  induction stats as [|stat stats IH] using rev_ind; [done |].
  intros Hcents Hvolume.
  pose proof (flowOf_cents direction currency _ Hcents) as Hflow.
  pose proof (centsFlow_volume currency (stats ++ [stat])) as Hbound.
  apply Forall_app in Hcents as [Hstats _].
  rewrite volume_app in Hvolume. pose proof (volume_nonneg [stat]).
  rewrite runningFlow_snoc, IH by (done || lia).
  rewrite flowOf_snoc in Hflow |- *. destruct (_ && _).
  - apply plus_exact. rewrite Hflow. apply withinPrecision_cents.
    rewrite volume_app in Hbound. destruct direction; lia.
  - ring.
Qed.

Lemma calculateNetFlow_exact stats currency :
  Forall (fun stat => wholeCents (astat_totalAmount stat)) stats →
  (volume stats < 10 ^ precision)%Z →
  currency ∈ astat_currency <$> stats →
  calculateNetFlow stats !! currencyString currency
  = Some (flowOf INCOMING currency stats - flowOf OUTGOING currency stats)%Qc.
Proof.
  intros Hcents Hvolume Hin.
  rewrite calculateNetFlow_lookup, bool_decide_eq_true_2 by done.
  rewrite !runningFlow_exact, !(flowOf_cents _ _ _ Hcents) by done.
  pose proof (centsFlow_volume currency stats).
  rewrite minus_exact; rewrite dec_minus; [by rewrite toFixed_cents |].
  apply withinPrecision_cents. lia.
Qed.

End NetFlow.

(** X13: the net flow of an account has an entry for every currency that
    occurs in the statistics and no other entry: the total of the currency's
    INCOMING groups less the total of its OUTGOING groups, to two places,
    where each total is accumulated group by group in the order given, every
    sum and the difference rounded to the precision, and a currency that
    occurs on one side only counts as zero on the other.  Where every group's
    total is a whole number of hundredths and all of them together, signs
    apart, are less than [10^20] hundredths, nothing is rounded: the net flow
    of a currency is the exact sum of its incoming totals less the exact sum
    of its outgoing totals, and it does not depend on the order in which the
    groups are given. *)
Theorem calculateNetFlow_sums (stats : list AccountStat) :
  (∀ currency,
     calculateNetFlow stats !! currencyString currency
     = if bool_decide (currency ∈ astat_currency <$> stats)
       then Some (toFixed 2 (minus (runningFlow INCOMING currency stats)
                                   (runningFlow OUTGOING currency stats)))
       else None)
  ∧ (∀ key, is_Some (calculateNetFlow stats !! key) →
            ∃ currency, key = currencyString currency)
  ∧ (Forall (fun stat => wholeCents (astat_totalAmount stat)) stats →
     (volume stats < 10 ^ precision)%Z →
     (∀ currency,
        currency ∈ astat_currency <$> stats →
        calculateNetFlow stats !! currencyString currency
        = Some (flowOf INCOMING currency stats - flowOf OUTGOING currency stats)%Qc)
     ∧ ∀ stats', stats ≡ₚ stats' → calculateNetFlow stats' = calculateNetFlow stats).
Proof.
  split; [apply calculateNetFlow_lookup |].
  split; [apply calculateNetFlow_keys |].
  intros Hcents Hvolume. split; [intros; by apply calculateNetFlow_exact |].
  intros stats' Hperm.
  assert (Hcents' : Forall (fun stat => wholeCents (astat_totalAmount stat)) stats')
    by (by rewrite <- Hperm).
  assert (Hvolume' : (volume stats' < 10 ^ precision)%Z)
    by (by rewrite <- (volume_Permutation _ _ Hperm)).
  assert (Hsame : ∀ currency,
            calculateNetFlow stats' !! currencyString currency
            = calculateNetFlow stats !! currencyString currency).
  { intros currency.
    destruct (decide (currency ∈ astat_currency <$> stats)) as [Hin | Hin].
    - rewrite !calculateNetFlow_exact by (done || by rewrite <- Hperm).
      by rewrite !(flowOf_Permutation _ _ _ _ Hperm).
    - rewrite !calculateNetFlow_lookup, !bool_decide_eq_false_2; [done | done |].
      by rewrite <- Hperm. }
  apply map_eq. intros key.
  destruct (calculateNetFlow stats' !! key) as [x|] eqn:Hx.
  { destruct (calculateNetFlow_keys stats' key) as [currency ->]; [by rewrite Hx |].
    by rewrite <- Hsame, Hx. }
  destruct (calculateNetFlow stats !! key) as [y|] eqn:Hy; [| done].
  destruct (calculateNetFlow_keys stats key) as [currency ->]; [by rewrite Hy |].
  by rewrite <- Hx, Hsame, Hy.
Qed.

(** The net flow of [Scenario.flows]: 100 dollars in and 10 euros out. *)
Lemma calculateNetFlow_sums_witness :
  Forall (fun stat => wholeCents (astat_totalAmount stat)) Scenario.flows
  ∧ (volume Scenario.flows < 10 ^ precision)%Z
  ∧ calculateNetFlow Scenario.flows !! currencyString USD
    = Some (flowOf INCOMING USD Scenario.flows - flowOf OUTGOING USD Scenario.flows)%Qc
  ∧ calculateNetFlow (reverse Scenario.flows) = calculateNetFlow Scenario.flows.
Proof.
  assert (Hcents : Forall (fun stat => wholeCents (astat_totalAmount stat)) Scenario.flows).
  { repeat constructor; apply Qc_is_canon; by vm_compute. }
  assert (Hvolume : (volume Scenario.flows < 10 ^ precision)%Z) by (by vm_compute).
  destruct (calculateNetFlow_sums Scenario.flows) as (_ & _ & Hexact).
  destruct (Hexact Hcents Hvolume) as [Hvalue Horder].
  split_and!; [done | done | |].
  - apply Hvalue. do 2 constructor.
  - apply Horder. by rewrite reverse_Permutation.
Defined.

Section Counts.

Lemma transactionTypeString_inj ty ty' :
  transactionTypeString ty = transactionTypeString ty' → ty = ty'.
Proof. destruct ty, ty'; (done || discriminate). Qed.

Lemma sumCounts_insert (counts : gmap string Z) key count :
  sumCounts (<[key := count]> counts)
  = (sumCounts counts + count - default 0 (counts !! key))%Z.
Proof.
  unfold sumCounts. destruct (counts !! key) as [old|] eqn:Hold; cbn.
  - rewrite <- insert_delete_eq.
    rewrite (map_fold_insert_L (fun _ n acc => (n + acc)%Z))
      by (try apply lookup_delete_eq; intros; lia).
    rewrite (map_fold_delete_L (fun _ n acc => (n + acc)%Z) 0%Z key old counts)
      by (try done; intros; lia).
    lia.
  - rewrite (map_fold_insert_L (fun _ n acc => (n + acc)%Z)) by (try done; intros; lia).
    lia.
Qed.

Lemma totalCount_snoc stats stat :
  totalCount (stats ++ [stat]) = (totalCount stats + stat_count stat)%Z.
Proof. unfold totalCount. by rewrite fold_left_app. Qed.

Lemma countByType_snoc stats stat :
  countByType (stats ++ [stat])
  = <[transactionTypeString (stat_transactionType stat) :=
        (default 0 (countByType stats !! transactionTypeString (stat_transactionType stat))
         + stat_count stat)%Z]> (countByType stats).
Proof. unfold countByType. by rewrite fold_left_app. Qed.

Lemma countOf_snoc ty stats stat :
  countOf ty (stats ++ [stat])
  = (countOf ty stats
     + if bool_decide (stat_transactionType stat = ty) then stat_count stat else 0)%Z.
Proof.
  induction stats as [|st rest IH]; cbn.
  - case_bool_decide; lia.
  - fold (countOf ty (rest ++ [stat])). rewrite IH. fold (countOf ty rest).
    destruct (bool_decide (stat_transactionType st = ty));
      destruct (bool_decide (stat_transactionType stat = ty)); lia.
Qed.

Lemma countOf_absent ty stats :
  ty ∉ (stat_transactionType <$> stats) → countOf ty stats = 0%Z.
Proof.
  induction stats as [|st rest IH]; [done |]. rewrite fmap_cons.
  intros [Hne Hrest]%not_elem_of_cons. unfold countOf. cbn [foldr].
  fold (countOf ty rest). rewrite bool_decide_eq_false_2 by done. auto.
Qed.

End Counts.

(** X14: the counts of the summary agree with each other: [countByType] holds,
    for every transaction type that occurs in the statistics, the sum of the
    counts of its groups, and nothing for the other types, and [totalCount]
    is the sum of the counts that [countByType] holds. *)
Theorem calculateTransactionSummary_counts (stats : list Stat) :
  (∀ ty,
     countByType stats !! transactionTypeString ty
     = if bool_decide (ty ∈ stat_transactionType <$> stats)
       then Some (countOf ty stats) else None)
  ∧ sumCounts (countByType stats) = totalCount stats.
Proof.
  induction stats as [|stat stats [IHeach IHsum]] using rev_ind.
  - split; [| done]. intros ty. rewrite bool_decide_eq_false_2 by apply not_elem_of_nil.
    apply lookup_empty.
  - rewrite countByType_snoc, totalCount_snoc. split.
    + intros ty. rewrite countOf_snoc, fmap_app. cbn [fmap list_fmap].
      destruct (decide (stat_transactionType stat = ty)) as [<- | Hne].
      * rewrite lookup_insert_eq, (bool_decide_eq_true_2 (_ = _)) by done.
        rewrite bool_decide_eq_true_2
          by (apply elem_of_app; right; by apply list_elem_of_singleton).
        rewrite IHeach. case_bool_decide as Hin; cbn; [done |].
        by rewrite (countOf_absent _ _ Hin).
      * rewrite lookup_insert_ne by (by intros ?%transactionTypeString_inj).
        rewrite (bool_decide_eq_false_2 (_ = _)) by done.
        rewrite IHeach. case_bool_decide as Hin.
        -- rewrite bool_decide_eq_true_2 by (apply elem_of_app; by left). f_equal. lia.
        -- rewrite bool_decide_eq_false_2; [done |].
           intros [? | ?%list_elem_of_singleton]%elem_of_app; done.
    + rewrite sumCounts_insert, IHsum. lia.
Qed.

(** * Identifiers and validators *)

(** ** Account numbers *)

Section AccountNumbers.

Local Abbreviation hi b := (upper (digit (Byte.to_N b / 16))).
Local Abbreviation lo b := (upper (digit (Byte.to_N b mod 16))).

Lemma generateAccountNumber_chars b1 b2 b3 b4 b5 b6 :
  generateAccountNumber [b1; b2; b3; b4; b5; b6]
  = String "A" (String "C" (String "C" (String "T" (String "-"
     (String (hi b1) (String (lo b1) (String (hi b2) (String (lo b2) (String "-"
     (String (hi b3) (String (lo b3) (String (hi b4) (String (lo b4) (String "-"
     (String (hi b5) (String (lo b5) (String (hi b6) (String (lo b6)
     "")))))))))))))))))).
Proof. reflexivity. Qed.

(** Both digits of a byte are upper-case hexadecimal digits, and they are
    decimal digits when the half bytes are below ten. *)
Lemma byte_digits b :
  hexadecimal (hi b) = true ∧ hexadecimal (lo b) = true
  ∧ decimalDigit (hi b) = bool_decide (Byte.to_N b / 16 < 10)%N
  ∧ decimalDigit (lo b) = bool_decide (Byte.to_N b mod 16 < 10)%N.
Proof. destruct b; vm_compute; done. Qed.

Lemma upper_digits_NoDup : NoDup (upper <$> digits).
Proof. by_evaluation. Qed.

(** Below 36, distinct numbers have distinct digits, upper-cased or not. *)
Lemma upper_digit_inj n m :
  (n < 36)%N → (m < 36)%N → upper (digit n) = upper (digit m) → n = m.
Proof.
  intros Hn Hm Heq.
  assert (Hlookup : ∀ k, (k < 36)%N →
            (upper <$> digits) !! N.to_nat k = Some (upper (digit k))).
  { intros k Hk. rewrite list_lookup_fmap. unfold digit.
    destruct (digits !! N.to_nat k) eqn:Hd; [done |].
    apply lookup_ge_None in Hd. change (length digits) with 36%nat in Hd. lia. }
  apply N2Nat.inj.
  eapply NoDup_lookup; [apply upper_digits_NoDup | by apply Hlookup |].
  rewrite Heq. by apply Hlookup.
Qed.

(** A byte is determined by its two digits. *)
Lemma byte_digits_inj b b' : hi b = hi b' → lo b = lo b' → b = b'.
Proof.
  intros Hhi Hlo.
  pose proof (Byte.to_N_bounded b) as Hb. pose proof (Byte.to_N_bounded b') as Hb'.
  assert (Hdiv : ∀ x, (x ≤ 255)%N → (x / 16 < 36)%N).
  { intros x Hx. apply N.Div0.div_lt_upper_bound. lia. }
  assert (Hmod : ∀ x, (x mod 16 < 36)%N).
  { intros x. pose proof (N.mod_upper_bound x 16). lia. }
  apply upper_digit_inj in Hhi; [| by apply Hdiv..].
  apply upper_digit_inj in Hlo; [| by apply Hmod..].
  assert (Heq : Byte.to_N b = Byte.to_N b').
  { rewrite (N.div_mod (Byte.to_N b) 16), (N.div_mod (Byte.to_N b') 16) by done.
    by rewrite Hhi, Hlo. }
  apply (f_equal Byte.of_N) in Heq. rewrite !Byte.of_to_N in Heq. congruence.
Qed.

(** [toString('hex').toUpperCase()] loses nothing of the buffer. *)
Lemma randomOf_inj buffer buffer' : randomOf buffer = randomOf buffer' → buffer = buffer'.
Proof.
  unfold randomOf. revert buffer'.
  induction buffer as [|b rest IH]; intros [|b' rest']; cbn; try done.
  intros [= Hhi Hlo Hrest]. f_equal; [by apply byte_digits_inj | by apply IH].
Qed.

Lemma decimalDigit_alphanumeric c : decimalDigit c = true → alphanumeric c = true.
Proof. unfold decimalDigit, alphanumeric. by intros ->. Qed.

End AccountNumbers.

(** X15: every account number that [generateAccountNumber] makes of six random
    bytes has the form ACCT-XXXX-XXXX-XXXX with hexadecimal digits, the
    letters in upper case, and so passes [validateAccountNumber]; and two
    account numbers made of different bytes are different. *)
Theorem generateAccountNumber_valid (randomBytes : list Byte.byte) :
  length randomBytes = 6%nat →
  test (accountNumberPattern hexadecimal) (generateAccountNumber randomBytes) = true
  ∧ validateAccountNumber (generateAccountNumber randomBytes) = true
  ∧ toUpperCase (generateAccountNumber randomBytes) = generateAccountNumber randomBytes
  ∧ ∀ randomBytes',
      length randomBytes' = 6%nat →
      generateAccountNumber randomBytes' = generateAccountNumber randomBytes →
      randomBytes' = randomBytes.
Proof.
  intros Hlength.
  destruct randomBytes as [|b1 [|b2 [|b3 [|b4 [|b5 [|b6 [|]]]]]]]; try discriminate.
  destruct (byte_digits b1) as (H1 & H1' & _). destruct (byte_digits b2) as (H2 & H2' & _).
  destruct (byte_digits b3) as (H3 & H3' & _). destruct (byte_digits b4) as (H4 & H4' & _).
  destruct (byte_digits b5) as (H5 & H5' & _). destruct (byte_digits b6) as (H6 & H6' & _).
  assert (Hhex : test (accountNumberPattern hexadecimal)
                   (generateAccountNumber [b1; b2; b3; b4; b5; b6]) = true).
  { rewrite generateAccountNumber_chars. cbn.
    rewrite !(bool_decide_eq_true_2 (_ = _)) by done.
    by rewrite H1, H1', H2, H2', H3, H3', H4, H4', H5, H5', H6, H6'. }
  split_and!.
  - done.
  - revert Hhex. unfold validateAccountNumber, accountNumberRegex.
    rewrite !accountNumberPattern_spec.
    intros (g1 & g2 & g3 & -> & Hg1 & Hg2 & Hg3).
    exists g1, g2, g3. split; [done |].
    split; [| split]; by apply group_hexadecimal_alphanumeric.
  - rewrite generateAccountNumber_chars. cbn [toUpperCase]. 
    assert (Hup : ∀ b, upper (upper (digit (Byte.to_N b / 16)))
                       = upper (digit (Byte.to_N b / 16))
                       ∧ upper (upper (digit (Byte.to_N b mod 16)))
                         = upper (digit (Byte.to_N b mod 16))).
    { intros b. destruct b; vm_compute; done. }
    by rewrite !(proj1 (Hup _)), !(proj2 (Hup _)).
  - intros randomBytes' Hlength'.
    destruct randomBytes' as [|c1 [|c2 [|c3 [|c4 [|c5 [|c6 [|]]]]]]]; try discriminate.
    rewrite !generateAccountNumber_chars.
    intros [= ? ? ? ? ? ? ? ? ? ? ? ?].
    repeat f_equal; by apply byte_digits_inj.
Qed.

(** The bytes 0a ff 12 9c 00 e3 give ACCT-0AFF-129C-00E3, which the
    validator accepts. *)
Lemma generateAccountNumber_valid_witness :
  generateAccountNumber Scenario.sixBytes = "ACCT-0AFF-129C-00E3"
  ∧ validateAccountNumber (generateAccountNumber Scenario.sixBytes) = true.
Proof.
  split; [reflexivity |].
  apply (generateAccountNumber_valid Scenario.sixBytes). reflexivity.
Defined.

(** X16: the pattern of the financial schemas, [ACCT-] and three groups of four
    decimal digits, accepts fewer account numbers than
    [validateAccountNumber]: what it accepts the validator accepts, but of
    the account numbers that [generateAccountNumber] makes it accepts only
    those whose twelve hexadecimal digits are all below A. *)
Theorem financialAccountNumberRegex_digits_only :
  (∀ value, test financialAccountNumberRegex value = true →
            validateAccountNumber value = true)
  ∧ ∀ randomBytes,
      length randomBytes = 6%nat →
      (test financialAccountNumberRegex (generateAccountNumber randomBytes) = true
       ↔ Forall (fun b => (Byte.to_N b / 16 < 10)%N ∧ (Byte.to_N b mod 16 < 10)%N)
                randomBytes).
Proof.
  split.
  - intros value. unfold financialAccountNumberRegex, validateAccountNumber, accountNumberRegex.
    rewrite !accountNumberPattern_spec.
    intros (g1 & g2 & g3 & -> & Hg1 & Hg2 & Hg3).
    exists g1, g2, g3. split; [done |].
    assert (Hgroup : ∀ v, group decimalDigit v → group alphanumeric v).
    { intros v [Hlen Hall]. split; [done |].
      rewrite forallb_forall in *. intros c Hc. eauto using decimalDigit_alphanumeric. }
    auto.
  - intros randomBytes Hlength.
    destruct randomBytes as [|b1 [|b2 [|b3 [|b4 [|b5 [|b6 [|]]]]]]]; try discriminate.
    rewrite generateAccountNumber_chars. cbn.
    rewrite !(bool_decide_eq_true_2 (_ = _)) by done.
    destruct (byte_digits b1) as (_ & _ & -> & ->).
    destruct (byte_digits b2) as (_ & _ & -> & ->).
    destruct (byte_digits b3) as (_ & _ & -> & ->).
    destruct (byte_digits b4) as (_ & _ & -> & ->).
    destruct (byte_digits b5) as (_ & _ & -> & ->).
    destruct (byte_digits b6) as (_ & _ & -> & ->).
    rewrite !Forall_cons, Forall_nil, !andb_true_iff, !bool_decide_eq_true. tauto.
Qed.

(** ACCT-0AFF-129C-00E3, made by [generateAccountNumber], is refused by the
    pattern of the financial schemas; ACCT-1234-5678-9012 is accepted by
    both. *)
Lemma financialAccountNumberRegex_digits_only_witness :
  test financialAccountNumberRegex (generateAccountNumber Scenario.sixBytes) = false
  ∧ validateAccountNumber "ACCT-1234-5678-9012" = true.
Proof.
  destruct financialAccountNumberRegex_digits_only as [Hweaker Hgenerated]. split.
  - destruct (test _ _) eqn:Htest; [| done].
    apply (Hgenerated Scenario.sixBytes eq_refl) in Htest.
    apply Forall_cons in Htest as [[_ Hlow] _]. vm_compute in Hlow. discriminate.
  - apply Hweaker. reflexivity.
Defined.

(** ** Transaction ids *)

Section TransactionIds.

Lemma digits36_bound fuel n : Forall (fun d => (d < 36)%N) (digits36 fuel n).
Proof.
  revert n. induction fuel as [|fuel IH]; intros n; cbn; [done |].
  constructor; [by apply N.mod_upper_bound |].
  destruct (n / 36 =? 0)%N; [done | apply IH].
Qed.

Lemma digits36_value fuel n :
  (n < 2 ^ N.of_nat fuel)%N → valueOf36 (digits36 fuel n) = n.
Proof.
  revert n. induction fuel as [|fuel IH]; intros n Hn.
  - cbn in *. lia.
  - cbn [digits36 valueOf36 foldr]. fold (valueOf36 (digits36 fuel (n / 36))).
    assert (Hrest : (n `div` 36 < 2 ^ N.of_nat fuel)%N).
    { apply N.Div0.div_lt_upper_bound.
      rewrite Nat2N.inj_succ, N.pow_succ_r' in Hn. lia. }
    destruct (n / 36 =? 0)%N eqn:Hzero.
    + apply N.eqb_eq in Hzero. cbn. rewrite (N.div_mod n 36) at 2 by done. lia.
    + fold (valueOf36 (digits36 fuel (n / 36))). rewrite (IH _ Hrest).
      rewrite (N.div_mod n 36) at 3 by done. lia.
Qed.

Lemma toUpperCase_list l :
  toUpperCase (string_of_list_ascii l) = string_of_list_ascii (upper <$> l).
Proof. induction l as [|c l IH]; cbn; [done | by rewrite IH]. Qed.

Lemma upper_digit_list_inj (ds ds' : list N) :
  Forall (fun d => (d < 36)%N) ds → Forall (fun d => (d < 36)%N) ds' →
  upper <$> (digit <$> ds) = upper <$> (digit <$> ds') → ds = ds'.
Proof.
  intros Hds. revert ds'. induction Hds as [|d ds Hd _ IH]; intros [|d' ds'] Hds'; cbn;
    try done.
  apply Forall_cons in Hds' as [Hd' Hds']. intros [= Hhead Htail].
  f_equal; [by apply upper_digit_inj | by apply IH].
Qed.

(** The rendering of the clock loses nothing of it. *)
Lemma timestampAt_inj ms ms' : timestampAt ms = timestampAt ms' → ms = ms'.
Proof.
  unfold timestampAt, toString36. rewrite !toUpperCase_list. intros Heq.
  apply (f_equal list_ascii_of_string) in Heq.
  rewrite !list_ascii_of_string_of_list_ascii in Heq.
  apply upper_digit_list_inj in Heq;
    [| apply Forall_reverse, digits36_bound | apply Forall_reverse, digits36_bound].
  apply (f_equal reverse) in Heq. rewrite !reverse_involutive in Heq.
  assert (Hfuel : ∀ n, (n < 2 ^ N.of_nat (N.to_nat (N.size n) `max` 1))%N).
  { intros n. eapply N.lt_le_trans; [apply N.size_gt |].
    apply N.pow_le_mono_r; lia. }
  rewrite <- (digits36_value _ ms (Hfuel ms)), <- (digits36_value _ ms' (Hfuel ms')).
  by rewrite Heq.
Qed.

Lemma upper_digit_no_hyphen n : upper (digit n) ≠ "-"%char.
Proof.
  assert (Hall : Forall (fun c => upper c ≠ "-"%char) digits) by by_evaluation.
  unfold digit. destruct (digits !! N.to_nat n) as [c|] eqn:Hc; cbn; [| done].
  eapply Forall_forall in Hall; [done |]. by eapply list_elem_of_lookup_2.
Qed.

Lemma timestampAt_hyphenFree ms : hyphenFree (timestampAt ms).
Proof.
  unfold hyphenFree, timestampAt, toString36.
  rewrite toUpperCase_list, list_ascii_of_string_of_list_ascii.
  intros (c & Hc & (n & -> & _)%list_elem_of_fmap)%list_elem_of_fmap.
  by eapply upper_digit_no_hyphen.
Qed.

(** Two strings that start with a hyphen-free part and a hyphen agree on
    that part and on the rest. *)
Lemma string_app_cons c s t : String c s +:+ t = String c (s +:+ t).
Proof. reflexivity. Qed.

Lemma string_app_empty t : "" +:+ t = t.
Proof. reflexivity. Qed.

Lemma hyphen_split p p' rest rest' :
  hyphenFree p → hyphenFree p' →
  p +:+ String "-" rest = p' +:+ String "-" rest' →
  p = p' ∧ rest = rest'.
Proof.
  unfold hyphenFree. revert p'.
  induction p as [|c p IH]; intros [|c' p'] Hp Hp';
    rewrite ?string_app_cons, ?string_app_empty.
  - by intros [= ->].
  - intros [= <- _]. exfalso. apply Hp'. cbn. by left.
  - intros [= -> _]. exfalso. apply Hp. cbn. by left.
  - intros [= <- Heq]. cbn in Hp, Hp'.
    apply not_elem_of_cons in Hp as [_ Hp]. apply not_elem_of_cons in Hp' as [_ Hp'].
    destruct (IH p' Hp Hp' Heq) as [-> ->]. done.
Qed.

End TransactionIds.

(** X17: transaction ids collide only when everything they are made of
    collides: for prefixes without a hyphen, two ids minted from the clock in
    milliseconds and from random bytes are equal only if the prefixes, the
    milliseconds and the random bytes are equal. *)
Theorem generateTransactionId_injective
    (env env' : Env) (prefix prefix' : string) (ms ms' : N)
    (randomBytes randomBytes' : list Byte.byte) :
  timestamp env = timestampAt ms →
  random env prefix = randomOf randomBytes →
  timestamp env' = timestampAt ms' →
  random env' prefix' = randomOf randomBytes' →
  hyphenFree prefix → hyphenFree prefix' →
  generateTransactionId env prefix = generateTransactionId env' prefix' →
  prefix = prefix' ∧ ms = ms' ∧ randomBytes = randomBytes'.
Proof.
  intros Hts Hrandom Hts' Hrandom' Hp Hp'. unfold generateTransactionId.
  rewrite Hts, Hrandom, Hts', Hrandom'.
  change (prefix +:+ "-" +:+ timestampAt ms +:+ "-" +:+ randomOf randomBytes)
    with (prefix +:+ String "-" (timestampAt ms +:+ String "-" (randomOf randomBytes))).
  change (prefix' +:+ "-" +:+ timestampAt ms' +:+ "-" +:+ randomOf randomBytes')
    with (prefix' +:+ String "-" (timestampAt ms' +:+ String "-" (randomOf randomBytes'))).
  intros [-> Hrest]%hyphen_split; [| done..].
  apply hyphen_split in Hrest as [Hms Hbytes]; [| apply timestampAt_hyphenFree..].
  split; [done |]. split; [by apply timestampAt_inj | by apply randomOf_inj].
Qed.

(** Two deposits a millisecond apart get different transaction ids even
    when they draw the same random bytes. *)
Lemma generateTransactionId_injective_witness :
  generateTransactionId (Scenario.envAt 1700000000000) "DEP" = "DEP-LOYW3V28-0A1B2C3D"
  ∧ generateTransactionId (Scenario.envAt 1700000000000) "DEP"
    ≠ generateTransactionId (Scenario.envAt 1700000000001) "DEP".
Proof.
  split; [reflexivity |]. intros Heq.
  apply (generateTransactionId_injective _ _ _ _ 1700000000000 1700000000001
           Scenario.fourBytes Scenario.fourBytes) in Heq as (_ & Hms & _);
    [discriminate | reflexivity | reflexivity | reflexivity | reflexivity | |].
  - unfold hyphenFree. by_evaluation.
  - unfold hyphenFree. by_evaluation.
Defined.

(** ** Error codes *)

Section ErrorCodes.

Lemma substring_take n s :
  list_ascii_of_string (substring 0 n s) = take n (list_ascii_of_string s).
Proof.
  revert s. induction n as [|n IH]; intros [|c s]; cbn; try done.
  by rewrite IH.
Qed.

Lemma slugCharacter_not_underscore c : slugCharacter c = true → c ≠ "_"%char.
Proof. intros Hc ->. vm_compute in Hc. discriminate. Qed.

(** What [replace] leaves: characters of [[a-z0-9]] and underscores, no
    underscore next to another, and no underscore at the start when the text
    before ended inside a run. *)
Lemma replaceRuns_spec inRun s :
  Forall (fun c => slugCharacter c = true ∨ c = "_"%char)
         (list_ascii_of_string (replaceRuns inRun s))
  ∧ singleUnderscores (list_ascii_of_string (replaceRuns inRun s))
  ∧ (inRun = true → list_ascii_of_string (replaceRuns inRun s) !! 0%nat ≠ Some "_"%char).
Proof.
  revert inRun. induction s as [|c s IH]; intros inRun; cbn [replaceRuns].
  - split_and!; [constructor | by intros i Hi | done].
  - destruct (slugCharacter c) eqn:Hc.
    + destruct (IH false) as (Hall & Hsingle & _). cbn. split_and!.
      * constructor; [by left | done].
      * intros [|i] Hi; cbn in *; [| by apply Hsingle].
        injection Hi as ->. by apply slugCharacter_not_underscore in Hc.
      * intros _ [= ->]. by apply slugCharacter_not_underscore in Hc.
    + destruct (IH true) as (Hall & Hsingle & Hstart). destruct inRun; [tauto |].
      cbn. split_and!.
      * constructor; [by right | done].
      * intros [|i] Hi; cbn in *; [by apply Hstart | by apply Hsingle].
      * done.
Qed.

End ErrorCodes.

(** X18: the error code generated for an [ApiError] that is given none is
    [ERR_], the status code, an underscore and a slug of the message; the
    slug has at most 20 characters, all of them lower-case ASCII letters,
    digits or underscores, and no two underscores in a row. *)
Theorem generateErrorCode_slug (statusCode : Z) (message : string) :
  generateErrorCode statusCode message
  = "ERR_" +:+ pretty statusCode +:+ "_" +:+ slugOf message
  ∧ (String.length (slugOf message) ≤ 20)%nat
  ∧ Forall (fun c => slugCharacter c = true ∨ c = "_"%char)
           (list_ascii_of_string (slugOf message))
  ∧ singleUnderscores (list_ascii_of_string (slugOf message)).
Proof.
  split; [done |].
  destruct (replaceRuns_spec false (toLowerCase message)) as (Hall & Hsingle & _).
  assert (Hlength : ∀ s, String.length s = length (list_ascii_of_string s)).
  { induction s as [|c s IH]; cbn; [done | by rewrite IH]. }
  unfold slugOf. rewrite Hlength, substring_take. split_and!.
  - rewrite length_take. lia.
  - by apply Forall_take.
  - intros i Hi Hnext.
    apply lookup_take_Some in Hi as [Hi _]. apply lookup_take_Some in Hnext as [Hnext _].
    by apply (Hsingle i).
Qed.

(** ** Amounts *)

Section Amounts.

Lemma decimalPlaces_from_ge fuel k denominator :
  (k ≤ decimalPlaces_from fuel k denominator)%nat.
Proof.
  revert k. induction fuel as [|fuel IH]; intros k; cbn; [done |].
  destruct (_ =? _)%Z; [done |]. specialize (IH (S k)). lia.
Qed.

(** At most two decimal places: the denominator divides 100. *)
Lemma decimalPlaces_cents x :
  (decimalPlaces x ≤ 2)%nat ↔ (Zpos (Qden x) | 100)%Z.
Proof.
  unfold decimalPlaces.
  destruct (Pos.size_nat (Qden x)) as [|fuel] eqn:Hsize; [by destruct (Qden x) |].
  rewrite Nat.add_comm. cbn [Nat.add decimalPlaces_from].
  change (10 ^ Z.of_nat 0)%Z with 1%Z. change (10 ^ Z.of_nat 1)%Z with 10%Z.
  change (10 ^ Z.of_nat 2)%Z with 100%Z.
  pose proof (decimalPlaces_from_ge fuel 3 (Qden x)) as Hge.
  destruct (1 mod Z.pos (Qden x) =? 0)%Z eqn:H0.
  { apply Z.eqb_eq, Z.mod_divide in H0; [| done].
    split; [| intros _; lia]. intros _. etrans; [exact H0 |]. by exists 100%Z. }
  destruct (10 mod Z.pos (Qden x) =? 0)%Z eqn:H1.
  { apply Z.eqb_eq, Z.mod_divide in H1; [| done].
    split; [| intros _; lia]. intros _. etrans; [exact H1 |]. by exists 10%Z. }
  destruct (100 mod Z.pos (Qden x) =? 0)%Z eqn:H2.
  { apply Z.eqb_eq, Z.mod_divide in H2; [| done]. split; [done | intros _; lia]. }
  split; [lia |]. intros Hdiv. apply Z.mod_divide in Hdiv; [| done].
  apply Z.eqb_neq in H2. done.
Qed.

(** The denominator divides 100: the value is a whole number of
    hundredths. *)
Lemma cents_denominator (x : Decimal) :
  (Zpos (Qden x) | 100)%Z ↔ ∃ cents, x = dec cents 100.
Proof.
  split.
  - intros [q Hq]. exists (Qnum x * q)%Z. apply Qc_is_canon. unfold dec. cbn.
    rewrite Qred_correct. unfold Qeq. cbn. rewrite Hq. ring.
  - intros [cents ->]. unfold dec. cbn.
    pose proof (Qred_correct (cents # 100)) as Heq. unfold Qeq in Heq. cbn in Heq.
    pose proof (gcd_Qred (cents # 100)) as Hgcd.
    apply (Z.gauss _ (Qnum (Qred (cents # 100)))).
    + exists cents. lia.
    + by rewrite Z.gcd_comm.
Qed.

Lemma dec_lt_0 cents : (0 < dec cents 100)%Qc ↔ (0 < cents)%Z.
Proof.
  change (0 < dec cents 100)%Qc with (0 < Qred (cents # 100))%Q.
  rewrite Qred_correct. unfold Qlt. cbn. lia.
Qed.

Lemma dec_le_bound cents :
  (dec cents 100 ≤ dec 100000000000 1)%Qc ↔ (cents ≤ 10000000000000)%Z.
Proof.
  change (dec cents 100 ≤ dec 100000000000 1)%Qc
    with (Qred (cents # 100) <= Qred (100000000000 # 1))%Q.
  rewrite !Qred_correct. unfold Qle. cbn. lia.
Qed.

Lemma positive_amount (amount : Decimal) :
  isNegative amount || bool_decide (amount = 0%Qc) = false ↔ (0 < amount)%Qc.
Proof.
  rewrite orb_false_iff, isNegative_false, bool_decide_eq_false. split.
  - intros [Hle Hne]. apply Qcle_lt_or_eq in Hle as [? | ?]; [done | congruence].
  - intros Hlt. split; [by apply Qclt_le_weak |]. intros ->.
    by apply (Qcle_not_lt 0 0 (Qcle_refl 0)).
Qed.

End Amounts.

(** X19: [validateAmount] accepts exactly the whole numbers of hundredths from
    0.01 to 100,000,000,000.00: a value is accepted if and only if it is
    [cents / 100] for a whole number of cents between 1 and 10^13.  Zero,
    negative values, values with a third decimal place and values above
    100,000,000,000 are refused, and so is a missing value. *)
Theorem validateAmount_accepts (value : option Decimal) :
  validateAmount value = true
  ↔ ∃ cents, value = Some (dec cents 100) ∧ (0 < cents ≤ 10000000000000)%Z.
Proof.
  destruct value as [amount|]; cbn; [| split; [done | by intros (? & ? & _)]].
  split.
  - destruct (_ || _) eqn:Hsign; [done |]. apply positive_amount in Hsign.
    case_bool_decide as Hplaces; [done |].
    case_bool_decide as Hbound; [done |]. intros _.
    assert (Hcents : (decimalPlaces amount ≤ 2)%nat) by lia.
    apply decimalPlaces_cents, cents_denominator in Hcents as [cents ->].
    exists cents. split; [done |]. split; [by apply dec_lt_0 |].
    apply dec_le_bound. by apply Qcnot_lt_le.
  - intros (cents & [= ->] & Hlow & Hhigh).
    rewrite (proj2 (positive_amount _)) by (by apply dec_lt_0).
    rewrite bool_decide_eq_false_2.
    + rewrite bool_decide_eq_false_2; [done |].
      apply Qcle_not_lt. by apply dec_le_bound.
    + assert ((decimalPlaces (dec cents 100) ≤ 2)%nat); [| lia].
      apply decimalPlaces_cents, cents_denominator. by exists cents.
Qed.

(** ** Password hashes *)

Section Passwords.

Lemma digit_no_colon n : digit n ≠ ":"%char.
Proof.
  assert (Hall : Forall (fun c => c ≠ ":"%char) digits) by by_evaluation.
  unfold digit. destruct (digits !! N.to_nat n) as [c|] eqn:Hc; cbn; [| done].
  eapply Forall_forall in Hall; [done |]. by eapply list_elem_of_lookup_2.
Qed.

(** Splitting at the colon gives back the two hexadecimal parts. *)
Lemma split_toHex buffer rest :
  split ":" (toHex buffer +:+ String ":" rest) = toHex buffer :: split ":" rest.
Proof.
  induction buffer as [|b buffer IH]; cbn [toHex foldr].
  - rewrite string_app_empty. cbn. by rewrite bool_decide_eq_true_2.
  - rewrite !string_app_cons. cbn [split].
    rewrite !bool_decide_eq_false_2 by apply digit_no_colon.
    fold (toHex buffer). by rewrite IH.
Qed.

Lemma split_toHex_end buffer : split ":" (toHex buffer) = [toHex buffer].
Proof.
  induction buffer as [|b buffer IH]; cbn [toHex foldr]; [done |].
  cbn [split]. rewrite !bool_decide_eq_false_2 by apply digit_no_colon.
  fold (toHex buffer). by rewrite IH.
Qed.

Lemma toUpperCase_toHex buffer : toUpperCase (toHex buffer) = randomOf buffer.
Proof. done. Qed.

Lemma toHex_inj buffer buffer' : toHex buffer = toHex buffer' → buffer = buffer'.
Proof. intros Heq. apply randomOf_inj. unfold randomOf. by rewrite Heq. Qed.

End Passwords.

(** X20: a password verifies against its own hash, whatever the salt; and
    another password verifies against that hash only if the key derivation
    gives both passwords the same key under the salt. *)
Theorem verifyPassword_hashPassword
    (scrypt : string -> string -> nat -> list Byte.byte)
    (saltBytes : list Byte.byte) (password : string) :
  verifyPassword scrypt password (hashPassword scrypt saltBytes password) = true
  ∧ ∀ other,
      verifyPassword scrypt other (hashPassword scrypt saltBytes password) = true
      ↔ scrypt other (toHex saltBytes) 64%nat = scrypt password (toHex saltBytes) 64%nat.
Proof.
  assert (Hverify : ∀ other,
            verifyPassword scrypt other (hashPassword scrypt saltBytes password)
            = bool_decide (toHex (scrypt password (toHex saltBytes) 64%nat)
                           = toHex (scrypt other (toHex saltBytes) 64%nat))).
  { intros other. unfold verifyPassword, hashPassword.
    change (toHex saltBytes +:+ ":" +:+ toHex (scrypt password (toHex saltBytes) 64%nat))
      with (toHex saltBytes
            +:+ String ":" (toHex (scrypt password (toHex saltBytes) 64%nat))).
    by rewrite split_toHex, split_toHex_end. }
  split.
  - rewrite Hverify. by apply bool_decide_eq_true_2.
  - intros other. rewrite Hverify, bool_decide_eq_true. split.
    + by intros ->%toHex_inj.
    + by intros ->.
Qed.

(** ** What a reversal does *)

(** When the loop runs to its end, every balance is what the entries on its
    account have left of it, one after the other, and no row was created. *)
Lemma applyEntries_postedAll env what entries (bals bals' : gmap string AccountBalance.t) id :
  applyEntries env what entries bals = (bals', None) →
  AccountBalance.balance <$> bals' !! id
  = postedAll entries id <$> (AccountBalance.balance <$> bals !! id).
Proof.
  revert bals. induction entries as [|entry rest IH]; intros bals.
  - intros [= <-]. by destruct (bals !! id).
  - cbn [applyEntries].
    destruct (bals !! Entry.accountId entry) as [row|] eqn:Hrow; [| done].
    assert (Hstep : ∀ nb, nb = posted entry (AccountBalance.balance row) →
      applyEntries env what rest (saveBalance env (Entry.accountId entry) row nb bals)
      = (bals', None) →
      AccountBalance.balance <$> bals' !! id
      = postedAll (entry :: rest) id <$> (AccountBalance.balance <$> bals !! id)).
    { intros nb -> Hrun. rewrite (IH _ Hrun). unfold saveBalance, postedAll.
      cbn [fold_left]. case_bool_decide as Hid.
      - subst id. by rewrite lookup_insert_eq, Hrow.
      - rewrite lookup_insert_ne by done. by destruct (bals !! id). }
    case_bool_decide as Hside.
    + apply Hstep. unfold posted. by rewrite bool_decide_eq_true_2.
    + destruct (isNegative _); [done |].
      apply Hstep. unfold posted. by rewrite bool_decide_eq_false_2.
Qed.

(** X21: a reversal that succeeds, of whatever transaction: the original is on
    record as COMPLETED; the reversal that is returned is a COMPLETED
    REVERSAL transaction of the same amount, with the entries of the original
    in their order and their sides flipped and with the transaction id of the
    original in its metadata, and what the schema keeps of it is appended to
    the journal; the balance of every account, system accounts included, is
    what the flipped entries on that account leave of it, entered one after
    the other with every sum and difference rounded to the precision.  Where
    the entries of the original are on distinct accounts, an account with an
    entry has moved by exactly the opposite of that entry whenever the result
    has no more than 20 significant digits. *)
Theorem reverseTransaction_effect
    (env : Env) (reversalData : ReversalTransactionDTO.t) (s s' : State)
    (reversal : Transaction.t) :
  reverseTransaction env reversalData s = (s', Ok reversal) →
  ∃ original,
    findCompleted (ReversalTransactionDTO.originalTransactionId reversalData) s
    = Some original
    ∧ transactions s' = transactions s ++ [Transaction.schemaPaths reversal]
    ∧ Transaction.transactionId reversal = generateTransactionId env "REV"
    ∧ Transaction.transactionType reversal = REVERSAL
    ∧ Transaction.status reversal = COMPLETED
    ∧ Transaction.amount reversal = Transaction.amount original
    ∧ Transaction.entries reversal = reverseEntry <$> Transaction.entries original
    ∧ Transaction.metadata reversal !! "originalTransactionId"
      = Some (Transaction.transactionId original)
    ∧ (∀ id, balanceOf s' id
             = postedAll (reverseEntry <$> Transaction.entries original) id
                 <$> balanceOf s id)
    ∧ (NoDup (Entry.accountId <$> Transaction.entries original) →
       ∀ entry b,
         entry ∈ Transaction.entries original →
         balanceOf s (Entry.accountId entry) = Some b →
         withinPrecision (b - signed entry)%Qc →
         balanceOf s' (Entry.accountId entry) = Some (b - signed entry)%Qc).
Proof.
  intros (original & bals & Horig & _ & -> & Hrun & ->)%reverseTransaction_ok.
  exists original. split_and!; try done.
  - cbn. by rewrite lookup_insert_ne, lookup_insert_eq.
  - intros id. unfold balanceOf.
    cbn [commitTransaction accountBalances set_accountBalances set_transactions].
    apply (applyEntries_postedAll _ _ _ _ _ id Hrun).
  - intros Hdistinct entry b Hin Hb Hexact. unfold balanceOf in *.
    cbn [commitTransaction accountBalances set_accountBalances set_transactions].
    assert (Hdistinct' : NoDup (Entry.accountId <$> (reverseEntry <$> Transaction.entries original)))
      by (by rewrite accountId_reverseEntry).
    rewrite (applyEntries_distinct _ _ _ _ _ (Entry.accountId entry) Hdistinct' Hrun).
    rewrite Hb, entryOn_reverseEntry, (entryOn_elem _ _ Hdistinct Hin). cbn. f_equal.
    rewrite posted_exact; rewrite signed_reverseEntry; done.
Qed.

(** Reversing Alice's deposit of 50 appends a REVERSAL to the journal and
    takes the 50 off her balance of 150 again. *)
Lemma reverseTransaction_effect_witness :
  ∃ original,
    findCompleted Sample.depositId Sample.afterDeposit = Some original
    ∧ Transaction.transactionType <$> transactions Sample.afterDepositReversal
      = [DEPOSIT; REVERSAL]
    ∧ balanceOf Sample.afterDepositReversal (Account._id Sample.alice)
      = postedAll (reverseEntry <$> Transaction.entries original) (Account._id Sample.alice)
          <$> balanceOf Sample.afterDeposit (Account._id Sample.alice).
Proof.
  edestruct (reverseTransaction_effect Sample.env2 (Sample.reversalOf Sample.depositId)
               Sample.afterDeposit Sample.afterDepositReversal)
    as (original & Horig & _ & _ & _ & _ & _ & _ & _ & Hbals & _).
  - vm_compute. reflexivity.
  - exists original. split; [exact Horig |]. split; [by vm_compute | apply Hbals].
Defined.

(** ** Accounts: opening, maintenance, deactivation *)

(** Two elements of a list without duplicates under [f] that agree under
    [f] are one element. *)
Lemma NoDup_fmap_inj {A B} (f : A → B) (l : list A) x y :
  NoDup (f <$> l) → x ∈ l → y ∈ l → f x = f y → x = y.
Proof.
  intros Hnodup [i Hi]%list_elem_of_lookup [j Hj]%list_elem_of_lookup Heq.
  assert (i = j) as ->; [| congruence].
  eapply NoDup_lookup; [exact Hnodup | |].
  - by rewrite list_lookup_fmap, Hi.
  - rewrite list_lookup_fmap, Hj. cbn. congruence.
Qed.

(** [find] on a list extended at its end. *)
Lemma find_snoc {A} (p : A → bool) (l : list A) x :
  List.find p (l ++ [x])
  = match List.find p l with
    | Some y => Some y
    | None => if p x then Some x else None
    end.
Proof.
  induction l as [|y l IH]; cbn; [done |]. by destruct (p y).
Qed.

(** [find] finds nothing where no element passes. *)
Lemma find_nothing {A} (p : A → bool) (l : list A) :
  (∀ x, x ∈ l → p x = false) → List.find p l = None.
Proof.
  induction l as [|y l IH]; intros Hall; cbn; [done |].
  rewrite (Hall y) by (by left). apply IH. intros x Hx. apply Hall. by right.
Qed.

(** Saving a stored account keeps the object ids as they are. *)
Lemma saveAccount_ids account accs :
  Account._id <$> saveAccount account accs = Account._id <$> accs.
Proof.
  unfold saveAccount. rewrite <- list_fmap_compose. apply list_fmap_ext.
  intros i a _. cbn. by case_bool_decide.
Qed.

(** The accounts after a stored account is saved: the saved document, and
    the accounts of another object id. *)
Lemma saveAccount_elem account accs a :
  a ∈ saveAccount account accs →
  a = account ∨ (a ∈ accs ∧ Account._id a ≠ Account._id account).
Proof.
  unfold saveAccount. intros (b & -> & Hb)%list_elem_of_fmap.
  case_bool_decide; [by left | by right].
Qed.

Lemma saveAccount_keeps account accs a :
  a ∈ accs → Account._id a ≠ Account._id account → a ∈ saveAccount account accs.
Proof.
  intros Ha Hne. unfold saveAccount. apply list_elem_of_fmap. exists a.
  by rewrite bool_decide_eq_false_2.
Qed.

Lemma saveAccount_saved account accs :
  Account._id account ∈ (Account._id <$> accs) → account ∈ saveAccount account accs.
Proof.
  intros (b & Hid & Hb)%list_elem_of_fmap. unfold saveAccount.
  apply list_elem_of_fmap. exists b. by rewrite bool_decide_eq_true_2.
Qed.

(** Saving a version of a stored account under its own account number keeps
    the account numbers as they are, where object ids are unique. *)
Lemma saveAccount_numbers account original accs :
  NoDup (Account._id <$> accs) →
  original ∈ accs →
  Account._id account = Account._id original →
  Account.accountNumber account = Account.accountNumber original →
  Account.accountNumber <$> saveAccount account accs = Account.accountNumber <$> accs.
Proof.
  intros Hnodup Hin Hid Hnumber. unfold saveAccount.
  rewrite <- list_fmap_compose. apply list_fmap_ext.
  intros i a Ha. cbn. case_bool_decide as Hsame; [| done].
  rewrite Hnumber. f_equal.
  apply (NoDup_fmap_inj Account._id accs); [done | done | | congruence].
  apply list_elem_of_lookup. by exists i.
Qed.

Lemma findAccountById_elem accountId s account :
  findAccountById accountId s = Some account →
  account ∈ accounts s ∧ Account._id account = accountId.
Proof.
  unfold findAccountById. intros [Hin Hp]%find_some_elem.
  by apply bool_decide_eq_true in Hp.
Qed.

(** X22: [createAccount] opens an account or leaves the store alone.
    Where the object id and the account number that it draws are new to a
    consistent store, it stores one active account and its balance row, of
    the initial balance given or else zero; the account is then found by its
    number and by its id, the ledger operations find it as an active account,
    and the journal, the other balance rows and the lookups of other numbers
    are as before.  Where the account number is taken, the call is refused
    with status 409 and nothing is stored. *)
Theorem createAccount_opens (env : Env) (randomBytes : list Byte.byte)
    (accountData : IAccountCreate.t) (s : State) :
  consistent s →
  let number := generateAccountNumber randomBytes in
  let s' := fst (createAccount env randomBytes accountData s) in
  let r := snd (createAccount env randomBytes accountData s) in
  (number ∈ (Account.accountNumber <$> accounts s) →
     s' = s ∧ ∃ e, r = inl e ∧ HttpError.statusCode e = 409%Z
                   ∧ HttpError.code e = "ERR_CONFLICT")
  ∧ (number ∉ (Account.accountNumber <$> accounts s) →
     objectId env ∉ (Account._id <$> accounts s) →
     ∃ account row,
       r = inr (account, row)
       ∧ Account._id account = objectId env
       ∧ Account.accountNumber account = number
       ∧ Account.userId account = IAccountCreate.userId accountData
       ∧ Account.isActive account = true
       ∧ AccountBalance.balance row = default 0%Qc (IAccountCreate.initialBalance accountData)
       ∧ AccountBalance.currency row = Account.currency account
       ∧ accounts s' = accounts s ++ [account]
       ∧ getAccountByNumber number s' = inr (account, row)
       ∧ getAccountById (objectId env) s' = inr (account, row)
       ∧ findActiveAccount number s' = Some account
       ∧ transactions s' = transactions s
       ∧ (∀ id, id ≠ objectId env → accountBalances s' !! id = accountBalances s !! id)
       ∧ (∀ other, other ≠ number →
            getAccountByNumber other s' = getAccountByNumber other s)).
Proof.
  intros ((Hnodup & Hrows) & Honly & Hcache) number s' r. subst s' r.
  unfold createAccount, insertAccount. cbn [Account._id Account.accountNumber].
  fold number. split.
  - intros Htaken. rewrite (bool_decide_eq_true_2 (number ∈ _) Htaken).
    case_bool_decide; cbn [fst snd]; (split; [done |]);
      eexists; repeat split; reflexivity.
  - intros Hnumber Hid.
    rewrite (bool_decide_eq_false_2 _ Hid), (bool_decide_eq_false_2 _ Hnumber).
    unfold insertBalance. cbn [accountBalances set_accounts].
    destruct (accountBalances s !! objectId env) eqn:Hrow.
    { exfalso. apply Hid. apply Honly. by rewrite Hrow. }
    cbn [fst snd]. eexists _, _. split; [reflexivity |].
    assert (Hbyid : List.find (fun a => bool_decide (Account._id a = objectId env)) (accounts s)
                    = None).
    { apply find_nothing. intros a Ha. apply bool_decide_eq_false_2. intros Heq.
      apply Hid. rewrite <- Heq. by apply list_elem_of_fmap_2. }
    assert (Hbynumber : ∀ p : Account.t → bool,
              List.find (fun a => bool_decide (Account.accountNumber a = number) && p a)
                (accounts s) = None).
    { intros p. apply find_nothing. intros a Ha. apply andb_false_iff. left.
      apply bool_decide_eq_false_2. intros Heq.
      apply Hnumber. rewrite <- Heq. by apply list_elem_of_fmap_2. }
    repeat split; cbn -[number].
    + unfold getAccountByNumber. cbn -[number]. rewrite find_snoc.
      rewrite (find_nothing _ (accounts s)).
      2: { intros a Ha. apply bool_decide_eq_false_2. intros Heq.
           apply Hnumber. rewrite <- Heq. by apply list_elem_of_fmap_2. }
      cbn -[number]. rewrite bool_decide_eq_true_2 by done.
      cbn. by rewrite lookup_insert_eq.
    + unfold getAccountById, findAccountById. cbn -[number]. rewrite find_snoc, Hbyid.
      cbn -[number]. rewrite bool_decide_eq_true_2 by done.
      cbn. by rewrite lookup_insert_eq.
    + unfold findActiveAccount. cbn -[number]. rewrite find_snoc, Hbynumber.
      cbn -[number]. by rewrite bool_decide_eq_true_2.
    + intros id Hne. by rewrite lookup_insert_ne.
    + intros other Hother. unfold getAccountByNumber. cbn -[number]. rewrite find_snoc.
      clear Hbyid Hbynumber.
      destruct (List.find _ (accounts s)) as [found|] eqn:Hfound.
      * apply find_some_elem in Hfound as [Hin _]. cbn -[number].
        rewrite lookup_insert_ne; [done |].
        intros Heq. apply Hid. rewrite Heq. by apply list_elem_of_fmap_2.
      * cbn -[number]. by rewrite bool_decide_eq_false_2.
Qed.

Lemma createAccount_opens_witness :
  getAccountByNumber "ACCT-0AFF-129C-00E3"
    (fst (createAccount Sample.env1 Scenario.sixBytes Scenario.savings25 Sample.ledger))
  = inr (Account.mk "65f000000000000000000511" "65f0000000000000000000c1"
           "ACCT-0AFF-129C-00E3" AccountType.SAVINGS USD true ∅,
         AccountBalance.mk USD (dec 25 1) 1700000000000).
Proof.
  destruct (createAccount_opens Sample.env1 Scenario.sixBytes Scenario.savings25
              Sample.ledger sample_ledger_consistent) as [_ Hopen].
  destruct Hopen as (account & row & Hr & _ & _ & _ & _ & _ & _ & _ & Hfound & _).
  - by_evaluation.
  - by_evaluation.
  - vm_compute in Hr. injection Hr as <- <-. exact Hfound.
Defined.

(** X23: the operations on accounts keep the store consistent and the
    account numbers unique, whether they succeed or fail: [createAccount],
    [updateBalance], and [updateAccount] where it leaves the account type
    alone. *)
Theorem account_operations_keep_consistent (s : State) :
  consistent s → uniqueAccountNumbers s →
  (∀ env randomBytes accountData,
     consistent (fst (createAccount env randomBytes accountData s))
     ∧ uniqueAccountNumbers (fst (createAccount env randomBytes accountData s)))
  ∧ (∀ env accountId amount,
       consistent (fst (updateBalance env accountId amount s))
       ∧ uniqueAccountNumbers (fst (updateBalance env accountId amount s)))
  ∧ (∀ accountId updateData,
       IAccountUpdate.accountType updateData = None →
       consistent (fst (updateAccount accountId updateData s))
       ∧ uniqueAccountNumbers (fst (updateAccount accountId updateData s))).
Proof.
  intros Hs Hunique. pose proof Hs as ((Hnodup & Hrows) & Honly & Hcache).
  split; [| split].
  - intros env randomBytes accountData.
    unfold createAccount, insertAccount. cbn [Account._id Account.accountNumber].
    case_bool_decide as Hid; [done |]. case_bool_decide as Hnumber; [done |].
    unfold insertBalance. cbn [accountBalances set_accounts].
    destruct (accountBalances s !! objectId env) eqn:Hrow; [done |].
    cbn [fst]. split.
    + repeat split; cbn.
      * rewrite fmap_app. apply NoDup_app. split; [done |]. split.
        -- intros id Hin ->%list_elem_of_singleton. done.
        -- apply NoDup_singleton.
      * intros a [Ha | ->%list_elem_of_singleton]%elem_of_app.
        -- apply lookup_insert_is_Some'. right. by apply Hrows.
        -- cbn. by rewrite lookup_insert_eq.
      * intros id [-> | [_ Hold]]%lookup_insert_is_Some; rewrite fmap_app, elem_of_app.
        -- right. by apply list_elem_of_singleton.
        -- left. by apply Honly.
      * intros key id Hkey. destruct (Hcache key id Hkey) as (a & Ha & Hid' & Htype).
        exists a. split; [apply elem_of_app; by left | done].
    + unfold uniqueAccountNumbers. cbn. rewrite fmap_app. apply NoDup_app.
      split; [done |]. split.
      * intros number Hin ->%list_elem_of_singleton. done.
      * apply NoDup_singleton.
  - intros env accountId amount. unfold updateBalance.
    destruct (accountBalances s !! accountId) as [row|] eqn:Hrow; [| done].
    assert (Hsaved : ∀ id', is_Some (saveBalance env accountId row amount (accountBalances s) !! id')
                            ↔ is_Some (accountBalances s !! id')).
    { apply saveBalance_rows. by rewrite Hrow. }
    assert (Hgoal : consistent
                      (set_accountBalances
                         (saveBalance env accountId row amount (accountBalances s)) s)
                    ∧ uniqueAccountNumbers
                        (set_accountBalances
                           (saveBalance env accountId row amount (accountBalances s)) s)).
    { split; [| done]. repeat split; cbn; try done.
      - intros a Ha. apply Hsaved. by apply Hrows.
      - intros id Hid%Hsaved. by apply Honly. }
    by destruct (findAccountById _ _).
  - intros accountId updateData Htype. unfold updateAccount. rewrite Htype.
    destruct (findAccountById accountId s) as [original|] eqn:Hfound; [| done].
    apply findAccountById_elem in Hfound as [Hin Hid].
    cbn [default Account._id accountBalances set_accounts].
    set (account := Account.mk _ _ _ _ _ _ _).
    assert (Hgoal : consistent (set_accounts (saveAccount account (accounts s)) s)
                    ∧ uniqueAccountNumbers (set_accounts (saveAccount account (accounts s)) s)).
    { split.
      - repeat split; cbn.
        + by rewrite saveAccount_ids.
        + intros a [-> | [Ha _]]%saveAccount_elem; [| by apply Hrows].
          cbn. by apply Hrows.
        + intros id Hrow. rewrite saveAccount_ids. by apply Honly.
        + intros key id Hkey. destruct (Hcache key id Hkey) as (a & Ha & Hid' & Hsystem).
          destruct (decide (Account._id a = Account._id original)) as [Hsame | Hother].
          * exists account. split; [| split].
            -- apply saveAccount_saved. cbn. by apply list_elem_of_fmap_2.
            -- cbn. congruence.
            -- cbn. by rewrite <- (NoDup_fmap_inj Account._id (accounts s) a original).
          * exists a. split; [| done]. by apply saveAccount_keeps.
      - unfold uniqueAccountNumbers. cbn.
        by rewrite (saveAccount_numbers account original). }
    by destruct (accountBalances s !! Account._id original).
Qed.

Lemma account_operations_keep_consistent_witness :
  consistent
    (fst (updateAccount (Account._id Sample.bob) Scenario.deactivation Sample.ledger)).
Proof.
  assert (Hunique : uniqueAccountNumbers Sample.ledger) by by_evaluation.
  apply (proj2 (proj2 (account_operations_keep_consistent Sample.ledger
                         sample_ledger_consistent Hunique))
           (Account._id Sample.bob) Scenario.deactivation eq_refl).
Defined.

(** What a successful [updateAccount] has done: a version of a stored
    account, of the same object id and account number, is saved in its place,
    and the balance row of the account is handed out with it. *)
Lemma updateAccount_saved accountId updateData s s' account row :
  updateAccount accountId updateData s = (s', inr (account, row)) →
  ∃ original,
    original ∈ accounts s
    ∧ Account._id account = Account._id original
    ∧ Account.accountNumber account = Account.accountNumber original
    ∧ Account.isActive account
      = default (Account.isActive original) (IAccountUpdate.isActive updateData)
    ∧ s' = set_accounts (saveAccount account (accounts s)) s
    ∧ accountBalances s !! Account._id account = Some row.
Proof.
  unfold updateAccount.
  destruct (findAccountById accountId s) as [original|] eqn:Hfound; [| done].
  apply findAccountById_elem in Hfound as [Hin Hid].
  cbn [Account._id accountBalances set_accounts].
  destruct (accountBalances s !! Account._id original) as [found|] eqn:Hrow; [| done].
  intros [= <- <- <-]. exists original. by repeat split.
Qed.

(** Under the account number of a saved account, a store of unique account
    numbers holds the saved account only. *)
Lemma saveAccount_only account original accs a :
  NoDup (Account.accountNumber <$> accs) →
  original ∈ accs →
  Account._id account = Account._id original →
  Account.accountNumber account = Account.accountNumber original →
  a ∈ saveAccount account accs →
  Account.accountNumber a = Account.accountNumber account →
  a = account.
Proof.
  intros Hunique Hin Hid Hnumber [-> | [Ha Hne]]%saveAccount_elem Hsame; [done |].
  exfalso. apply Hne. rewrite Hid. f_equal.
  apply (NoDup_fmap_inj Account.accountNumber accs); [done | done | done | congruence].
Qed.

(** X24: once [updateAccount] has saved an account as inactive, every
    deposit, withdrawal, fee or transfer that names its account number is
    refused and changes nothing in the store, where account numbers are
    unique; the account and its balance are still served by the lookup by
    number. *)
Theorem deactivated_account_is_frozen (env : Env) (accountId : string)
    (updateData : IAccountUpdate.t) (s s' : State)
    (account : Account.t) (row : AccountBalance.t) (op : Operation) :
  uniqueAccountNumbers s →
  IAccountUpdate.isActive updateData = Some false →
  updateAccount accountId updateData s = (s', inr (account, row)) →
  Account.accountNumber account ∈ namedAccountNumbers op →
  (∃ e, perform env op s' = (s', Err e))
  ∧ getAccountByNumber (Account.accountNumber account) s' = inr (account, row)
  ∧ Account.isActive account = false.
Proof.
  intros Hunique Hoff Hrun Hnamed.
  apply updateAccount_saved in Hrun
    as (original & Hin & Hid & Hnumber & Hactive & -> & Hrow).
  rewrite Hoff in Hactive. cbn in Hactive.
  assert (Hsaved : account ∈ saveAccount account (accounts s)).
  { apply saveAccount_saved. rewrite Hid. by apply list_elem_of_fmap_2. }
  assert (Hnone : findActiveAccount (Account.accountNumber account)
                    (set_accounts (saveAccount account (accounts s)) s) = None).
  { unfold findActiveAccount. apply find_nothing. cbn. intros a Ha.
    destruct (decide (Account.accountNumber a = Account.accountNumber account))
      as [Hsame | Hother].
    - rewrite (saveAccount_only account original (accounts s) a); try done.
      rewrite Hactive. apply andb_false_r.
    - by rewrite bool_decide_eq_false_2. }
  split; [| split; [| done]].
  - destruct op as [d | d | d | d]; cbn in Hnamed |- *.
    + apply list_elem_of_singleton in Hnamed.
      unfold createDeposit. rewrite <- Hnamed, Hnone. eauto.
    + apply list_elem_of_singleton in Hnamed.
      unfold createWithdrawal. rewrite <- Hnamed, Hnone. eauto.
    + unfold createTransfer. case_bool_decide; [eauto |].
      apply elem_of_cons in Hnamed as [Hnamed | Hnamed].
      * rewrite <- Hnamed, Hnone. eauto.
      * apply list_elem_of_singleton in Hnamed.
        destruct (findActiveAccount (TransferTransactionDTO.fromAccountNumber d) _);
          [| eauto].
        rewrite <- Hnamed, Hnone. eauto.
    + apply list_elem_of_singleton in Hnamed.
      unfold createFee. rewrite <- Hnamed, Hnone. eauto.
  - unfold getAccountByNumber. cbn.
    destruct (List.find _ _) as [a|] eqn:Hfind.
    + apply find_some_elem in Hfind as [Ha Hp]. apply bool_decide_eq_true in Hp.
      rewrite (saveAccount_only account original (accounts s) a); try done.
      by rewrite Hrow.
    + exfalso. apply list_elem_of_In in Hsaved.
      pose proof (List.find_none _ _ Hfind account Hsaved) as Hp. cbn in Hp.
      by rewrite bool_decide_eq_true_2 in Hp.
Qed.

Lemma deactivated_account_is_frozen_witness :
  ∃ e, perform Sample.env2 (Transfer Sample.transfer40)
         (fst (updateAccount (Account._id Sample.bob) Scenario.deactivation Sample.ledger))
       = (fst (updateAccount (Account._id Sample.bob) Scenario.deactivation Sample.ledger),
          Err e).
Proof.
  assert (Hunique : uniqueAccountNumbers Sample.ledger) by by_evaluation.
  refine (proj1 (deactivated_account_is_frozen Sample.env2 (Account._id Sample.bob)
                   Scenario.deactivation Sample.ledger _
                   (Account.mk (Account._id Sample.bob) (Account.userId Sample.bob)
                      (Account.accountNumber Sample.bob) AccountType.SAVINGS USD false ∅)
                   (AccountBalance.mk USD (dec 30 1) 0)
                   (Transfer Sample.transfer40) Hunique eq_refl _ _)).
  - vm_compute. reflexivity.
  - by_evaluation.
Defined.

